(** * Intelligent routing core: intent classifier, tier registry,
      prompt adapter and router

    A shallow embedding of [intent-classifier.ts], [model-tiers.ts],
    [prompt-adapter.ts] and [intelligent-router.ts], of the logger of
    [routing-analytics.ts] and of the integration hook
    [resolve-model-intelligent.ts], with the properties of the routing
    pipeline proved over it.

    JavaScript strings are sequences of UTF-16 code units, numbers are
    IEEE 754 binary64 values, and regular expressions are run by a
    backtracking matcher that follows the ECMAScript pattern semantics
    (priority order of alternatives, greedy and lazy quantifiers, the
    rejection of empty iterations, assertions). *)

From Stdlib Require Import String Ascii ZArith List Bool Lia Floats.
Import ListNotations.

Set Implicit Arguments.
Set Warnings "-inexact-float".
Open Scope Z_scope.

(* ------------------------------------------------------------------ *)
(** ** JavaScript strings                                              *)
(* ------------------------------------------------------------------ *)

Module Js.

(** A string value: its UTF-16 code units. *)
Definition jsstring := list Z.

(** An ASCII literal of the source, as code units. *)
Definition str (s : string) : jsstring :=
  map (fun a => Z.of_N (N_of_ascii a)) (list_ascii_of_string s).

Definition NL : Z := 10.

Fixpoint eqb (a b : jsstring) : bool :=
  match a, b with
  | [], [] => true
  | x :: a', y :: b' => if x =? y then eqb a' b' else false
  | _, _ => false
  end.

(** WhiteSpace and LineTerminator of ECMAScript: what [trim] removes and
    what the class escape [\s] matches. *)
Definition is_space (c : Z) : bool :=
  ((9 <=? c) && (c <=? 13)) || (c =? 32) || (c =? 160) || (c =? 5760)
  || ((8192 <=? c) && (c <=? 8202)) || (c =? 8232) || (c =? 8233)
  || (c =? 8239) || (c =? 8287) || (c =? 12288) || (c =? 65279).

(** LineTerminator: what [.] refuses and where [^] and [$] hold under
    the [m] flag. *)
Definition is_line_terminator (c : Z) : bool :=
  (c =? 10) || (c =? 13) || (c =? 8232) || (c =? 8233).

Definition is_digit (c : Z) : bool := (48 <=? c) && (c <=? 57).

(** [\w]: ASCII letters, digits and the underscore. *)
Definition is_word (c : Z) : bool :=
  ((97 <=? c) && (c <=? 122)) || ((65 <=? c) && (c <=? 90))
  || is_digit c || (c =? 95).

Fixpoint trimStart (s : jsstring) : jsstring :=
  match s with
  | c :: t => if is_space c then trimStart t else s
  | [] => []
  end.

Definition trimEnd (s : jsstring) : jsstring := rev (trimStart (rev s)).

Definition trim (s : jsstring) : jsstring := trimEnd (trimStart s).

(** [s.split("\n")]. *)
Fixpoint split_nl (s : jsstring) : list jsstring :=
  match s with
  | [] => [[]]
  | c :: t =>
      if c =? NL then [] :: split_nl t
      else match split_nl t with
           | l :: ls => (c :: l) :: ls
           | [] => [[c]]
           end
  end.

(** [lines.join("\n")]. *)
Fixpoint join_nl (ls : list jsstring) : jsstring :=
  match ls with
  | [] => []
  | [l] => l
  | l :: ls' => l ++ NL :: join_nl ls'
  end.

Fixpoint starts_with (p s : jsstring) : bool :=
  match p, s with
  | [], _ => true
  | x :: p', y :: s' => if x =? y then starts_with p' s' else false
  | _ :: _, [] => false
  end.

(** [s.includes(p)]. *)
Fixpoint includes (s p : jsstring) : bool :=
  if starts_with p s then true
  else match s with
       | [] => false
       | _ :: t => includes t p
       end.

(** Code points of a string, as a [u]-flag pattern sees them: a high
    surrogate followed by a low one is one code point, every other code
    unit stands for itself. *)
Definition is_high (c : Z) : bool := (55296 <=? c) && (c <=? 56319).
Definition is_low (c : Z) : bool := (56320 <=? c) && (c <=? 57343).

Fixpoint codePoints (s : jsstring) : list Z :=
  match s with
  | [] => []
  | h :: t =>
      match t with
      | l :: t' =>
          if is_high h then
            if is_low l
            then (65536 + (h - 55296) * 1024 + (l - 56320)) :: codePoints t'
            else h :: codePoints t
          else h :: codePoints t
      | [] => [h]
      end
  end.

Definition encodeCodePoint (c : Z) : jsstring :=
  if 65536 <=? c
  then [55296 + (c - 65536) / 1024; 56320 + (c - 65536) mod 1024]
  else [c].

Definition fromCodePoints (cs : list Z) : jsstring :=
  flat_map encodeCodePoint cs.

End Js.

Import Js.

(** The Unicode data of the runtime that the code consults: the binary
    properties [Emoji] and [Emoji_Presentation] of [\p{...}] and the
    lower-case mapping of [String.prototype.toLowerCase].  They belong
    to the JavaScript engine, not to the repository, and are taken as
    parameters. *)
Record Unicode := {
  Emoji : Z -> bool;
  Emoji_Presentation : Z -> bool;
  toLowerCase : jsstring -> jsstring
}.

(** The tables on ASCII: of the code points below 128 only [#], [*] and
    the digits have the Emoji property, none has Emoji_Presentation, and
    lower-casing maps [A-Z] to [a-z]. *)
Definition ascii_lower (c : Z) : Z :=
  if (65 <=? c) && (c <=? 90) then c + 32 else c.

Definition ascii_emoji (c : Z) : bool :=
  (c =? 35) || (c =? 42) || is_digit c.

(** An instance that is exact on ASCII text: it is used to run the code
    on ASCII inputs. *)
Definition ascii_unicode : Unicode := {|
  Emoji := ascii_emoji;
  Emoji_Presentation := fun _ => false;
  toLowerCase := map ascii_lower
|}.

(* ------------------------------------------------------------------ *)
(** ** Regular expressions                                             *)
(* ------------------------------------------------------------------ *)

Module Re.

(** Members of a character class. *)
Inductive cls :=
| CChar (c : Z)
| CRange (lo hi : Z)
| CSpace            (* \s *)
| CNotSpace         (* \S *)
| CWord             (* \w *)
| CDigit            (* \d *)
| CEmoji            (* \p{Emoji} *)
| CEmojiPres.       (* \p{Emoji_Presentation} *)

Inductive re :=
| Eps
| Lit (c : Z)                     (* a pattern character *)
| Dot                             (* . *)
| Cls (items : list cls)          (* [...] and the class escapes *)
| Cat (a b : re)
| Alt (a b : re)
| Rep (lo : nat) (hi : option nat) (greedy : bool) (a : re)
| Bol                             (* ^ *)
| Eol                             (* $ *)
| WordB                           (* \b *)
| Grp (i : nat) (a : re).         (* the i-th capturing group *)

Record flags := { ignoreCase : bool; multiline : bool; unicode : bool;
                  global : bool }.

(** Canonicalize without the [u] flag, on the characters that can meet
    an ASCII pattern character: an ASCII letter is compared by its upper
    case, and a character from 128 on never canonicalizes to an ASCII
    one.  The patterns of this repository that carry [i] are ASCII. *)
Definition canon (c : Z) : Z :=
  if (97 <=? c) && (c <=? 122) then c - 32 else c.

Definition captures := list (nat * jsstring).

(** A match position: the characters before it, nearest first, and the
    characters from it on. *)
Definition result := (list Z * list Z * captures)%type.
Definition cont := list Z -> list Z -> captures -> option result.

Section Matcher.
Variable U : Unicode.
Variable fl : flags.

Definition in_cls (c : Z) (i : cls) : bool :=
  match i with
  | CChar d => if ignoreCase fl then canon c =? canon d else c =? d
  | CRange lo hi => (lo <=? c) && (c <=? hi)
  | CSpace => is_space c
  | CNotSpace => negb (is_space c)
  | CWord => is_word c
  | CDigit => is_digit c
  | CEmoji => Emoji U c
  | CEmojiPres => Emoji_Presentation U c
  end.

Definition at_bol (pre : list Z) : bool :=
  match pre with
  | [] => true
  | c :: _ => if multiline fl then is_line_terminator c else false
  end.

Definition at_eol (suf : list Z) : bool :=
  match suf with
  | [] => true
  | c :: _ => if multiline fl then is_line_terminator c else false
  end.

Definition word_before (pre : list Z) : bool :=
  match pre with [] => false | c :: _ => is_word c end.

Definition word_after (suf : list Z) : bool :=
  match suf with [] => false | c :: _ => is_word c end.

(** RepeatMatcher: [fuel] bounds the number of iterations; an iteration
    beyond the minimum that consumes nothing is a failure, so
    [lo + length suf + 1] iterations are never exceeded. *)
Fixpoint rep_loop (ma : list Z -> list Z -> captures -> cont -> option result)
    (greedy : bool) (fuel lo : nat) (hi : option nat)
    (pre suf : list Z) (cs : captures) (k : cont) : option result :=
  match fuel with
  | O => None
  | S fuel' =>
      let more (_ : unit) :=
        match hi with
        | Some O => None
        | _ =>
            ma pre suf cs (fun pre' suf' cs' =>
              if match lo with
                 | O => Nat.eqb (length suf') (length suf)
                 | S _ => false
                 end
              then None
              else rep_loop ma greedy fuel' (Nat.pred lo)
                     (option_map Nat.pred hi) pre' suf' cs' k)
        end in
      let stop (_ : unit) :=
        match lo with O => k pre suf cs | S _ => None end in
      if greedy
      then match more tt with Some r => Some r | None => stop tt end
      else match stop tt with Some r => Some r | None => more tt end
  end.

Fixpoint m (r : re) (pre suf : list Z) (cs : captures) (k : cont)
  : option result :=
  match r with
  | Eps => k pre suf cs
  | Lit d =>
      match suf with
      | c :: suf' =>
          if (if ignoreCase fl then canon c =? canon d else c =? d)
          then k (c :: pre) suf' cs else None
      | [] => None
      end
  | Dot =>
      match suf with
      | c :: suf' =>
          if is_line_terminator c then None else k (c :: pre) suf' cs
      | [] => None
      end
  | Cls items =>
      match suf with
      | c :: suf' =>
          if existsb (in_cls c) items then k (c :: pre) suf' cs else None
      | [] => None
      end
  | Cat a b => m a pre suf cs (fun pre' suf' cs' => m b pre' suf' cs' k)
  | Alt a b =>
      match m a pre suf cs k with
      | Some x => Some x
      | None => m b pre suf cs k
      end
  | Rep lo hi greedy a =>
      rep_loop (m a) greedy (lo + length suf + 1) lo hi pre suf cs k
  | Bol => if at_bol pre then k pre suf cs else None
  | Eol => if at_eol suf then k pre suf cs else None
  | WordB =>
      if xorb (word_before pre) (word_after suf)
      then k pre suf cs else None
  | Grp i a =>
      m a pre suf cs (fun pre' suf' cs' =>
        k pre' suf'
          ((i, firstn (length suf - length suf') suf) :: cs'))
  end.

Definition accept : cont := fun pre suf cs => Some (pre, suf, cs).

(** A match that starts exactly at the position. *)
Definition match_at (r : re) (pre suf : list Z) : option result :=
  m r pre suf [] accept.

(** The leftmost match at or after the position: where it starts and
    where it ends. *)
Fixpoint search (r : re) (pre suf : list Z)
  : option (list Z * list Z * result) :=
  match match_at r pre suf with
  | Some res => Some (pre, suf, res)
  | None =>
      match suf with
      | [] => None
      | c :: suf' => search r (c :: pre) suf'
      end
  end.

(** [replace] with a replacement text that has no [$] patterns: the
    first match, or under [g] every match from left to right. *)
Fixpoint replace_loop (fuel : nat) (r : re) (by_ : list Z)
    (pre suf : list Z) : list Z :=
  match fuel with
  | O => suf
  | S fuel' =>
      match search r pre suf with
      | None => suf
      | Some (_, ssuf, (epre, esuf, _)) =>
          let skipped := firstn (length suf - length ssuf) suf in
          if global fl then
            if Nat.eqb (length esuf) (length ssuf) then
              match esuf with
              | [] => skipped ++ by_
              | c :: rest =>
                  skipped ++ by_ ++ c ::
                    replace_loop fuel' r by_ (c :: epre) rest
              end
            else skipped ++ by_ ++ replace_loop fuel' r by_ epre esuf
          else skipped ++ by_ ++ esuf
      end
  end.

(** The matches of a [g] pattern from left to right ([s.match(/.../g)]). *)
Fixpoint matches_loop (fuel : nat) (r : re) (pre suf : list Z)
  : list (list Z) :=
  match fuel with
  | O => []
  | S fuel' =>
      match search r pre suf with
      | None => []
      | Some (_, ssuf, (epre, esuf, _)) =>
          let found := firstn (length ssuf - length esuf) ssuf in
          if Nat.eqb (length esuf) (length ssuf) then
            match esuf with
            | [] => [found]
            | c :: rest => found :: matches_loop fuel' r (c :: epre) rest
            end
          else found :: matches_loop fuel' r epre esuf
      end
  end.

(** [s.split(/.../)]: [acc] holds the characters since the end of the
    last separator, nearest first.  A match at [q] that ends where the
    current piece starts ([e = p]) is skipped; any other match closes the
    piece and the scan resumes at its end. *)
Fixpoint split_loop (r : re) (acc pre suf : list Z) : list (list Z) :=
  match suf with
  | [] => [rev acc]
  | c :: suf' =>
      match match_at r pre suf with
      | Some (epre, esuf, _) =>
          match (length suf - length esuf)%nat with
          | O =>
              match acc with
              | [] => split_loop r [c] (c :: pre) suf'
              | _ :: _ => rev acc :: split_loop r [c] (c :: pre) suf'
              end
          | S n =>
              rev acc ::
                (fix resume (n : nat) (pre' suf'' : list Z) {struct suf''} :=
                   match n, suf'' with
                   | O, _ => split_loop r [] pre' suf''
                   | S n', d :: t => resume n' (d :: pre') t
                   | S _, [] => [[]]
                   end) n (c :: pre) suf'
          end
      | None => split_loop r (c :: acc) (c :: pre) suf'
      end
  end.

End Matcher.

End Re.

Import Re.

(* ------------------------------------------------------------------ *)
(** ** RegExp objects and the string methods that take them            *)
(* ------------------------------------------------------------------ *)

Record RegExp := {
  source : jsstring;       (* the text between the slashes *)
  pattern : re;
  rflags : flags
}.

Definition no_flags : flags :=
  {| ignoreCase := false; multiline := false; unicode := false;
     global := false |}.
Definition flag_i : flags :=
  {| ignoreCase := true; multiline := false; unicode := false;
     global := false |}.
Definition flag_u : flags :=
  {| ignoreCase := false; multiline := false; unicode := true;
     global := false |}.
Definition flag_m : flags :=
  {| ignoreCase := false; multiline := true; unicode := false;
     global := false |}.
Definition flag_g : flags :=
  {| ignoreCase := false; multiline := false; unicode := false;
     global := true |}.

(** Pattern syntax. *)
Definition seq (rs : list re) : re := fold_right Cat Eps rs.

Fixpoint alts (rs : list re) : re :=
  match rs with
  | [] => Cls []
  | [r] => r
  | r :: rs' => Alt r (alts rs')
  end.

Definition lit (s : string) : re := seq (map Lit (str s)).
Definition words (ss : list string) : re := alts (map lit ss).
Definition star (r : re) : re := Rep 0 None true r.
Definition plus (r : re) : re := Rep 1 None true r.
Definition opt (r : re) : re := Rep 0 (Some 1%nat) true r.
Definition lazy_star (r : re) : re := Rep 0 None false r.
Definition at_least (n : nat) (r : re) : re := Rep n None true r.
Definition between (lo hi : nat) (r : re) : re := Rep lo (Some hi) true r.
Definition ws : re := Cls [CSpace].
Definition wordch : re := Cls [CWord].
Definition digit : re := Cls [CDigit].
Definition one_of (s : string) : re := Cls (map CChar (str s)).

Section RegExpMethods.
Variable U : Unicode.

(** The characters a pattern runs over: code points under [u], code
    units otherwise. *)
Definition input_of (rx : RegExp) (s : jsstring) : list Z :=
  if unicode (rflags rx) then codePoints s else s.

Definition output_of (rx : RegExp) (cs : list Z) : jsstring :=
  if unicode (rflags rx) then fromCodePoints cs else cs.

(** [rx.test(s)], for a pattern without [g] or [y]. *)
Definition test (rx : RegExp) (s : jsstring) : bool :=
  match search U (rflags rx) (pattern rx) [] (input_of rx s) with
  | Some _ => true
  | None => false
  end.

(** [s.replace(rx, by_)]. *)
Definition replace (rx : RegExp) (by_ s : jsstring) : jsstring :=
  let inp := input_of rx s in
  output_of rx
    (replace_loop U (rflags rx) (S (length inp)) (pattern rx)
       (input_of rx by_) [] inp).

(** [s.match(rx)] without [g]: the captures of the leftmost match. *)
Definition match_ (rx : RegExp) (s : jsstring) : option captures :=
  match search U (rflags rx) (pattern rx) [] (input_of rx s) with
  | Some (_, _, (_, _, cs)) =>
      Some (map (fun ic => (fst ic, output_of rx (snd ic))) cs)
  | None => None
  end.

Definition group (i : nat) (cs : captures) : jsstring :=
  match find (fun ic => Nat.eqb (fst ic) i) cs with
  | Some ic => snd ic
  | None => []
  end.

(** [s.match(rx)] with [g]: every match, [null] when there is none. *)
Definition match_all (rx : RegExp) (s : jsstring)
  : option (list jsstring) :=
  let inp := input_of rx s in
  match matches_loop U (rflags rx) (S (length inp)) (pattern rx) [] inp with
  | [] => None
  | ms => Some (map (output_of rx) ms)
  end.

(** [s.split(rx)]. *)
Definition split (rx : RegExp) (s : jsstring) : list jsstring :=
  match input_of rx s with
  | [] =>
      match match_at U (rflags rx) (pattern rx) [] [] with
      | Some _ => []
      | None => [[]]
      end
  | inp =>
      map (output_of rx) (split_loop U (rflags rx) (pattern rx) [] [] inp)
  end.

End RegExpMethods.


(** [Math.min] on two numbers: NaN if either is, and [-0] below [+0]. *)
Definition Math_min (a b : float) : float :=
  if PrimFloat.is_nan a then a
  else if PrimFloat.is_nan b then b
  else if PrimFloat.ltb a b then a
  else if PrimFloat.ltb b a then b
  else if PrimFloat.get_sign a then a else b.

(* ------------------------------------------------------------------ *)
(** ** intent-classifier.ts                                            *)
(* ------------------------------------------------------------------ *)

Module IntentClassifier.

Inductive IntentComplexity :=
| trivial | simple | standard | complex | flagship | explicit.

Record ClassificationSignal := {
  name : jsstring;
  weight : float;
  matched : bool
}.

Record ClassificationResult := {
  intent : IntentComplexity;
  confidence : float;
  reason : jsstring;
  signals : list ClassificationSignal
}.

Definition rx (src : string) (fl : flags) (p : re) : RegExp :=
  {| source := str src; pattern := p; rflags := fl |}.

(** Patterns that indicate a trivial message. *)
Definition TRIVIAL_PATTERNS : list RegExp := [
  rx "^(hi|hey|hello|yo|sup|gm|gn|morning|night|thanks|thx|ty|ok|okay|k|yep|yup|nah|nope|lol|haha|lmao|brb|gtg|bye|cya)\s*[.!?]*$"
     flag_i
     (seq [Bol;
           Grp 1 (words ["hi"; "hey"; "hello"; "yo"; "sup"; "gm"; "gn";
                         "morning"; "night"; "thanks"; "thx"; "ty"; "ok";
                         "okay"; "k"; "yep"; "yup"; "nah"; "nope"; "lol";
                         "haha"; "lmao"; "brb"; "gtg"; "bye"; "cya"]%string);
           star ws; star (one_of ".!?"); Eol]);
  rx "^[\p{Emoji}\s]+$" flag_u
     (seq [Bol; plus (Cls [CEmoji; CSpace]); Eol]);
  (* thumbs up, thumbs down, heavy heart with its variation selector,
     fire, hundred points, check mark, folded hands, tears of joy,
     skull, thinking face *)
  {| source := str "^[" ++
         fromCodePoints [128077; 128078; 10084; 65039; 128293; 128175;
                         9989; 128591; 128514; 128128; 129300]
         ++ str "]+$";
     pattern :=
       seq [Bol;
            plus (Cls (map CChar
                    [128077; 128078; 10084; 65039; 128293; 128175;
                     9989; 128591; 128514; 128128; 129300]));
            Eol];
     rflags := flag_u |};
  rx "^(yes|no|y|n|sure|nah)\s*[.!?]*$" flag_i
     (seq [Bol; Grp 1 (words ["yes"; "no"; "y"; "n"; "sure"; "nah"]%string);
           star ws; star (one_of ".!?"); Eol])
].

(** Patterns indicating the user explicitly requested a model. *)
Definition EXPLICIT_MODEL_PATTERNS : list RegExp := [
  rx "^\/model\s+(opus|sonnet|haiku|gpt|gemini|qwen|llama)" flag_i
     (seq [Bol; lit "/model"; plus ws;
           Grp 1 (words ["opus"; "sonnet"; "haiku"; "gpt"; "gemini";
                         "qwen"; "llama"]%string)]);
  rx "\buse\s+(opus|sonnet|gpt-?4|claude)\b" flag_i
     (seq [WordB; lit "use"; plus ws;
           Grp 1 (alts [lit "opus"; lit "sonnet";
                        seq [lit "gpt"; opt (lit "-"); lit "4"];
                        lit "claude"]);
           WordB]);
  rx "\bswitch\s+to\s+(opus|sonnet|haiku)\b" flag_i
     (seq [WordB; lit "switch"; plus ws; lit "to"; plus ws;
           Grp 1 (words ["opus"; "sonnet"; "haiku"]%string); WordB])
].

(** Keywords/patterns indicating flagship-level complexity. *)
Definition FLAGSHIP_PATTERNS : list RegExp := [
  rx "\bmock\s+interview\b" flag_i
     (seq [WordB; lit "mock"; plus ws; lit "interview"; WordB]);
  rx "\bfull\s+system\s+design\b" flag_i
     (seq [WordB; lit "full"; plus ws; lit "system"; plus ws;
           lit "design"; WordB]);
  rx "\bdesign\s+.*\s+from\s+scratch\b" flag_i
     (seq [WordB; lit "design"; plus ws; star Dot; plus ws; lit "from";
           plus ws; lit "scratch"; WordB]);
  rx "\barchitect(?:ure)?\s+review\b" flag_i
     (seq [WordB; lit "architect"; opt (lit "ure"); plus ws;
           lit "review"; WordB]);
  rx "\bdeep\s+dive\b" flag_i
     (seq [WordB; lit "deep"; plus ws; lit "dive"; WordB]);
  rx "\bcomprehensive\s+analysis\b" flag_i
     (seq [WordB; lit "comprehensive"; plus ws; lit "analysis"; WordB]);
  rx "\bwrite\s+a\s+(?:full|complete)\s+(?:implementation|solution)\b"
     flag_i
     (seq [WordB; lit "write"; plus ws; lit "a"; plus ws;
           words ["full"; "complete"]%string; plus ws;
           words ["implementation"; "solution"]%string; WordB]);
  rx "\bexplain\s+.*\s+in\s+depth\b" flag_i
     (seq [WordB; lit "explain"; plus ws; star Dot; plus ws; lit "in";
           plus ws; lit "depth"; WordB]);
  rx "\bpaper\s+review\b" flag_i
     (seq [WordB; lit "paper"; plus ws; lit "review"; WordB]);
  rx "\bRFC\b" no_flags (seq [WordB; lit "RFC"; WordB])
].

(** Keywords/patterns indicating complex messages. *)
Definition COMPLEX_PATTERNS : list RegExp := [
  rx "\bsystem\s+design\b" flag_i
     (seq [WordB; lit "system"; plus ws; lit "design"; WordB]);
  rx "\bcode\s+review\b" flag_i
     (seq [WordB; lit "code"; plus ws; lit "review"; WordB]);
  rx "\brefactor\b" flag_i (seq [WordB; lit "refactor"; WordB]);
  rx "\bdebug\b" flag_i (seq [WordB; lit "debug"; WordB]);
  rx "\bimplement\b" flag_i (seq [WordB; lit "implement"; WordB]);
  rx "\boptimize\b" flag_i (seq [WordB; lit "optimize"; WordB]);
  rx "\btrade-?offs?\b" flag_i
     (seq [WordB; lit "trade"; opt (lit "-"); lit "off"; opt (lit "s");
           WordB]);
  rx "\bcompare\s+(?:and\s+)?contrast\b" flag_i
     (seq [WordB; lit "compare"; plus ws; opt (seq [lit "and"; plus ws]);
           lit "contrast"; WordB]);
  rx "\bpros?\s+(?:and\s+)?cons?\b" flag_i
     (seq [WordB; lit "pro"; opt (lit "s"); plus ws;
           opt (seq [lit "and"; plus ws]); lit "con"; opt (lit "s");
           WordB]);
  rx "\bstep\s+by\s+step\b" flag_i
     (seq [WordB; lit "step"; plus ws; lit "by"; plus ws; lit "step";
           WordB]);
  rx "\bexplain\s+(?:how|why|when)\b" flag_i
     (seq [WordB; lit "explain"; plus ws;
           words ["how"; "why"; "when"]%string; WordB]);
  rx "\bwhat\s+(?:would|should)\s+happen\s+if\b" flag_i
     (seq [WordB; lit "what"; plus ws; words ["would"; "should"]%string;
           plus ws; lit "happen"; plus ws; lit "if"; WordB]);
  (* code blocks over 50 chars *)
  rx "```[\s\S]{50,}```" no_flags
     (seq [lit "```"; at_least 50 (Cls [CSpace; CNotSpace]); lit "```"]);
  rx "\b(?:transformer|attention|backprop|gradient|loss\s+function|regularization)\b"
     flag_i
     (seq [WordB;
           alts [lit "transformer"; lit "attention"; lit "backprop";
                 lit "gradient"; seq [lit "loss"; plus ws; lit "function"];
                 lit "regularization"];
           WordB]);
  rx "\b(?:kubernetes|docker|microservice|distributed|consensus|CAP\s+theorem)\b"
     flag_i
     (seq [WordB;
           alts [lit "kubernetes"; lit "docker"; lit "microservice";
                 lit "distributed"; lit "consensus";
                 seq [lit "CAP"; plus ws; lit "theorem"]];
           WordB])
].

(** Keywords for simple messages. *)
Definition SIMPLE_PATTERNS : list RegExp := [
  rx "^what\s+(?:is|are|was|were)\s+\w+\s*\??$" flag_i
     (seq [Bol; lit "what"; plus ws;
           words ["is"; "are"; "was"; "were"]%string; plus ws;
           plus wordch; star ws; opt (lit "?"); Eol]);
  rx "^(?:define|definition\s+of)\s+\w+\s*\??$" flag_i
     (seq [Bol;
           alts [lit "define"; seq [lit "definition"; plus ws; lit "of"]];
           plus ws; plus wordch; star ws; opt (lit "?"); Eol]);
  rx "^how\s+(?:do|does)\s+\w+\s+work\s*\??$" flag_i
     (seq [Bol; lit "how"; plus ws; words ["do"; "does"]%string; plus ws;
           plus wordch; plus ws; lit "work"; star ws; opt (lit "?"); Eol]);
  rx "^what\s+time\b" flag_i
     (seq [Bol; lit "what"; plus ws; lit "time"; WordB]);
  rx "^what\s+day\b" flag_i
     (seq [Bol; lit "what"; plus ws; lit "day"; WordB]);
  rx "^when\s+is\b" flag_i
     (seq [Bol; lit "when"; plus ws; lit "is"; WordB]);
  rx "^(?:remind|reminder)\b" flag_i
     (seq [Bol; words ["remind"; "reminder"]%string; WordB]);
  rx "^(?:translate|convert)\s+" flag_i
     (seq [Bol; words ["translate"; "convert"]%string; plus ws])
].

(** The patterns written inline in [classifyIntent]. *)
Definition WHITESPACE_RUN : RegExp := rx "\s+" no_flags (plus ws).
Definition CODE_FENCE : RegExp := rx "```" no_flags (lit "```").
Definition QUESTION_MARK : RegExp := rx "\?" flag_g (lit "?").
Definition NUMBERED_ITEM : RegExp :=
  rx "^\s*\d+[.)]\s" flag_m
     (seq [Bol; star ws; plus digit; one_of ".)"; ws]).

Definition signal (n : jsstring) (w : float) (b : bool)
  : ClassificationSignal :=
  {| name := n; weight := w; matched := b |}.

Definition outcome (i : IntentComplexity) (c : float) (why : jsstring)
    (sigs : list ClassificationSignal) : ClassificationResult :=
  {| intent := i; confidence := c; reason := why; signals := sigs |}.

Section Classifier.
Variable U : Unicode.

(** [for (const pattern of ps) if (pattern.test(s)) ...return]. *)
Definition some_pattern_matches (ps : list RegExp) (s : jsstring) : bool :=
  existsb (fun p => test U p s) ps.

(** The loops over FLAGSHIP_PATTERNS and COMPLEX_PATTERNS: one signal per
    pattern, and the weight added to the score for each match. *)
Definition score_patterns (prefix : string) (w : float) (ps : list RegExp)
    (s : jsstring) (acc : list ClassificationSignal * float)
  : list ClassificationSignal * float :=
  fold_left
    (fun (st : list ClassificationSignal * float) p =>
       let m := test U p s in
       (fst st ++ [signal (str prefix ++ firstn 30 (source p)) w m],
        if m then (snd st + w)%float else snd st))
    ps acc.

(** A heuristic that pushes its signal and adds its weight when it
    fires. *)
Definition bump (fires : bool) (n : string) (w : float)
    (acc : list ClassificationSignal * float)
  : list ClassificationSignal * float :=
  if fires
  then (fst acc ++ [signal (str n) w true], (snd acc + w)%float)
  else acc.

Definition classifyIntent (message : jsstring) : ClassificationResult :=
  let trimmed := trim message in
  let signals : list ClassificationSignal := [] in
  (* Empty or near-empty messages *)
  if Nat.eqb (length trimmed) 0 then
    outcome trivial 1.0 (str "empty message") signals
  (* 1. Explicit model request *)
  else if some_pattern_matches EXPLICIT_MODEL_PATTERNS trimmed then
    outcome explicit 1.0 (str "explicit model request")
      (signals ++ [signal (str "explicit_model_request") 1.0 true])
  (* 2. Trivial patterns *)
  else if some_pattern_matches TRIVIAL_PATTERNS trimmed then
    outcome trivial 0.95 (str "trivial pattern match")
      (signals ++ [signal (str "trivial_pattern") 1.0 true])
  (* Very short messages (< 10 chars, not a question) *)
  else if Nat.ltb (length trimmed) 10
          && negb (includes trimmed (str "?")) then
    outcome trivial 0.8 (str "very short non-question")
      (signals ++ [signal (str "very_short") 0.8 true])
  else
  (* 3. Flagship patterns *)
  let fs := score_patterns "flagship:" 0.4 FLAGSHIP_PATTERNS trimmed
              (signals, 0%float) in
  let signals := fst fs in
  let flagshipScore := snd fs in
  if PrimFloat.leb 0.4 flagshipScore then
    outcome flagship (Math_min 0.95 (0.6 + flagshipScore))
      (str "flagship keyword match") signals
  else
  (* 4. Complex patterns *)
  let cs := score_patterns "complex:" 0.25 COMPLEX_PATTERNS trimmed
              (signals, 0%float) in
  (* Length-based complexity signals *)
  let wordCount := length (split U WHITESPACE_RUN trimmed) in
  let hasCodeBlock := test U CODE_FENCE trimmed in
  let hasMultipleQuestions :=
    Nat.leb 2 (length (match match_all U QUESTION_MARK trimmed with
                       | Some ms => ms
                       | None => []
                       end)) in
  let hasNumberedList := test U NUMBERED_ITEM trimmed in
  let cs :=
    if Nat.ltb 100 wordCount then bump true "long_message" 0.3 cs
    else if Nat.ltb 50 wordCount then bump true "medium_message" 0.15 cs
    else cs in
  let cs := bump hasCodeBlock "code_block" 0.3 cs in
  let cs := bump hasMultipleQuestions "multiple_questions" 0.2 cs in
  let cs := bump hasNumberedList "numbered_list" 0.15 cs in
  let signals := fst cs in
  let complexScore := snd cs in
  if PrimFloat.leb 0.5 complexScore then
    outcome complex (Math_min 0.9 (0.5 + complexScore * 0.4))
      (str "complex signal accumulation") signals
  (* 5. Simple patterns *)
  else if some_pattern_matches SIMPLE_PATTERNS trimmed then
    outcome simple 0.8 (str "simple pattern match")
      (signals ++ [signal (str "simple_pattern") 0.7 true])
  (* Short-ish messages without complexity signals *)
  else if Nat.leb wordCount 15 && PrimFloat.ltb complexScore 0.25 then
    outcome simple 0.7 (str "short message without complexity")
      (signals ++ [signal (str "short_no_complexity") 0.6 true])
  (* 6. Default to standard *)
  else
    outcome standard 0.6
      (str "no strong signal " ++ [8212] ++ str " default to standard")
      signals.

End Classifier.

End IntentClassifier.

(* ------------------------------------------------------------------ *)
(** ** model-tiers.ts                                                  *)
(* ------------------------------------------------------------------ *)

Module ModelTiers.

Import IntentClassifier.

Inductive ModelTierId := t0 | t1 | t2 | t3 | t4.

Definition tier_eqb (a b : ModelTierId) : bool :=
  match a, b with
  | t0, t0 | t1, t1 | t2, t2 | t3, t3 | t4, t4 => true
  | _, _ => false
  end.

Record ModelRef := { provider : jsstring; model : jsstring }.

Record TierCapabilities := {
  instructionFollowing : float;
  reasoning : float;
  coding : float;
  longFormGeneration : float;
  knowledge : float;
  contextUtilization : float
}.

Inductive Latency := instant | fast | moderate | slow.

Record TierDefinition := {
  id : ModelTierId;
  name : jsstring;
  description : jsstring;
  capabilities : TierCapabilities;
  costPer1kInput : float;
  latency : Latency;
  requiresNetwork : bool
}.

Definition caps (a b c d e f : float) : TierCapabilities :=
  {| instructionFollowing := a; reasoning := b; coding := c;
     longFormGeneration := d; knowledge := e; contextUtilization := f |}.

Definition TIER_DEFINITIONS (tier : ModelTierId) : TierDefinition :=
  match tier with
  | t0 => {| id := t0; name := str "No Model";
             description :=
               str "Canned responses, lookups, regex " ++ [8212]
               ++ str " no LLM invocation needed.";
             capabilities := caps 0 0 0 0 0 0;
             costPer1kInput := 0; latency := instant;
             requiresNetwork := false |}
  | t1 => {| id := t1; name := str "Local Small";
             description :=
               str "Local model for simple generation, short replies, and scheduled reminders.";
             capabilities := caps 0.5 0.3 0.2 0.3 0.4 0.3;
             costPer1kInput := 0; latency := slow;
             requiresNetwork := false |}
  | t2 => {| id := t2; name := str "Cloud Fast";
             description :=
               str "Cloud model for conversation, instruction following, and moderate reasoning.";
             capabilities := caps 0.85 0.7 0.7 0.75 0.8 0.8;
             costPer1kInput := 0.003; latency := fast;
             requiresNetwork := true |}
  | t3 => {| id := t3; name := str "Cloud Smart";
             description :=
               str "Cloud model for system design, multi-step reasoning, and code review.";
             capabilities := caps 0.95 0.9 0.9 0.9 0.9 0.9;
             costPer1kInput := 0.015; latency := moderate;
             requiresNetwork := true |}
  | t4 => {| id := t4; name := str "Cloud Best";
             description :=
               str "Premium cloud model for mock interviews, deep analysis, and novel problems.";
             capabilities := caps 1.0 1.0 1.0 1.0 1.0 1.0;
             costPer1kInput := 0.015; latency := moderate;
             requiresNetwork := true |}
  end.

(** Get the definition for a tier. *)
Definition getTierDefinition (tier : ModelTierId) : TierDefinition :=
  TIER_DEFINITIONS tier.

(** Ordered tier IDs from cheapest to most capable. *)
Definition TIER_ORDER : list ModelTierId := [t0; t1; t2; t3; t4].

(** Get all tier definitions ordered T0 to T4. *)
Definition getAllTierDefinitions : list TierDefinition :=
  map (fun id => TIER_DEFINITIONS id) TIER_ORDER.

(** Default mapping from intent complexity to minimum required tier. *)
Definition INTENT_TO_MIN_TIER (intent : IntentComplexity) : ModelTierId :=
  match intent with
  | trivial => t0
  | simple => t1
  | standard => t2
  | complex => t3
  | flagship => t4
  | explicit => t4
  end.

Definition resolveMinTierForIntent (intent : IntentComplexity)
  : ModelTierId := INTENT_TO_MIN_TIER intent.

(** Default model refs per tier. *)
Definition DEFAULT_TIER_MODELS (tier : ModelTierId) : option ModelRef :=
  match tier with
  | t0 => None
  | t1 => Some {| provider := str "ollama"; model := str "qwen2.5:7b" |}
  | t2 => Some {| provider := str "anthropic";
                  model := str "claude-sonnet-4-5" |}
  | t3 => Some {| provider := str "anthropic";
                  model := str "claude-sonnet-4-5" |}
  | t4 => Some {| provider := str "anthropic";
                  model := str "claude-opus-4-5" |}
  end.

(** Get the default model ref for a tier. Returns null for T0. *)
Definition getDefaultTierModel (tier : ModelTierId) : option ModelRef :=
  DEFAULT_TIER_MODELS tier.

(** [Array.prototype.indexOf]: the first index, or -1. *)
Fixpoint indexOf_from (l : list ModelTierId) (x : ModelTierId) (i : Z) : Z :=
  match l with
  | [] => -1
  | y :: l' => if tier_eqb y x then i else indexOf_from l' x (i + 1)
  end.

(** [array[i]]: [None] is the [undefined] of an index out of range. *)
Definition at_index (l : list ModelTierId) (i : Z) : option ModelTierId :=
  if i <? 0 then None else nth_error l (Z.to_nat i).

(** Numeric index for tier comparison (t0=0, t4=4). *)
Definition tierIndex (tier : ModelTierId) : Z :=
  indexOf_from TIER_ORDER tier 0.

(** Returns true if [a] is a higher (more capable) tier than [b]. *)
Definition isHigherTier (a b : ModelTierId) : bool :=
  tierIndex b <? tierIndex a.

(** Returns the higher of two tiers. *)
Definition maxTier (a b : ModelTierId) : ModelTierId :=
  if tierIndex b <=? tierIndex a then a else b.

(** Clamp a tier to a maximum (for budget downgrade). *)
Definition clampTier (tier maxAllowed : ModelTierId) : ModelTierId :=
  if tierIndex tier <=? tierIndex maxAllowed then tier else maxAllowed.

End ModelTiers.

(* ------------------------------------------------------------------ *)
(** ** prompt-adapter.ts                                               *)
(* ------------------------------------------------------------------ *)

Module PromptAdapter.

Import ModelTiers.

Record AdaptedPrompt := {
  systemPrompt : option jsstring;
  userPreamble : option jsstring;
  tier : ModelTierId;
  wasAdapted : bool
}.

(** Known system prompt section headers to strip for small models. *)
Definition STRIPPABLE_SECTION_HEADERS : list jsstring :=
  map str [
    "tools";
    "available tools";
    "tool usage";
    "memory";
    "workspace files";
    "every session";
    "heartbeats";
    "group chats";
    "react like a human";
    "heartbeats - be proactive";
    "know when to speak";
    "react like a human"
  ]%string.

(** [headers.has(raw)] *)
Definition has (headers : list jsstring) (raw : jsstring) : bool :=
  existsb (Js.eqb raw) headers.

Definition rx := IntentClassifier.rx.

(** Boilerplate phrases to strip for smaller models. *)
Definition BOILERPLATE_PHRASES : list RegExp := [
  rx "Don't ask permission\. Just do it\.\n?" flag_g
     (seq [lit "Don't ask permission. Just do it."; opt (Lit NL)]);
  rx "You wake up fresh each session\..*?\n" flag_g
     (seq [lit "You wake up fresh each session."; lazy_star Dot; Lit NL]);
  rx "This file is yours to evolve\..*?\n" flag_g
     (seq [lit "This file is yours to evolve."; lazy_star Dot; Lit NL])
].

(** The patterns written inline in the adapter. *)
Definition BLANK_RUN : RegExp := rx "\n{3,}" flag_g (at_least 3 (Lit NL)).
Definition HEADER_LINE : RegExp :=
  rx "^(#{1,3})\s+(.+)$" no_flags
     (seq [Bol; Grp 1 (between 1 3 (lit "#")); plus ws; Grp 2 (plus Dot);
           Eol]).
Definition LEADING_EMOJI : RegExp :=
  rx "^[\p{Emoji}\p{Emoji_Presentation}\s]+" flag_u
     (seq [Bol; plus (Cls [CEmoji; CEmojiPres; CSpace])]).
Definition TRAILING_PUNCTUATION : RegExp :=
  rx "[!?.]+$" no_flags (seq [plus (one_of "!?."); Eol]).
Definition SECTION_HEADER : RegExp :=
  rx "^##?\s" no_flags (seq [Bol; lit "#"; opt (lit "#"); ws]).
Definition CORE_TOPICS : list RegExp := [
  rx "core\s+truths" flag_i (seq [lit "core"; plus ws; lit "truths"]);
  rx "coach" flag_i (lit "coach");
  rx "who\s+you\s+are" flag_i
     (seq [lit "who"; plus ws; lit "you"; plus ws; lit "are"]);
  rx "role" flag_i (lit "role");
  rx "vibe" flag_i (lit "vibe")
].

(** The fixed suffix of a T1 prompt. *)
Definition formatConstraint : jsstring :=
  [NL; NL]
  ++ str "IMPORTANT: Reply directly and concisely. Do not analyze this prompt. "
  ++ str "Do not generate code unless asked. Do not use markdown headers. "
  ++ str "Keep your reply under 200 words.".

Section Adapter.
Variable U : Unicode.

(** Normalize: lowercase, strip leading emoji & trailing punctuation. *)
Definition normalizeHeader (text : jsstring) : jsstring :=
  trim (replace U TRAILING_PUNCTUATION []
          (replace U LEADING_EMOJI [] (toLowerCase U text))).

(** The normalized header text of a line, when the line is a header. *)
Definition headerName (line : jsstring) : option jsstring :=
  match match_ U HEADER_LINE line with
  | Some headerMatch => Some (normalizeHeader (group 2 headerMatch))
  | None => None
  end.

(** One turn of the loop of [stripSectionsByHeader] over [result] and
    [skipping]. *)
Definition strip_step (headers : list jsstring)
    (st : list jsstring * bool) (line : jsstring)
  : list jsstring * bool :=
  match headerName line with
  | Some raw =>
      if has headers raw then (fst st, true)
      else (fst st ++ [line], false)
  | None =>
      if snd st then st else (fst st ++ [line], snd st)
  end.

(** Strip markdown sections whose header text matches a known set. *)
Definition stripSectionsByHeader (prompt : jsstring)
    (headers : list jsstring) : jsstring :=
  let lines := split_nl prompt in
  join_nl (fst (fold_left (strip_step headers) lines ([], false))).

Definition isCoreTopic (line : jsstring) : bool :=
  existsb (fun p => test U p line) CORE_TOPICS.

(** One turn of the loop of [extractCorePersona] over [result],
    [inKeepSection] and [sectionCount]. *)
Definition persona_step (st : list jsstring * bool * nat)
    (line : jsstring) : list jsstring * bool * nat :=
  let '(result, inKeepSection, sectionCount) := st in
  let isHeader := test U SECTION_HEADER line in
  let sectionCount := if isHeader then S sectionCount else sectionCount in
  let inKeepSection :=
    if isHeader then Nat.leb sectionCount 1 || isCoreTopic line
    else inKeepSection in
  (if inKeepSection then result ++ [line] else result,
   inKeepSection, sectionCount).

(** Extract the core persona from a system prompt. *)
Definition extractCorePersona (prompt : jsstring) : jsstring :=
  let lines := split_nl prompt in
  trim (join_nl (fst (fst (fold_left persona_step lines ([], true, 0%nat))))).

Definition stripBoilerplate (s : jsstring) : jsstring :=
  fold_left (fun adapted p => replace U p [] adapted) BOILERPLATE_PHRASES s.

(** T1: Aggressive simplification for small local models. *)
Definition adaptForT1 (systemPrompt : jsstring) : AdaptedPrompt :=
  let adapted := stripSectionsByHeader systemPrompt
                   STRIPPABLE_SECTION_HEADERS in
  let adapted := stripBoilerplate adapted in
  let adapted := replace U BLANK_RUN [NL; NL] adapted in
  let adapted :=
    if Nat.ltb 3200 (length adapted) then extractCorePersona adapted
    else adapted in
  let adapted := trimEnd adapted ++ formatConstraint in
  {| systemPrompt := Some adapted; userPreamble := None; tier := t1;
     wasAdapted := true |}.

(** T2: Light compression. *)
Definition adaptForT2 (systemPrompt : jsstring) : AdaptedPrompt :=
  let adapted := stripBoilerplate systemPrompt in
  let adapted := replace U BLANK_RUN [NL; NL] adapted in
  let wasAdapted := negb (Js.eqb adapted systemPrompt) in
  {| systemPrompt := Some adapted; userPreamble := None; tier := t2;
     wasAdapted := wasAdapted |}.

(** T4: Full prompt + reasoning preamble for premium models. *)
Definition adaptForT4 (systemPrompt : jsstring) : AdaptedPrompt :=
  {| systemPrompt := Some systemPrompt;
     userPreamble :=
       Some (str "Think carefully and thoroughly before responding. "
             ++ str "Consider multiple perspectives and trade-offs.");
     tier := t4; wasAdapted := true |}.

(** Adapt a system prompt for the target model tier. *)
Definition adaptPromptForTier (systemPrompt : jsstring)
    (tier : ModelTierId) : AdaptedPrompt :=
  match tier with
  | t0 => {| systemPrompt := None; userPreamble := None; tier := tier;
             wasAdapted := true |}
  | t1 => adaptForT1 systemPrompt
  | t2 => adaptForT2 systemPrompt
  | t4 => adaptForT4 systemPrompt
  | t3 => {| systemPrompt := Some systemPrompt; userPreamble := None;
             tier := t3; wasAdapted := false |}
  end.

End Adapter.

End PromptAdapter.

(* ------------------------------------------------------------------ *)
(** ** types.intelligent-routing.ts and the host configuration         *)
(* ------------------------------------------------------------------ *)

Module Config.

Import ModelTiers.

(** User preference for cost vs quality tradeoff. *)
Inductive RoutingBias := cost | balanced | quality.

(** Per-tier model assignment in config. *)
Record TierModelConfig := {
  model : jsstring;
  maxTokens : option float
}.

(** The spend totals the caller supplies ([budget.currentSpend]). *)
Record CurrentSpend := {
  dailyUsd : option float;
  monthlyUsd : option float
}.

(** Budget constraints for routing decisions.  An optional field that is
    [undefined] or [null] is [None]. *)
Record RoutingBudgetConfig := {
  dailyCapUsd : option float;
  monthlyCapUsd : option float;
  preferFree : option bool;
  currentSpend : option CurrentSpend
}.

(** Top-level intelligent routing configuration. *)
Record IntelligentRoutingConfig := {
  enabled : option bool;
  bias : option RoutingBias;
  tiers : option (ModelTierId -> option TierModelConfig);
  budget : option RoutingBudgetConfig;
  analytics : option bool;
  analyticsPath : option jsstring
}.

(** [cfg.agents?.defaults?.model]: a model ref string or an object with
    an optional [primary]. *)
Inductive AgentModel :=
| ModelString (s : jsstring)
| ModelObject (primary : option jsstring).

(** The two paths of the host configuration that the router reads:
    [cfg.agents?.defaults?.model] and [cfg.models?.providers], the
    latter as the provider entries with their [baseUrl] when they have
    one. *)
Record MoltbotConfig := {
  agents_defaults_model : option AgentModel;
  models_providers : list (jsstring * option jsstring)
}.

End Config.

(* ------------------------------------------------------------------ *)
(** ** routing-analytics.ts: the events                                *)
(* ------------------------------------------------------------------ *)

Module RoutingAnalytics.

Import IntentClassifier ModelTiers.

Inductive EventKind :=
| route | complete | fallback | budget_downgrade | override.

Record RoutingAnalyticsEvent := {
  ts : jsstring;
  event : EventKind;
  intent : IntentComplexity;
  confidence : float;
  tier : ModelTierId;
  originalTier : option ModelTierId;
  provider : jsstring;
  model : jsstring;
  endpoint : option jsstring;
  sessionId : option jsstring;
  channel : option jsstring;
  messageLength : nat;
  latencyMs : option float;
  responseSize : option float;
  estimatedCostUsd : option float;
  classifierReason : option jsstring;
  promptAdapted : bool
}.

(** A logger, as the router sees it: its [enabled] flag.  What [record]
    does with an event is the logger's business; the router's effect is
    the list of events it hands over. *)
Record RoutingAnalyticsLogger := { enabled : bool }.

End RoutingAnalytics.

(* ------------------------------------------------------------------ *)
(** ** intelligent-router.ts                                           *)
(* ------------------------------------------------------------------ *)

Module Router.

Import IntentClassifier ModelTiers PromptAdapter Config.

Record RoutingDecision := {
  model : ModelRef;
  tier : ModelTierId;
  originalTier : ModelTierId;
  classification : ClassificationResult;
  adaptedPrompt : AdaptedPrompt;
  bypassed : bool;
  bypassReason : option jsstring
}.

Record RouterParams := {
  message : jsstring;
  systemPrompt : jsstring;
  cfg : MoltbotConfig;
  routingConfig : IntelligentRoutingConfig;
  sessionModelOverride : option ModelRef;
  channel : option jsstring;
  sessionId : option jsstring;
  analytics : option RoutingAnalytics.RoutingAnalyticsLogger
}.

(** Apply routing bias to shift the tier up or down.  The result is what
    the array read gives: [None] would be the [undefined] of an index
    out of range. *)
Definition applyBias (tier : ModelTierId) (bias : RoutingBias)
  : option ModelTierId :=
  match bias with
  | balanced => Some tier
  | cost =>
      let idx := tierIndex tier in
      if idx <=? 1 then Some tier else at_index TIER_ORDER (idx - 1)
  | quality =>
      let idx := tierIndex tier in
      if 4 <=? idx then Some tier else at_index TIER_ORDER (idx + 1)
  end.

(** [a != null && b != null && b >= a] on optional numbers. *)
Definition cap_reached (cap spend : option float) : bool :=
  match cap, spend with
  | Some c, Some s => PrimFloat.leb c s
  | _, _ => false
  end.

(** [budget.currentSpend?.dailyUsd] and [budget.currentSpend?.monthlyUsd] *)
Definition spend_daily (budget : RoutingBudgetConfig) : option float :=
  match currentSpend budget with
  | Some cs => dailyUsd cs
  | None => None
  end.

Definition spend_monthly (budget : RoutingBudgetConfig) : option float :=
  match currentSpend budget with
  | Some cs => monthlyUsd cs
  | None => None
  end.

(** Apply budget constraints: downgrade tier if spending limits are
    hit. *)
Definition applyBudgetConstraints (tier : ModelTierId)
    (routingConfig : IntelligentRoutingConfig) : ModelTierId :=
  match budget routingConfig with
  | None => tier
  | Some budget =>
      if match preferFree budget with Some b => b | None => false end
      then clampTier tier t1
      else if cap_reached (dailyCapUsd budget) (spend_daily budget)
      then clampTier tier t1
      else if cap_reached (monthlyCapUsd budget) (spend_monthly budget)
      then clampTier tier t1
      else tier
  end.

Section WithModelSelection.

(** [parseModelRef] of model-selection.ts and [DEFAULT_PROVIDER] of
    defaults.ts are imported by the router and are not part of the
    sources at hand: they are parameters.  [parseModelRef] returns
    [null] on a string it cannot parse. *)
Variable parseModelRef : jsstring -> jsstring -> option ModelRef.
Variable DEFAULT_PROVIDER : jsstring.

(** [routingConfig.tiers?.[tier]?.model], when it is a truthy string. *)
Definition tierOverride (tier : ModelTierId)
    (routingConfig : IntelligentRoutingConfig) : option jsstring :=
  match tiers routingConfig with
  | Some ts =>
      match ts tier with
      | Some tierConfig =>
          match Config.model tierConfig with
          | [] => None
          | s => Some s
          end
      | None => None
      end
  | None => None
  end.

Definition FALLBACK_MODEL : ModelRef :=
  {| provider := DEFAULT_PROVIDER; ModelTiers.model := str "claude-sonnet-4-5" |}.

(** Resolve a concrete model ref for a tier, checking config overrides
    first, then falling back to built-in defaults. *)
Definition resolveModelForTier (tier : ModelTierId)
    (routingConfig : IntelligentRoutingConfig) (cfg : MoltbotConfig)
  : ModelRef :=
  (* Check config override for this tier *)
  match match tierOverride tier routingConfig with
        | Some s => parseModelRef s DEFAULT_PROVIDER
        | None => None
        end with
  | Some parsed => parsed
  | None =>
  (* Fall back to built-in default *)
  match getDefaultTierModel tier with
  | Some defaultModel => defaultModel
  | None =>
  (* Ultimate fallback: global configured model *)
  match match agents_defaults_model cfg with
        | Some (ModelString globalPrimary) =>
            parseModelRef globalPrimary DEFAULT_PROVIDER
        | Some (ModelObject (Some (c :: rest))) =>
            parseModelRef (c :: rest) DEFAULT_PROVIDER
        | _ => None
        end with
  | Some parsed => parsed
  | None => FALLBACK_MODEL
  end end end.

(** Resolve the API endpoint for a provider from the config. *)
Definition resolveEndpoint (provider : jsstring) (cfg : MoltbotConfig)
  : option jsstring :=
  match find (fun e => Js.eqb (fst e) provider) (models_providers cfg) with
  | Some (_, Some baseUrl) => Some baseUrl
  | _ =>
      if Js.eqb provider (str "anthropic")
      then Some (str "https://api.anthropic.com")
      else if Js.eqb provider (str "openai")
      then Some (str "https://api.openai.com")
      else None
  end.

(** Record an analytics event if the logger is available: the events
    handed to [params.analytics.record].  [now] is the value of
    [new Date().toISOString()]. *)
Definition recordAnalytics (now : jsstring) (params : RouterParams)
    (decision : RoutingDecision)
  : list RoutingAnalytics.RoutingAnalyticsEvent :=
  match analytics params with
  | Some {| RoutingAnalytics.enabled := true |} =>
      let tierDef := getTierDefinition (tier decision) in
      let estimatedCostUsd :=
        if PrimFloat.ltb 0 (costPer1kInput tierDef)
        then Some (costPer1kInput tierDef * 0.5)%float else None in
      let changed := negb (tier_eqb (tier decision) (originalTier decision)) in
      [ {| RoutingAnalytics.ts := now;
           RoutingAnalytics.event :=
             if bypassed decision then RoutingAnalytics.override
             else if changed then RoutingAnalytics.budget_downgrade
             else RoutingAnalytics.route;
           RoutingAnalytics.intent := intent (classification decision);
           RoutingAnalytics.confidence :=
             confidence (classification decision);
           RoutingAnalytics.tier := tier decision;
           RoutingAnalytics.originalTier :=
             if changed then Some (originalTier decision) else None;
           RoutingAnalytics.provider := provider (model decision);
           RoutingAnalytics.model := ModelTiers.model (model decision);
           RoutingAnalytics.endpoint :=
             resolveEndpoint (provider (model decision)) (cfg params);
           RoutingAnalytics.sessionId := sessionId params;
           RoutingAnalytics.channel := channel params;
           RoutingAnalytics.messageLength := length (message params);
           RoutingAnalytics.latencyMs := None;
           RoutingAnalytics.responseSize := None;
           RoutingAnalytics.estimatedCostUsd := estimatedCostUsd;
           RoutingAnalytics.classifierReason :=
             Some (reason (classification decision));
           RoutingAnalytics.promptAdapted :=
             wasAdapted (adaptedPrompt decision) |} ]
  | _ => []
  end.

(** Record a completion event with latency after the model call
    finishes: the events handed to [params.analytics.record].  The
    arguments are the fields of the parameter object. *)
Definition recordRoutingCompletion (now : jsstring)
    (analytics : option RoutingAnalytics.RoutingAnalyticsLogger)
    (decision : RoutingDecision) (latencyMs : float)
    (responseSize : option float) (cfg : MoltbotConfig)
  : list RoutingAnalytics.RoutingAnalyticsEvent :=
  match analytics with
  | Some {| RoutingAnalytics.enabled := true |} =>
      [ {| RoutingAnalytics.ts := now;
           RoutingAnalytics.event := RoutingAnalytics.complete;
           RoutingAnalytics.intent := intent (classification decision);
           RoutingAnalytics.confidence :=
             confidence (classification decision);
           RoutingAnalytics.tier := tier decision;
           RoutingAnalytics.originalTier := None;
           RoutingAnalytics.provider := provider (model decision);
           RoutingAnalytics.model := ModelTiers.model (model decision);
           RoutingAnalytics.endpoint :=
             resolveEndpoint (provider (model decision)) cfg;
           RoutingAnalytics.sessionId := None;
           RoutingAnalytics.channel := None;
           RoutingAnalytics.messageLength := 0;
           RoutingAnalytics.latencyMs := Some latencyMs;
           RoutingAnalytics.responseSize := responseSize;
           RoutingAnalytics.estimatedCostUsd := None;
           RoutingAnalytics.classifierReason := None;
           RoutingAnalytics.promptAdapted :=
             wasAdapted (adaptedPrompt decision) |} ]
  | _ => []
  end.

Variable U : Unicode.

(** Route an inbound message to the appropriate model and adapted
    prompt.  The result pairs the decision with the analytics events
    emitted; [None] stands for a run in which [applyBias] read
    [undefined] from TIER_ORDER. *)
Definition routeMessage (now : jsstring) (params : RouterParams)
  : option (RoutingDecision * list RoutingAnalytics.RoutingAnalyticsEvent) :=
  match sessionModelOverride params with
  | Some override =>
      (* Bypass: session-level model override *)
      let adaptedPrompt := adaptPromptForTier U (systemPrompt params) t3 in
      let classification := classifyIntent U (message params) in
      let decision :=
        {| model := override; tier := t3; originalTier := t3;
           classification := classification;
           adaptedPrompt := adaptedPrompt; bypassed := true;
           bypassReason := Some (str "session model override") |} in
      Some (decision, recordAnalytics now params decision)
  | None =>
      (* Step 1: Classify intent *)
      let classification := classifyIntent U (message params) in
      match intent classification with
      | explicit =>
          (* Bypass: explicit model request in message *)
          let defaultModel :=
            resolveModelForTier t3 (routingConfig params) (cfg params) in
          let adaptedPrompt :=
            adaptPromptForTier U (systemPrompt params) t3 in
          let decision :=
            {| model := defaultModel; tier := t3; originalTier := t3;
               classification := classification;
               adaptedPrompt := adaptedPrompt; bypassed := true;
               bypassReason :=
                 Some (str "explicit model request in message") |} in
          Some (decision, recordAnalytics now params decision)
      | i =>
          (* Step 2: Map intent to minimum tier *)
          let minTier := resolveMinTierForIntent i in
          (* Step 3: Apply bias adjustment *)
          match applyBias minTier
                  (match bias (routingConfig params) with
                   | Some b => b
                   | None => balanced
                   end) with
          | None => None
          | Some biasedTier =>
              (* Step 4: Apply budget constraints *)
              let budgetTier :=
                applyBudgetConstraints biasedTier (routingConfig params) in
              (* Step 5: Resolve tier to model *)
              let model :=
                resolveModelForTier budgetTier (routingConfig params)
                  (cfg params) in
              (* Step 6: Adapt prompt *)
              let adaptedPrompt :=
                adaptPromptForTier U (systemPrompt params) budgetTier in
              let decision :=
                {| model := model; tier := budgetTier;
                   originalTier := minTier;
                   classification := classification;
                   adaptedPrompt := adaptedPrompt; bypassed := false;
                   bypassReason := None |} in
              (* Step 7: Analytics *)
              Some (decision, recordAnalytics now params decision)
          end
      end
  end.

End WithModelSelection.

End Router.

(* ------------------------------------------------------------------ *)
(** ** routing-analytics.ts: the writers and the logger                *)
(* ------------------------------------------------------------------ *)

Module AnalyticsLog.

Import RoutingAnalytics.

(** A logger made by [createRoutingAnalyticsLogger]: its [enabled] is
    [true] and its [record] writes to the writer of [filePath]. *)
Record Logger := { filePath : jsstring }.

(** The logger as the router sees it. *)
Definition as_router_logger (l : Logger) : RoutingAnalyticsLogger :=
  {| enabled := true |}.

(** The module-level [writers] map, as its keys in insertion order: a
    writer is determined by its [filePath]. *)
Definition Writers := list jsstring.

(** What is handed to [writer.write]: the path of the writer and the
    event whose JSON text is the line.  The file system is not part of
    the model. *)
Definition WriteRequest := (jsstring * RoutingAnalyticsEvent)%type.

(** [getWriter]: the writer of the path and the map afterwards. *)
Definition getWriter (filePath : jsstring) (writers : Writers)
  : jsstring * Writers :=
  if existsb (Js.eqb filePath) writers then (filePath, writers)
  else (filePath, writers ++ [filePath]).

Section WithStateDir.

(** [process.env], [resolveStateDir] of config/paths.ts and [path.join]
    belong to the platform: they are parameters. *)
Variable Env : Type.
Variable process_env : Env.
Variable resolveStateDir : Env -> jsstring.
Variable path_join : list jsstring -> jsstring.

(** Create a routing analytics logger.  Returns null if analytics is
    disabled. *)
Definition createRoutingAnalyticsLogger (enabled : bool)
    (analyticsPath : option jsstring) (env : option Env)
    (writers : Writers) : option Logger * Writers :=
  if negb enabled then (None, writers)
  else
    let env := match env with Some e => e | None => process_env end in
    let filePath :=
      match analyticsPath with
      | Some p => p
      | None => path_join [resolveStateDir env; str "logs";
                           str "routing-analytics.jsonl"]
      end in
    let (writer, writers') := getWriter filePath writers in
    (Some {| filePath := writer |}, writers').

End WithStateDir.

(** [logger.record(event)]: one write request to the logger's writer. *)
Definition record (l : Logger) (event : RoutingAnalyticsEvent)
  : WriteRequest := (filePath l, event).

End AnalyticsLog.

(* ------------------------------------------------------------------ *)
(** ** resolve-model-intelligent.ts                                    *)
(* ------------------------------------------------------------------ *)

Module ModelIntelligent.

Import ModelTiers PromptAdapter Config AnalyticsLog.

(** The host configuration as the hook reads it: the paths the router
    reads, and [cfg.intelligentRouting]. *)
Record HostConfig := {
  host : MoltbotConfig;
  intelligentRouting : option IntelligentRoutingConfig
}.

Record IntelligentRoutingResult := {
  decision : Router.RoutingDecision;
  useAdaptedPrompt : bool;
  analytics : option Logger
}.

(** The state of the two modules: the [analyticsLogger] singleton, the
    [writers] map of routing-analytics.ts, and the write requests made
    so far, oldest first. *)
Record State := {
  analyticsLogger : option Logger;
  writers : Writers;
  written : list WriteRequest
}.

(** Extract the intelligent routing config from the main config. *)
Definition resolveRoutingConfig (cfg : HostConfig)
  : option IntelligentRoutingConfig := intelligentRouting cfg.

Section WithPlatform.

Variable Env : Type.
Variable process_env : Env.
Variable resolveStateDir : Env -> jsstring.
Variable path_join : list jsstring -> jsstring.
Variable parseModelRef : jsstring -> jsstring -> option ModelRef.
Variable DEFAULT_PROVIDER : jsstring.
Variable U : Unicode.

Record Params := {
  cfg : HostConfig;
  message : jsstring;
  systemPrompt : jsstring;
  sessionModelOverride : option ModelRef;
  channel : option jsstring;
  sessionId : option jsstring;
  env : option Env
}.

Definition getOrCreateAnalyticsLogger
    (routingConfig : IntelligentRoutingConfig) (env : option Env)
    (st : State) : option Logger * State :=
  match analyticsLogger st with
  | Some l => (Some l, st)
  | None =>
      let (l, ws) :=
        createRoutingAnalyticsLogger process_env resolveStateDir path_join
          (match Config.analytics routingConfig with
           | Some b => b
           | None => false
           end)
          (analyticsPath routingConfig) env (writers st) in
      (l, {| analyticsLogger := l; writers := ws; written := written st |})
  end.

(** Resolve model via intelligent routing, if enabled.  The result
    pairs what the call returns ([None] is [null]) with the state
    afterwards; the outer [None] stands for a run in which the router
    read [undefined] from TIER_ORDER. *)
Definition resolveModelIntelligent (now : jsstring) (params : Params)
    (st : State) : option (option IntelligentRoutingResult * State) :=
  match resolveRoutingConfig (cfg params) with
  | Some routingConfig =>
      match enabled routingConfig with
      | Some true =>
          let (analytics, st1) :=
            getOrCreateAnalyticsLogger routingConfig (env params) st in
          match Router.routeMessage parseModelRef DEFAULT_PROVIDER U now
                  {| Router.message := message params;
                     Router.systemPrompt := systemPrompt params;
                     Router.cfg := host (cfg params);
                     Router.routingConfig := routingConfig;
                     Router.sessionModelOverride :=
                       sessionModelOverride params;
                     Router.channel := channel params;
                     Router.sessionId := sessionId params;
                     Router.analytics :=
                       option_map as_router_logger analytics |} with
          | Some (decision, events) =>
              let requests :=
                match analytics with
                | Some l => map (record l) events
                | None => []
                end in
              Some (Some {| decision := decision;
                            useAdaptedPrompt :=
                              wasAdapted (Router.adaptedPrompt decision);
                            analytics := analytics |},
                    {| analyticsLogger := analyticsLogger st1;
                       writers := writers st1;
                       written := written st1 ++ requests |})
          | None => None
          end
      | _ => Some (None, st)
      end
  | None => Some (None, st)
  end.

End WithPlatform.

End ModelIntelligent.

(* ------------------------------------------------------------------ *)
(** ** Definitions used to state the properties                        *)
(* ------------------------------------------------------------------ *)

Module Props.

Import IntentClassifier ModelTiers PromptAdapter Config Router.

(** *** Budget rules, in the words of the specification *)

(** [budget.preferFree] is set. *)
Definition prefersFree (b : RoutingBudgetConfig) : Prop :=
  preferFree b = Some true.

(** [dailyCapUsd] is set, [currentSpend.dailyUsd] is present and is at
    least the cap. *)
Definition dailyCapHit (b : RoutingBudgetConfig) : Prop :=
  exists cap cs spent,
    dailyCapUsd b = Some cap /\ currentSpend b = Some cs /\
    dailyUsd cs = Some spent /\ PrimFloat.leb cap spent = true.

(** [monthlyCapUsd] is set, [currentSpend.monthlyUsd] is present and is
    at least the cap. *)
Definition monthlyCapHit (b : RoutingBudgetConfig) : Prop :=
  exists cap cs spent,
    monthlyCapUsd b = Some cap /\ currentSpend b = Some cs /\
    monthlyUsd cs = Some spent /\ PrimFloat.leb cap spent = true.


(** *** The resolution chain, in the words of the specification *)

(** The first candidate that is available, else the fallback. *)
Fixpoint first_available (candidates : list (option ModelRef))
    (fallback : ModelRef) : ModelRef :=
  match candidates with
  | [] => fallback
  | Some m :: _ => m
  | None :: rest => first_available rest fallback
  end.

(** The caller's global default model, a string or a [{primary}]
    object. *)
Definition globalDefaultString (cfg : MoltbotConfig) : option jsstring :=
  match agents_defaults_model cfg with
  | Some (ModelString s) => Some s
  | Some (ModelObject (Some (c :: rest))) => Some (c :: rest)
  | _ => None
  end.

(** The configuration with the override of one tier taken out. *)
Definition withoutTierOverride (tier : ModelTierId)
    (rc : IntelligentRoutingConfig) : IntelligentRoutingConfig :=
  {| enabled := enabled rc; bias := bias rc;
     tiers :=
       match tiers rc with
       | Some ts => Some (fun t => if tier_eqb t tier then None else ts t)
       | None => None
       end;
     budget := budget rc; Config.analytics := Config.analytics rc;
     analyticsPath := analyticsPath rc |}.

(** Modelled from the spec: [parseModelRef] of model-selection.ts, which
    is not among the sources.  A model ref string is
    [<provider>/<model-identifier>], split on the first [/] only; without
    a separator the default provider is used.  A string with nothing in
    it, or with an empty side of the separator, does not parse. *)
Fixpoint split_first_slash (s : jsstring) : option (jsstring * jsstring) :=
  match s with
  | [] => None
  | c :: t =>
      if c =? 47 then Some ([], t)
      else match split_first_slash t with
           | Some (a, b) => Some (c :: a, b)
           | None => None
           end
  end.

Definition parseModelRef_spec (raw defaultProvider : jsstring)
  : option ModelRef :=
  match trim raw with
  | [] => None
  | trimmed =>
      match split_first_slash trimmed with
      | None => Some {| provider := defaultProvider; ModelTiers.model := trimmed |}
      | Some (p, m) =>
          match trim p, trim m with
          | [], _ | _, [] => None
          | p', m' => Some {| provider := p'; ModelTiers.model := m' |}
          end
      end
  end.

(** The routing configuration of the router's tests, with the override
    of [t1] replaced by a string that does not parse. *)
Definition malformedT1Config : IntelligentRoutingConfig :=
  {| enabled := Some true; bias := Some balanced;
     tiers := Some (fun t =>
       match t with
       | t1 => Some {| Config.model := str "/"; maxTokens := None |}
       | t4 => Some {| Config.model := str "anthropic/claude-opus-4-5";
                       maxTokens := None |}
       | _ => None
       end);
     budget := None; Config.analytics := None; analyticsPath := None |}.

(** A routing configuration that sends T2 to a model of another
    provider. *)
Definition customT2Config : IntelligentRoutingConfig :=
  {| enabled := Some true; bias := Some balanced;
     tiers := Some (fun t =>
       match t with
       | t2 => Some {| Config.model := str "openai/gpt-4o";
                       maxTokens := None |}
       | _ => None
       end);
     budget := None; Config.analytics := None; analyticsPath := None |}.

Definition baseCfg : MoltbotConfig :=
  {| agents_defaults_model :=
       Some (ModelObject (Some (str "anthropic/claude-sonnet-4-5")));
     models_providers := [] |}.


(** *** The classifier's trace and scores, stage by stage *)

(** [k] additions of [w], as the scoring loops perform them. *)
Fixpoint add_n (k : nat) (w acc : float) : float :=
  match k with
  | O => acc
  | S k' => add_n k' w (acc + w)%float
  end.

Definition count_matches (U : Unicode) (ps : list RegExp) (s : jsstring)
  : nat :=
  length (filter (fun p => test U p s) ps).

(** One entry per pattern of a stage, matched or not. *)
Definition pattern_entries (U : Unicode) (prefix : string) (w : float)
    (ps : list RegExp) (s : jsstring) : list ClassificationSignal :=
  map (fun p => signal (str prefix ++ firstn 30 (source p)) w (test U p s))
      ps.

Definition flagship_entries (U : Unicode) (s : jsstring) :=
  pattern_entries U "flagship:" 0.4 FLAGSHIP_PATTERNS s.

Definition complex_entries (U : Unicode) (s : jsstring) :=
  pattern_entries U "complex:" 0.25 COMPLEX_PATTERNS s.

(** The entries of the heuristics that fired, in the order of the
    code. *)
Definition heuristic_entries (long medium code multi numbered : bool)
  : list ClassificationSignal :=
  (if long then [signal (str "long_message") 0.3 true]
   else if medium then [signal (str "medium_message") 0.15 true]
   else [])
  ++ (if code then [signal (str "code_block") 0.3 true] else [])
  ++ (if multi then [signal (str "multiple_questions") 0.2 true] else [])
  ++ (if numbered then [signal (str "numbered_list") 0.15 true] else []).

(** What the heuristics see of a trimmed message. *)
Definition wordCount (U : Unicode) (s : jsstring) : nat :=
  length (split U WHITESPACE_RUN s).
Definition isLong (U : Unicode) (s : jsstring) : bool :=
  Nat.ltb 100 (wordCount U s).
Definition isMedium (U : Unicode) (s : jsstring) : bool :=
  Nat.ltb 50 (wordCount U s).
Definition hasCodeBlock (U : Unicode) (s : jsstring) : bool :=
  test U CODE_FENCE s.
Definition hasMultipleQuestions (U : Unicode) (s : jsstring) : bool :=
  Nat.leb 2 (length (match match_all U QUESTION_MARK s with
                     | Some ms => ms
                     | None => []
                     end)).
Definition hasNumberedList (U : Unicode) (s : jsstring) : bool :=
  test U NUMBERED_ITEM s.

Definition heuristics (U : Unicode) (s : jsstring)
  : list ClassificationSignal :=
  heuristic_entries (isLong U s) (isMedium U s) (hasCodeBlock U s)
    (hasMultipleQuestions U s) (hasNumberedList U s).

Definition in_unit (c : float) : bool :=
  PrimFloat.leb 0 c && PrimFloat.leb c 1.

Definition flagship_confidence (k : nat) : float :=
  (Math_min 0.95 (0.6 + add_n k 0.4 0))%float.

(** The complex score after [k] pattern matches and the heuristics. *)
Definition complex_score (k : nat) (long medium code multi numbered : bool)
  : float :=
  (let s := add_n k 0.25 0 in
   let s := if long then s + 0.3 else if medium then s + 0.15 else s in
   let s := if code then s + 0.3 else s in
   let s := if multi then s + 0.2 else s in
   if numbered then s + 0.15 else s)%float.

Definition complexScore (U : Unicode) (s : jsstring) : float :=
  complex_score (count_matches U COMPLEX_PATTERNS s) (isLong U s)
    (isMedium U s) (hasCodeBlock U s) (hasMultipleQuestions U s)
    (hasNumberedList U s).

Definition complex_confidence (x : float) : float :=
  (Math_min 0.9 (0.5 + x * 0.4))%float.

Definition bools : list bool := [true; false].

(** The stage that decides a classification. *)
Inductive Stage :=
| SEmpty | SExplicit | STrivial | SVeryShort | SFlagship | SComplex
| SSimplePattern | SShort | SDefault.

(** The deciding stage, by the conditions of [classifyIntent] in their
    order. *)
Definition decidingStage (U : Unicode) (message : jsstring) : Stage :=
  let trimmed := trim message in
  if Nat.eqb (length trimmed) 0 then SEmpty
  else if some_pattern_matches U EXPLICIT_MODEL_PATTERNS trimmed
  then SExplicit
  else if some_pattern_matches U TRIVIAL_PATTERNS trimmed then STrivial
  else if Nat.ltb (length trimmed) 10 && negb (includes trimmed (str "?"))
  then SVeryShort
  else if PrimFloat.leb 0.4
            (add_n (count_matches U FLAGSHIP_PATTERNS trimmed) 0.4 0)
  then SFlagship
  else if PrimFloat.leb 0.5 (complexScore U trimmed) then SComplex
  else if some_pattern_matches U SIMPLE_PATTERNS trimmed
  then SSimplePattern
  else if Nat.leb (wordCount U trimmed) 15
          && PrimFloat.ltb (complexScore U trimmed) 0.25
  then SShort
  else SDefault.

(** The result of each stage. *)
Definition stageResult (U : Unicode) (message : jsstring) (st : Stage)
  : ClassificationResult :=
  let trimmed := trim message in
  let reached_complex :=
    flagship_entries U trimmed ++ complex_entries U trimmed
    ++ heuristics U trimmed in
  match st with
  | SEmpty => outcome trivial 1.0 (str "empty message") []
  | SExplicit =>
      outcome explicit 1.0 (str "explicit model request")
        [signal (str "explicit_model_request") 1.0 true]
  | STrivial =>
      outcome trivial 0.95 (str "trivial pattern match")
        [signal (str "trivial_pattern") 1.0 true]
  | SVeryShort =>
      outcome trivial 0.8 (str "very short non-question")
        [signal (str "very_short") 0.8 true]
  | SFlagship =>
      outcome flagship
        (flagship_confidence (count_matches U FLAGSHIP_PATTERNS trimmed))
        (str "flagship keyword match") (flagship_entries U trimmed)
  | SComplex =>
      outcome complex (complex_confidence (complexScore U trimmed))
        (str "complex signal accumulation") reached_complex
  | SSimplePattern =>
      outcome simple 0.8 (str "simple pattern match")
        (reached_complex ++ [signal (str "simple_pattern") 0.7 true])
  | SShort =>
      outcome simple 0.7 (str "short message without complexity")
        (reached_complex ++ [signal (str "short_no_complexity") 0.6 true])
  | SDefault =>
      outcome standard 0.6
        (str "no strong signal " ++ [8212] ++ str " default to standard")
        reached_complex
  end.


(** *** Blank-line runs *)

(** No run of three newlines, [k] newlines standing before the text. *)
Fixpoint newlines_ok (k : nat) (s : jsstring) : bool :=
  match s with
  | [] => true
  | c :: t =>
      if c =? NL then Nat.ltb (S k) 3 && newlines_ok (S k) t
      else newlines_ok 0 t
  end.

(** The newlines that stand at the end of the text, [k] standing before
    it. *)
Fixpoint trailing_newlines (k : nat) (s : jsstring) : nat :=
  match s with
  | [] => k
  | c :: t => trailing_newlines (if c =? NL then S k else 0%nat) t
  end.

(** The newlines at the start of the text. *)
Fixpoint nl_run (s : jsstring) : nat :=
  match s with
  | c :: t => if c =? NL then S (nl_run t) else 0%nat
  | [] => 0%nat
  end.


(** The lines [extractCorePersona] keeps, as a recursion over the
    lines. *)
Fixpoint persona_keep (U : Unicode) (inKeepSection : bool)
    (sectionCount : nat) (lines : list jsstring) : list jsstring :=
  match lines with
  | [] => []
  | line :: rest =>
      let isHeader := test U SECTION_HEADER line in
      let sectionCount := if isHeader then S sectionCount else sectionCount in
      let inKeepSection :=
        if isHeader then Nat.leb sectionCount 1 || isCoreTopic U line
        else inKeepSection in
      if inKeepSection
      then line :: persona_keep U inKeepSection sectionCount rest
      else persona_keep U inKeepSection sectionCount rest
  end.

(** The lines [stripSectionsByHeader] keeps, as a recursion over the
    lines. *)
Fixpoint strip_keep (U : Unicode) (headers : list jsstring)
    (skipping : bool) (lines : list jsstring) : list jsstring :=
  match lines with
  | [] => []
  | line :: rest =>
      match headerName U line with
      | Some raw =>
          if has headers raw then strip_keep U headers true rest
          else line :: strip_keep U headers false rest
      | None =>
          if skipping then strip_keep U headers true rest
          else line :: strip_keep U headers false rest
      end
  end.

(** A user-authored section that merely resembles an allow-listed
    name. *)
Definition toolsSectionPrompt : jsstring := str "## Tools section".




(** *** Small predicates of the proofs *)

(** A pattern character that the next input character does not match. *)
Definition lit_fails (fl : flags) (d : Z) (suf : list Z) : Prop :=
  match suf with
  | [] => True
  | c :: _ =>
      (if ignoreCase fl then canon c =? canon d else c =? d) = false
  end.

(** An ASCII digit or a whitespace character of ECMAScript. *)
Definition digit_or_space (c : Z) : Prop :=
  is_digit c || is_space c = true.

(** A line, as [split("\n")] gives it. *)
Definition no_newline (l : jsstring) : Prop := ~ In NL l.

(** The outcomes of the tests that the loop
    [for (const pattern of ps) if (pattern.test(s)) return] runs: up to
    and including the first match. *)
Fixpoint testsRun (U : Unicode) (ps : list RegExp) (s : jsstring)
  : list bool :=
  match ps with
  | [] => []
  | p :: ps' => if test U p s then [true] else false :: testsRun U ps' s
  end.

(** Two continuations that agree on every position with at most [n]
    characters left. *)
Definition agree_upto (n : nat) (k1 k2 : cont) : Prop :=
  forall p s c, (length s <= n)%nat -> k1 p s c = k2 p s c.

(** A matcher whose result depends on its continuation only at the
    positions it can reach: those with no more characters left than it
    was given. *)
Definition local (ma : list Z -> list Z -> captures -> cont -> option result)
  : Prop :=
  forall pre suf cs k1 k2,
    agree_upto (length suf) k1 k2 -> ma pre suf cs k1 = ma pre suf cs k2.

(** A matcher whose every match is a result of its continuation at such
    a position. *)
Definition yields (ma : list Z -> list Z -> captures -> cont -> option result)
  : Prop :=
  forall pre suf cs k res,
    ma pre suf cs k = Some res ->
    exists p s c, (length s <= length suf)%nat /\ k p s c = Some res.


(** *** Tier table *)

(** Every capability score of [a] is at most that of [b]. *)
Definition caps_le (a b : TierCapabilities) : bool :=
  PrimFloat.leb (instructionFollowing a) (instructionFollowing b)
  && PrimFloat.leb (reasoning a) (reasoning b)
  && PrimFloat.leb (coding a) (coding b)
  && PrimFloat.leb (longFormGeneration a) (longFormGeneration b)
  && PrimFloat.leb (knowledge a) (knowledge b)
  && PrimFloat.leb (contextUtilization a) (contextUtilization b).

(** The tier runs on this machine at no cost. *)
Definition isFreeTier (t : ModelTierId) : Prop := tierIndex t <= 1.

(** *** Router scenarios *)

(** A routing configuration with nothing but the bias set. *)
Definition biasOnly (b : RoutingBias) : IntelligentRoutingConfig :=
  {| enabled := Some true; bias := Some b; tiers := None; budget := None;
     Config.analytics := None; analyticsPath := None |}.

(** A routing configuration that prefers free models. *)
Definition preferFreeConfig : IntelligentRoutingConfig :=
  {| enabled := Some true; bias := None; tiers := None;
     budget := Some {| dailyCapUsd := None; monthlyCapUsd := None;
                       preferFree := Some true; currentSpend := None |};
     Config.analytics := None; analyticsPath := None |}.

(** Router parameters for a message under a routing configuration, with
    an enabled logger. *)
Definition paramsFor (msg : string) (rc : IntelligentRoutingConfig)
  : RouterParams :=
  {| message := str msg; systemPrompt := str "You are helpful.";
     cfg := baseCfg; routingConfig := rc; sessionModelOverride := None;
     channel := Some (str "telegram"); sessionId := Some (str "s1");
     Router.analytics := Some {| RoutingAnalytics.enabled := true |} |}.

Definition sampleTime : jsstring := str "2026-01-01T00:00:00.000Z".

(** The bias in force: [routingConfig.bias ?? "balanced"]. *)
Definition biasOf (rc : IntelligentRoutingConfig) : RoutingBias :=
  match bias rc with Some b => b | None => balanced end.

(** [params.analytics?.enabled] is truthy. *)
Definition loggerOn (a : option RoutingAnalytics.RoutingAnalyticsLogger)
  : bool :=
  match a with Some l => RoutingAnalytics.enabled l | None => false end.

(** Some budget rule of the configuration is in force. *)
Definition budgetHit (rc : IntelligentRoutingConfig) : Prop :=
  exists b, budget rc = Some b
            /\ (prefersFree b \/ dailyCapHit b \/ monthlyCapHit b).

(** *** The integration hook *)

(** The state of a fresh process: no logger, no writer, nothing
    written. *)
Definition initState : ModelIntelligent.State :=
  {| ModelIntelligent.analyticsLogger := None;
     ModelIntelligent.writers := [];
     ModelIntelligent.written := [] |}.

(** The feature flag: [cfg.intelligentRouting?.enabled] is [true]. *)
Definition routingOn (cfg : ModelIntelligent.HostConfig) : Prop :=
  exists rc, ModelIntelligent.intelligentRouting cfg = Some rc
             /\ enabled rc = Some true.

(** All analytics of the process go to at most one file: without a
    logger nothing is registered or written, with one its writer is the
    only one and every write request is addressed to it. *)
Definition oneLogFile (st : ModelIntelligent.State) : Prop :=
  match ModelIntelligent.analyticsLogger st with
  | None =>
      ModelIntelligent.writers st = [] /\ ModelIntelligent.written st = []
  | Some l =>
      ModelIntelligent.writers st = [AnalyticsLog.filePath l]
      /\ Forall (fun w => fst w = AnalyticsLog.filePath l)
            (ModelIntelligent.written st)
  end.

Section HookRuns.

Variable Env : Type.
Variable process_env : Env.
Variable resolveStateDir : Env -> jsstring.
Variable path_join : list jsstring -> jsstring.
Variable parseModelRef : jsstring -> jsstring -> option ModelRef.
Variable DEFAULT_PROVIDER : jsstring.
Variable U : Unicode.

(** The path of the log file when the configuration names none. *)
Definition defaultLogPath (env : option Env) : jsstring :=
  path_join [resolveStateDir
               (match env with Some e => e | None => process_env end);
             str "logs"; str "routing-analytics.jsonl"].

(** The state after a sequence of calls of the hook, each with its time
    and its parameters. *)
Fixpoint runCalls (calls : list (jsstring * ModelIntelligent.Params Env))
    (st : ModelIntelligent.State) : option ModelIntelligent.State :=
  match calls with
  | [] => Some st
  | (now, params) :: rest =>
      match ModelIntelligent.resolveModelIntelligent process_env
              resolveStateDir path_join parseModelRef DEFAULT_PROVIDER U
              now params st with
      | Some (_, st') => runCalls rest st'
      | None => None
      end
  end.

End HookRuns.

(** The parameters the hook hands to the router. *)
Definition routerParams (Env : Type) (params : ModelIntelligent.Params Env)
    (routingConfig : IntelligentRoutingConfig)
    (logger : option AnalyticsLog.Logger) : RouterParams :=
  {| message := ModelIntelligent.message params;
     systemPrompt := ModelIntelligent.systemPrompt params;
     cfg := ModelIntelligent.host (ModelIntelligent.cfg params);
     routingConfig := routingConfig;
     sessionModelOverride := ModelIntelligent.sessionModelOverride params;
     channel := ModelIntelligent.channel params;
     sessionId := ModelIntelligent.sessionId params;
     Router.analytics := option_map AnalyticsLog.as_router_logger logger |}.

(** A platform for the examples. *)
Definition sampleStateDir (_ : unit) : jsstring := str "/home/user/.moltbot".

Definition samplePathJoin (parts : list jsstring) : jsstring :=
  match parts with
  | [] => str "."
  | p :: rest => fold_left (fun acc q => acc ++ str "/" ++ q) rest p
  end.

(** A routing configuration with analytics switched on or off. *)
Definition analyticsConfig (on : bool) (path : option jsstring)
  : IntelligentRoutingConfig :=
  {| enabled := Some true; bias := None; tiers := None; budget := None;
     Config.analytics := Some on; analyticsPath := path |}.

Definition hookParams (msg : string) (rc : option IntelligentRoutingConfig)
  : ModelIntelligent.Params unit :=
  {| ModelIntelligent.cfg :=
       {| ModelIntelligent.host := baseCfg;
          ModelIntelligent.intelligentRouting := rc |};
     ModelIntelligent.message := str msg;
     ModelIntelligent.systemPrompt := str "You are helpful.";
     ModelIntelligent.sessionModelOverride := None;
     ModelIntelligent.channel := None;
     ModelIntelligent.sessionId := None;
     ModelIntelligent.env := None |}.

(** A process that already has a logger. *)
Definition loggedState : ModelIntelligent.State :=
  {| ModelIntelligent.analyticsLogger :=
       Some {| AnalyticsLog.filePath := str "/var/log/routing.jsonl" |};
     ModelIntelligent.writers := [str "/var/log/routing.jsonl"];
     ModelIntelligent.written := [] |}.

(** *** Prompts for the adapter's examples *)

(** An introduction, an allow-listed section and a section of the
    user's. *)
Definition twoSections : jsstring :=
  join_nl [str "Intro"; str "## Tools"; str "use bash"; str "## Style";
           str "be kind"].

(** A prompt without any header. *)
Definition plainPrompt : jsstring :=
  join_nl [str "You are a bot."; str "Be brief."].

End Props.

(* ------------------------------------------------------------------ *)
(** ** Tier order, bias and budget                                     *)
(* ------------------------------------------------------------------ *)

Section TierProperties.

Import ModelTiers Config Router Props.

Lemma tierIndex_range (t : ModelTierId) : 0 <= tierIndex t <= 4.
Proof. destruct t; vm_compute; split; discriminate. Qed.


(** C8.  Bias shift: [balanced] is the identity; [cost] gives the tier
    one index lower unless the index is at most 1, where the tier is
    returned unchanged; [quality] gives the tier one index higher unless
    the index is at least 4, where the tier is returned unchanged; the
    result is always a tier between T0 and T4. *)
Theorem applyBias_shift (t : ModelTierId) :
  applyBias t balanced = Some t
  /\ (exists r, applyBias t cost = Some r
        /\ (if tierIndex t <=? 1 then r = t
            else tierIndex r = tierIndex t - 1))
  /\ (exists r, applyBias t quality = Some r
        /\ (if 4 <=? tierIndex t then r = t
            else tierIndex r = tierIndex t + 1))
  /\ (forall b, exists r, applyBias t b = Some r /\ 0 <= tierIndex r <= 4).
Proof.
  split; [reflexivity|].
  split; [destruct t; eexists; split; vm_compute; reflexivity|].
  split; [destruct t; eexists; split; vm_compute; reflexivity|].
  intros b.
  destruct t, b; eexists; (split; [vm_compute; reflexivity|]);
    apply tierIndex_range.
Qed.

Lemma cap_reached_daily (b : RoutingBudgetConfig) :
  cap_reached (dailyCapUsd b) (spend_daily b) = true <-> dailyCapHit b.
Proof.
  unfold cap_reached, spend_daily, dailyCapHit. split.
  - destruct (dailyCapUsd b) as [c|]; [|discriminate].
    destruct (currentSpend b) as [cs|]; [|discriminate].
    destruct (dailyUsd cs) as [s|] eqn:E; [|discriminate].
    intros H. exists c, cs, s. auto.
  - intros (c & cs & s & -> & -> & -> & H). exact H.
Qed.

Lemma cap_reached_monthly (b : RoutingBudgetConfig) :
  cap_reached (monthlyCapUsd b) (spend_monthly b) = true <-> monthlyCapHit b.
Proof.
  unfold cap_reached, spend_monthly, monthlyCapHit. split.
  - destruct (monthlyCapUsd b) as [c|]; [|discriminate].
    destruct (currentSpend b) as [cs|]; [|discriminate].
    destruct (monthlyUsd cs) as [s|] eqn:E; [|discriminate].
    intros H. exists c, cs, s. auto.
  - intros (c & cs & s & -> & -> & -> & H). exact H.
Qed.

Lemma prefersFree_dec (b : RoutingBudgetConfig) :
  (match preferFree b with Some x => x | None => false end) = true
  <-> prefersFree b.
Proof.
  unfold prefersFree. destruct (preferFree b) as [[|]|]; split;
    intros H; try reflexivity; try discriminate.
Qed.



End TierProperties.

(* ------------------------------------------------------------------ *)
(** ** Prompt adapter: the null prompt                                 *)
(* ------------------------------------------------------------------ *)

Section AdapterBasics.

Import ModelTiers PromptAdapter.

(** C5.  The adapted system prompt is null if and only if the tier is
    T0. *)
Theorem adaptPromptForTier_null_iff_t0
    (U : Unicode) (prompt : jsstring) (t : ModelTierId) :
  systemPrompt (adaptPromptForTier U prompt t) = None <-> t = t0.
Proof.
  destruct t; simpl; split; intros H;
    try reflexivity; try discriminate.
Qed.

End AdapterBasics.

(* ------------------------------------------------------------------ *)
(** ** Router: bypass invariant and model resolution                   *)
(* ------------------------------------------------------------------ *)

Section RouterProperties.

Import IntentClassifier ModelTiers PromptAdapter Config Router Props.

Variable parseModelRef : jsstring -> jsstring -> option ModelRef.
Variable DEFAULT_PROVIDER : jsstring.

Lemma applyBias_total (t : ModelTierId) (b : RoutingBias) :
  exists r, applyBias t b = Some r.
Proof. destruct t, b; eexists; vm_compute; reflexivity. Qed.

(** C4.  [routeMessage] returns a decision for every input, and in it
    [bypassed] implies that the tier is the original tier and that the
    bypass reason is a non-empty string; without a bypass no reason is
    set. *)
Theorem routeMessage_bypass_invariant
    (U : Unicode) (now : jsstring) (params : RouterParams) :
  exists d events,
    routeMessage parseModelRef DEFAULT_PROVIDER U now params
      = Some (d, events)
    /\ (bypassed d = true ->
        tier d = originalTier d
        /\ exists why, bypassReason d = Some why /\ why <> [])
    /\ (bypassed d = false -> bypassReason d = None).
Proof.
  unfold routeMessage.
  destruct (sessionModelOverride params) as [o|].
  - eexists; eexists; split; [reflexivity|]. simpl. split.
    + intros _. split; [reflexivity|].
      eexists; split; [reflexivity|]. discriminate.
    + discriminate.
  - destruct (intent (classifyIntent U (message params))) eqn:Ei;
      try (destruct (applyBias_total (resolveMinTierForIntent
                       (intent (classifyIntent U (message params))))
                       (match bias (routingConfig params) with
                        | Some b => b
                        | None => balanced
                        end)) as [r Hr];
           rewrite Ei in Hr; rewrite Hr;
           eexists; eexists; split; [reflexivity|]; simpl; split;
           [discriminate | reflexivity]).
    eexists; eexists; split; [reflexivity|]. simpl. split.
    + intros _. split; [reflexivity|].
      eexists; split; [reflexivity|]. discriminate.
    + discriminate.
Qed.

Lemma tierOverride_without (tier : ModelTierId)
    (rc : IntelligentRoutingConfig) :
  tierOverride tier (withoutTierOverride tier rc) = None.
Proof.
  unfold tierOverride, withoutTierOverride. simpl.
  destruct (tiers rc); [|reflexivity].
  destruct tier; reflexivity.
Qed.

Lemma resolveModelForTier_candidates
    (tier : ModelTierId) (rc : IntelligentRoutingConfig)
    (cfg : MoltbotConfig) :
  resolveModelForTier parseModelRef DEFAULT_PROVIDER tier rc cfg
  = first_available
      [ match tierOverride tier rc with
        | Some s => parseModelRef s DEFAULT_PROVIDER
        | None => None
        end;
        getDefaultTierModel tier;
        match globalDefaultString cfg with
        | Some s => parseModelRef s DEFAULT_PROVIDER
        | None => None
        end ]
      {| provider := DEFAULT_PROVIDER;
         ModelTiers.model := str "claude-sonnet-4-5" |}.
Proof.
  unfold resolveModelForTier, globalDefaultString, FALLBACK_MODEL. simpl.
  destruct (match tierOverride tier rc with
            | Some s => parseModelRef s DEFAULT_PROVIDER
            | None => None
            end); [reflexivity|].
  destruct (getDefaultTierModel tier); [reflexivity|].
  destruct (agents_defaults_model cfg) as [[g|[[|c rest]|]]|];
    try reflexivity;
    match goal with
    | |- context [parseModelRef ?x DEFAULT_PROVIDER] =>
        destruct (parseModelRef x DEFAULT_PROVIDER); reflexivity
    end.
Qed.

(** C9.  [resolveModelForTier] returns a model for every tier and
    configuration, the first that is available of: the model parsed
    from [routingConfig.tiers[tier].model], when the tiers, the entry of
    the tier and a non-empty string are there and the string parses;
    the built-in tier default; the model parsed from the caller's
    global default, a string or the [primary] of an object; and the
    hard-coded fallback when none is available.  So a parseable
    override is the result; an override that does not parse gives what
    the same configuration without the override gives, which is what a
    configuration with no tiers, no entry for the tier or an empty
    string gives: the rest of the chain, whose built-in defaults are
    qwen2.5:7b of ollama for T1, claude-sonnet-4-5 of anthropic for T2
    and T3, claude-opus-4-5 of anthropic for T4 and none for T0. *)
Theorem resolveModelForTier_chain
    (tier : ModelTierId) (rc : IntelligentRoutingConfig)
    (cfg : MoltbotConfig) :
  resolveModelForTier parseModelRef DEFAULT_PROVIDER tier rc cfg
  = first_available
      [ match tiers rc with
        | Some ts =>
            match ts tier with
            | Some tierConfig =>
                match Config.model tierConfig with
                | [] => None
                | c :: s => parseModelRef (c :: s) DEFAULT_PROVIDER
                end
            | None => None
            end
        | None => None
        end;
        getDefaultTierModel tier;
        match globalDefaultString cfg with
        | Some s => parseModelRef s DEFAULT_PROVIDER
        | None => None
        end ]
      {| provider := DEFAULT_PROVIDER;
         ModelTiers.model := str "claude-sonnet-4-5" |}
  /\ (forall ts tierConfig parsed,
        tiers rc = Some ts -> ts tier = Some tierConfig ->
        Config.model tierConfig <> [] ->
        parseModelRef (Config.model tierConfig) DEFAULT_PROVIDER
        = Some parsed ->
        resolveModelForTier parseModelRef DEFAULT_PROVIDER tier rc cfg
        = parsed)
  /\ (forall ts tierConfig,
        tiers rc = Some ts -> ts tier = Some tierConfig ->
        parseModelRef (Config.model tierConfig) DEFAULT_PROVIDER = None ->
        resolveModelForTier parseModelRef DEFAULT_PROVIDER tier rc cfg
        = resolveModelForTier parseModelRef DEFAULT_PROVIDER tier
            (withoutTierOverride tier rc) cfg)
  /\ ((tiers rc = None
       \/ (exists ts, tiers rc = Some ts /\ ts tier = None)
       \/ (exists ts tierConfig,
             tiers rc = Some ts /\ ts tier = Some tierConfig
             /\ (Config.model tierConfig = []
                 \/ parseModelRef (Config.model tierConfig)
                      DEFAULT_PROVIDER = None))) ->
      resolveModelForTier parseModelRef DEFAULT_PROVIDER tier rc cfg
      = match tier with
        | t0 =>
            first_available
              [ match globalDefaultString cfg with
                | Some s => parseModelRef s DEFAULT_PROVIDER
                | None => None
                end ]
              {| provider := DEFAULT_PROVIDER;
                 ModelTiers.model := str "claude-sonnet-4-5" |}
        | t1 => {| provider := str "ollama";
                   ModelTiers.model := str "qwen2.5:7b" |}
        | t2 | t3 => {| provider := str "anthropic";
                        ModelTiers.model := str "claude-sonnet-4-5" |}
        | t4 => {| provider := str "anthropic";
                   ModelTiers.model := str "claude-opus-4-5" |}
        end).
Proof.
  assert (Hread :
    match tierOverride tier rc with
    | Some s => parseModelRef s DEFAULT_PROVIDER
    | None => None
    end
    = match tiers rc with
      | Some ts =>
          match ts tier with
          | Some tierConfig =>
              match Config.model tierConfig with
              | [] => None
              | c :: s => parseModelRef (c :: s) DEFAULT_PROVIDER
              end
          | None => None
          end
      | None => None
      end).
  { unfold tierOverride. destruct (tiers rc) as [ts|]; [|reflexivity].
    destruct (ts tier) as [tc|]; [|reflexivity].
    destruct (Config.model tc); reflexivity. }
  pose proof (resolveModelForTier_candidates tier rc cfg) as Hchain.
  rewrite Hread in Hchain.
  split; [exact Hchain|]. split; [|split].
  - intros ts tc parsed Hts Htc Hne Hp. rewrite Hchain, Hts, Htc.
    destruct (Config.model tc) as [|c s]; [contradiction|].
    rewrite Hp. reflexivity.
  - intros ts tc Hts Htc Hp.
    rewrite (resolveModelForTier_candidates tier
               (withoutTierOverride tier rc) cfg).
    rewrite tierOverride_without, Hchain, Hts, Htc.
    destruct (Config.model tc) as [|c s]; [reflexivity|].
    rewrite Hp. reflexivity.
  - intros Habsent. rewrite Hchain.
    assert (Hnone :
      match tiers rc with
      | Some ts =>
          match ts tier with
          | Some tierConfig =>
              match Config.model tierConfig with
              | [] => None
              | c :: s => parseModelRef (c :: s) DEFAULT_PROVIDER
              end
          | None => None
          end
      | None => None
      end = None).
    { destruct Habsent as [-> | [(ts & -> & ->) | (ts & tc & -> & -> & H)]];
        try reflexivity.
      destruct (Config.model tc) as [|c s]; [reflexivity|].
      destruct H as [H | H]; [discriminate | exact H]. }
    rewrite Hnone. destruct tier; reflexivity.
Qed.

End RouterProperties.

Section RouterWitness.

Import ModelTiers Config Router Props.

(** An override that parses is the model of its tier, here a model of
    another provider than the built-in default's.  In the test
    configuration with the override of T1 replaced by ["/"], the
    override of T1 does not parse, and T1 resolves to what it resolves
    to without the override, the built-in default. *)
Lemma resolveModelForTier_chain_witness :
  resolveModelForTier parseModelRef_spec (str "anthropic") t2
    customT2Config baseCfg
  = {| provider := str "openai"; ModelTiers.model := str "gpt-4o" |}
  /\ resolveModelForTier parseModelRef_spec (str "anthropic") t1
       malformedT1Config baseCfg
     = resolveModelForTier parseModelRef_spec (str "anthropic") t1
         (withoutTierOverride t1 malformedT1Config) baseCfg
  /\ resolveModelForTier parseModelRef_spec (str "anthropic") t1
       malformedT1Config baseCfg
     = {| provider := str "ollama"; ModelTiers.model := str "qwen2.5:7b" |}.
Proof.
  split; [|split].
  - destruct (resolveModelForTier_chain parseModelRef_spec
                (str "anthropic") t2 customT2Config baseCfg)
      as (_ & Hwins & _).
    apply (Hwins (fun t =>
             match t with
             | t2 => Some {| Config.model := str "openai/gpt-4o";
                             maxTokens := None |}
             | _ => None
             end)
             {| Config.model := str "openai/gpt-4o"; maxTokens := None |});
      try reflexivity.
    discriminate.
  - destruct (resolveModelForTier_chain parseModelRef_spec
                (str "anthropic") t1 malformedT1Config baseCfg)
      as (_ & _ & Hskip & _).
    apply (Hskip (fun t =>
             match t with
             | t1 => Some {| Config.model := str "/"; maxTokens := None |}
             | t4 => Some {| Config.model := str "anthropic/claude-opus-4-5";
                             maxTokens := None |}
             | _ => None
             end)
             {| Config.model := str "/"; maxTokens := None |});
      reflexivity.
  - destruct (resolveModelForTier_chain parseModelRef_spec
                (str "anthropic") t1 malformedT1Config baseCfg)
      as (_ & _ & _ & Hrest).
    apply Hrest. right. right.
    eexists. exists {| Config.model := str "/"; maxTokens := None |}.
    split; [reflexivity|]. split; [reflexivity|]. right. reflexivity.
Defined.

End RouterWitness.


(* ------------------------------------------------------------------ *)
(** ** Classifier: scores, stages and the result invariant             *)
(* ------------------------------------------------------------------ *)

Section ClassifierInvariant.

Import IntentClassifier Props.

Variable U : Unicode.

Lemma count_matches_le (ps : list RegExp) (s : jsstring) :
  (count_matches U ps s <= length ps)%nat.
Proof. apply filter_length_le. Qed.

Lemma score_patterns_spec (prefix : string) (w : float)
    (ps : list RegExp) (s : jsstring) :
  forall sg acc,
    score_patterns U prefix w ps s (sg, acc)
    = (sg ++ pattern_entries U prefix w ps s,
       add_n (count_matches U ps s) w acc).
Proof.
  unfold score_patterns, pattern_entries, count_matches.
  induction ps as [|p ps IH]; intros sg acc; simpl.
  - now rewrite app_nil_r.
  - rewrite IH. rewrite <- app_assoc. simpl.
    destruct (test U p s); reflexivity.
Qed.

Lemma flagship_confidence_checked :
  forallb (fun k => in_unit (flagship_confidence k))
    (List.seq 0%nat 11%nat) = true.
Proof. vm_compute. reflexivity. Qed.

Lemma complex_confidence_checked :
  forallb (fun k =>
    forallb (fun a => forallb (fun b => forallb (fun c =>
      forallb (fun d => forallb (fun e =>
        in_unit (complex_confidence (complex_score k a b c d e)))
      bools) bools) bools) bools) bools) (List.seq 0%nat 16%nat) = true.
Proof. vm_compute. reflexivity. Qed.

Lemma in_bools (b : bool) : In b bools.
Proof. destruct b; simpl; auto. Qed.

Lemma flagship_confidence_in_unit (k : nat) :
  (k <= 10)%nat -> in_unit (flagship_confidence k) = true.
Proof.
  intros Hk.
  apply (proj1 (forallb_forall _ _) flagship_confidence_checked).
  apply in_seq. lia.
Qed.

Lemma complex_confidence_in_unit (k : nat) (a b c d e : bool) :
  (k <= 15)%nat ->
  in_unit (complex_confidence (complex_score k a b c d e)) = true.
Proof.
  intros Hk.
  pose proof (proj1 (forallb_forall _ _) complex_confidence_checked k) as H.
  assert (Hin : In k (List.seq 0%nat 16%nat)) by (apply in_seq; lia).
  specialize (H Hin). cbv beta in H.
  pose proof (proj1 (forallb_forall _ _) H a (in_bools a)) as Ha.
  cbv beta in Ha.
  pose proof (proj1 (forallb_forall _ _) Ha b (in_bools b)) as Hb.
  cbv beta in Hb.
  pose proof (proj1 (forallb_forall _ _) Hb c (in_bools c)) as Hc.
  cbv beta in Hc.
  pose proof (proj1 (forallb_forall _ _) Hc d (in_bools d)) as Hd.
  cbv beta in Hd.
  exact (proj1 (forallb_forall _ _) Hd e (in_bools e)).
Qed.

(** The classifier is its deciding stage's result: the cascade of
    [classifyIntent], with the two scoring loops and the heuristics
    summed up. *)
Lemma classifyIntent_by_stage (message : jsstring) :
  classifyIntent U message
  = stageResult U message (decidingStage U message).
Proof.
  unfold classifyIntent, decidingStage. cbv zeta.
  destruct (Nat.eqb (length (trim message)) 0); [reflexivity|].
  destruct (some_pattern_matches U EXPLICIT_MODEL_PATTERNS (trim message));
    [reflexivity|].
  destruct (some_pattern_matches U TRIVIAL_PATTERNS (trim message));
    [reflexivity|].
  destruct (Nat.ltb (length (trim message)) 10
            && negb (includes (trim message) (str "?")));
    [reflexivity|].
  rewrite !score_patterns_spec. cbn [fst snd app].
  destruct (PrimFloat.leb 0.4
              (add_n (count_matches U FLAGSHIP_PATTERNS (trim message))
                 0.4 0)); [reflexivity|].
  unfold stageResult, heuristics, heuristic_entries, flagship_entries,
    complex_entries.
  unfold complexScore, complex_score.
  fold (wordCount U (trim message)).
  fold (hasCodeBlock U (trim message)).
  fold (hasMultipleQuestions U (trim message)).
  fold (hasNumberedList U (trim message)).
  fold (isLong U (trim message)). fold (isMedium U (trim message)).
  generalize (count_matches U COMPLEX_PATTERNS (trim message)) as k.
  generalize (pattern_entries U "flagship:" 0.4 FLAGSHIP_PATTERNS
                (trim message)) as F.
  generalize (pattern_entries U "complex:" 0.25 COMPLEX_PATTERNS
                (trim message)) as C.
  generalize (some_pattern_matches U SIMPLE_PATTERNS (trim message)) as sp.
  generalize (Nat.leb (wordCount U (trim message)) 15) as sh.
  generalize (isLong U (trim message)) as a.
  generalize (isMedium U (trim message)) as b.
  generalize (hasCodeBlock U (trim message)) as c.
  generalize (hasMultipleQuestions U (trim message)) as d.
  generalize (hasNumberedList U (trim message)) as e.
  intros e d c b a sh sp C F k.
  destruct a, b, c, d, e; cbn [bump fst snd app]; cbv zeta;
    rewrite ?app_nil_r; repeat rewrite <- app_assoc; cbn [app];
    match goal with
    | |- context [PrimFloat.leb 0.5 ?x] =>
        destruct (PrimFloat.leb 0.5 x); [reflexivity|]
    end;
    (destruct sp; [reflexivity|]);
    match goal with
    | |- context [sh && ?y] => destruct (sh && y); reflexivity
    end.
Qed.

End ClassifierInvariant.

(* ------------------------------------------------------------------ *)
(** ** Facts about strings and the matcher                             *)
(* ------------------------------------------------------------------ *)

Section StringFacts.

Lemma trimStart_incl (s : jsstring) (c : Z) :
  In c (trimStart s) -> In c s.
Proof.
  induction s as [|x s IH]; simpl; [auto|].
  destruct (is_space x); simpl; intuition.
Qed.

Lemma trimStart_keeps (s : jsstring) (c : Z) :
  In c s -> is_space c = false -> In c (trimStart s).
Proof.
  induction s as [|x s IH]; simpl; [auto|].
  intros [->|Hin] Hc.
  - rewrite Hc. now left.
  - destruct (is_space x); [auto | now right].
Qed.

Lemma trim_incl (s : jsstring) (c : Z) : In c (trim s) -> In c s.
Proof.
  unfold trim, trimEnd. intros H.
  apply in_rev, trimStart_incl, in_rev in H.
  now apply trimStart_incl.
Qed.

Lemma trim_keeps (s : jsstring) (c : Z) :
  In c s -> is_space c = false -> In c (trim s).
Proof.
  unfold trim, trimEnd. intros H Hc.
  apply in_rev. rewrite rev_involutive.
  apply trimStart_keeps; [|exact Hc].
  apply in_rev. rewrite rev_involutive.
  now apply trimStart_keeps.
Qed.

Lemma codePoints_no_surrogate (s : jsstring) :
  Forall (fun c => is_high c = false) s -> codePoints s = s.
Proof.
  induction 1 as [|c s Hc Hs IH]; [reflexivity|].
  simpl. destruct s as [|d s']; [reflexivity|].
  rewrite Hc. now rewrite IH.
Qed.

End StringFacts.

Section MatcherFacts.

Import Props.

Variable U : Unicode.
Variable fl : flags.

Lemma m_lit_fails (d : Z) (pre suf : list Z) (cs : captures) (k : cont) :
  lit_fails fl d suf -> m U fl (Lit d) pre suf cs k = None.
Proof.
  destruct suf as [|c suf]; simpl; [reflexivity|].
  intros ->. reflexivity.
Qed.

(** A pattern that begins, after one assertion, with a literal. *)
Lemma m_assert_lit_fails (a : re) (d : Z) (x y : re)
    (pre suf : list Z) (cs : captures) (k : cont) :
  a = Bol \/ a = WordB ->
  lit_fails fl d suf ->
  m U fl (Cat a (Cat (Cat (Lit d) x) y)) pre suf cs k = None.
Proof.
  intros Ha Hd.
  assert (H : m U fl (Cat (Cat (Lit d) x) y) pre suf cs k = None).
  { change (m U fl (Lit d) pre suf cs
              (fun pre' suf' cs' =>
                 m U fl x pre' suf' cs'
                   (fun pre'' suf'' cs'' => m U fl y pre'' suf'' cs'' k))
            = None).
    now apply m_lit_fails. }
  destruct Ha as [-> | ->]; simpl in *.
  - destruct (at_bol fl pre); [exact H | reflexivity].
  - destruct (xorb (word_before pre) (word_after suf));
      [exact H | reflexivity].
Qed.

(** No match anywhere when there is none at any position. *)
Lemma search_none (r : re) (P : Z -> Prop) :
  (forall pre suf, Forall P suf -> match_at U fl r pre suf = None) ->
  forall suf pre, Forall P suf -> search U fl r pre suf = None.
Proof.
  intros H. induction suf as [|c suf IH]; intros pre HP; simpl.
  - now rewrite H.
  - rewrite H by exact HP. apply IH. now inversion HP.
Qed.

Lemma search_here (r : re) (pre suf : list Z) (res : result) :
  match_at U fl r pre suf = Some res ->
  search U fl r pre suf = Some (pre, suf, res).
Proof. intros H. destruct suf; simpl; now rewrite H. Qed.

(** A greedy class repetition over input that lies in the class to its
    end runs to the end, when the continuation accepts there. *)
Lemma rep_loop_cls_all (items : list cls) :
  forall suf fuel lo pre cs (k : cont) x,
    Forall (fun c => existsb (in_cls U fl c) items = true) suf ->
    (length suf < fuel)%nat -> (lo <= length suf)%nat ->
    k (rev suf ++ pre) [] cs = Some x ->
    rep_loop (m U fl (Cls items)) true fuel lo None pre suf cs k = Some x.
Proof.
  set (ma := m U fl (Cls items)).
  assert (Hnil : forall pre cs k, ma pre [] cs k = None) by reflexivity.
  assert (Hcons : forall pre c suf cs k,
             existsb (in_cls U fl c) items = true ->
             ma pre (c :: suf) cs k = k (c :: pre) suf cs)
    by (intros pre c suf cs k Hc; unfold ma; simpl; now rewrite Hc).
  clearbody ma.
  induction suf as [|c suf IH]; intros fuel lo pre cs k x HP Hf Hlo Hk.
  - destruct fuel as [|fuel]; [simpl in Hf; lia|].
    assert (lo = 0%nat) by (simpl in Hlo; lia). subst lo.
    simpl. rewrite Hnil. exact Hk.
  - destruct fuel as [|fuel]; [simpl in Hf; lia|].
    inversion HP as [|? ? Hc Hs]; subst.
    simpl. rewrite Hcons by exact Hc.
    replace (match lo with
             | O => Nat.eqb (length suf) (S (length suf))
             | S _ => false
             end) with false
      by (destruct lo; [symmetry; apply Nat.eqb_neq; lia | reflexivity]).
    rewrite (IH fuel (Nat.pred lo) (c :: pre) cs k x); auto.
    + simpl in Hf. lia.
    + simpl in Hlo. lia.
    + simpl in Hk. now rewrite <- app_assoc in Hk.
Qed.

End MatcherFacts.

(** *** The fuel of the matcher is never used up *)

Section MatcherFuel.

Import Props.

Variable U : Unicode.
Variable fl : flags.

Lemma agree_upto_le (n n' : nat) (k1 k2 : cont) :
  (n' <= n)%nat -> agree_upto n k1 k2 -> agree_upto n' k1 k2.
Proof. intros Hn H p s c Hs. apply H. lia. Qed.

Lemma rep_loop_local ma (greedy : bool) :
  local ma ->
  forall fuel lo hi pre suf cs k1 k2,
    agree_upto (length suf) k1 k2 ->
    rep_loop ma greedy fuel lo hi pre suf cs k1
    = rep_loop ma greedy fuel lo hi pre suf cs k2.
Proof.
  intros Hma. induction fuel as [|fuel IH];
    intros lo hi pre suf cs k1 k2 Hk; [reflexivity|].
  cbn [rep_loop].
  assert (Hmore :
    ma pre suf cs
      (fun pre' suf' cs' =>
         if match lo with
            | O => Nat.eqb (length suf') (length suf)
            | S _ => false
            end
         then None
         else rep_loop ma greedy fuel (Nat.pred lo) (option_map Nat.pred hi)
                pre' suf' cs' k1)
    = ma pre suf cs
      (fun pre' suf' cs' =>
         if match lo with
            | O => Nat.eqb (length suf') (length suf)
            | S _ => false
            end
         then None
         else rep_loop ma greedy fuel (Nat.pred lo) (option_map Nat.pred hi)
                pre' suf' cs' k2)).
  { apply Hma. intros p s c Hs.
    destruct (match lo with
              | O => Nat.eqb (length s) (length suf)
              | S _ => false
              end); [reflexivity|].
    apply IH. eapply agree_upto_le; [exact Hs | exact Hk]. }
  rewrite Hmore. rewrite (Hk pre suf cs (le_n _)). reflexivity.
Qed.

Lemma m_local (r : re) : local (m U fl r).
Proof.
  induction r as [|d| |items|a IHa b IHb|a IHa b IHb|lo hi g a IHa| | |
                  |i a IHa];
    intros pre suf cs k1 k2 Hk; cbn [m].
  - apply Hk. lia.
  - destruct suf as [|c suf]; [reflexivity|].
    rewrite (Hk (c :: pre) suf cs) by (simpl; lia). reflexivity.
  - destruct suf as [|c suf]; [reflexivity|].
    rewrite (Hk (c :: pre) suf cs) by (simpl; lia). reflexivity.
  - destruct suf as [|c suf]; [reflexivity|].
    rewrite (Hk (c :: pre) suf cs) by (simpl; lia). reflexivity.
  - apply IHa. intros p s c Hs. apply IHb.
    eapply agree_upto_le; [exact Hs | exact Hk].
  - rewrite (IHa pre suf cs k1 k2 Hk), (IHb pre suf cs k1 k2 Hk).
    reflexivity.
  - apply rep_loop_local; [exact IHa | exact Hk].
  - rewrite (Hk pre suf cs (le_n _)). reflexivity.
  - rewrite (Hk pre suf cs (le_n _)). reflexivity.
  - rewrite (Hk pre suf cs (le_n _)). reflexivity.
  - apply IHa. intros p s c Hs. apply Hk. exact Hs.
Qed.

(** From [lo + length suf + 1] on, more fuel changes nothing: the bound
    that [m] gives a repetition is enough. *)
Lemma rep_loop_fuel ma (greedy : bool) :
  local ma ->
  forall fuel lo hi pre suf cs k,
    (lo + length suf + 1 <= fuel)%nat ->
    rep_loop ma greedy fuel lo hi pre suf cs k
    = rep_loop ma greedy (S fuel) lo hi pre suf cs k.
Proof.
  intros Hma. induction fuel as [|fuel IH];
    intros lo hi pre suf cs k Hf; [lia|].
  cbn [rep_loop].
  assert (Hmore :
    ma pre suf cs
      (fun pre' suf' cs' =>
         if match lo with
            | O => Nat.eqb (length suf') (length suf)
            | S _ => false
            end
         then None
         else rep_loop ma greedy fuel (Nat.pred lo) (option_map Nat.pred hi)
                pre' suf' cs' k)
    = ma pre suf cs
      (fun pre' suf' cs' =>
         if match lo with
            | O => Nat.eqb (length suf') (length suf)
            | S _ => false
            end
         then None
         else rep_loop ma greedy (S fuel) (Nat.pred lo)
                (option_map Nat.pred hi) pre' suf' cs' k)).
  { apply Hma. intros p s c Hs.
    destruct lo as [|lo].
    - destruct (Nat.eqb (length s) (length suf)) eqn:E; [reflexivity|].
      apply Nat.eqb_neq in E. apply IH. simpl. lia.
    - apply IH. simpl. lia. }
  cbn [rep_loop] in Hmore. rewrite Hmore. reflexivity.
Qed.

Lemma rep_fuel_enough (lo : nat) (hi : option nat) (greedy : bool) (a : re)
    (pre suf : list Z) (cs : captures) (k : cont) (extra : nat) :
  rep_loop (m U fl a) greedy (lo + length suf + 1 + extra) lo hi pre suf cs k
  = m U fl (Rep lo hi greedy a) pre suf cs k.
Proof.
  cbn [m]. induction extra as [|extra IH].
  - now rewrite Nat.add_0_r.
  - rewrite Nat.add_succ_r. rewrite <- rep_loop_fuel; [exact IH| |lia].
    apply m_local.
Qed.

(** A match is what the continuation gives at a position further on. *)
Lemma rep_loop_yields ma (greedy : bool) :
  yields ma ->
  forall fuel lo hi, yields (rep_loop ma greedy fuel lo hi).
Proof.
  intros Hma. induction fuel as [|fuel IH];
    intros lo hi pre suf cs k res H; [discriminate|].
  cbn [rep_loop] in H. cbv beta zeta in H.
  assert (Hmore : forall K,
    K = (fun pre' suf' cs' =>
           if match lo with
              | O => Nat.eqb (length suf') (length suf)
              | S _ => false
              end
           then None
           else rep_loop ma greedy fuel (Nat.pred lo)
                  (option_map Nat.pred hi) pre' suf' cs' k) ->
    ma pre suf cs K = Some res ->
    exists p s c, (length s <= length suf)%nat /\ k p s c = Some res).
  { intros K -> HK. destruct (Hma _ _ _ _ _ HK) as (p & s & c & Hs & E).
    destruct (match lo with
              | O => Nat.eqb (length s) (length suf)
              | S _ => false
              end); [discriminate|].
    destruct (IH _ _ _ _ _ _ _ E) as (p' & s' & c' & Hs' & E').
    exists p', s', c'. split; [lia | exact E']. }
  assert (Hstop :
    match lo with O => k pre suf cs | S _ => None end = Some res ->
    exists p s c, (length s <= length suf)%nat /\ k p s c = Some res).
  { destruct lo; [|discriminate]. intros E.
    exists pre, suf, cs. split; [lia | exact E]. }
  assert (Hm : forall x : option result,
             match hi with Some O => None | _ => x end = Some res ->
             x = Some res)
    by (intros x; destruct hi as [[|?]|]; [discriminate | auto | auto]).
  destruct greedy.
  - match type of H with
    | context [ma pre suf cs ?K] =>
        destruct (match hi with Some O => None | _ => ma pre suf cs K end)
          as [r|] eqn:E;
        [injection H as <-; apply Hm in E;
         eapply Hmore; [reflexivity | exact E]
        | now apply Hstop]
    end.
  - destruct (match lo with O => k pre suf cs | S _ => None end) as [r|]
      eqn:E; [injection H as <-; now apply Hstop|].
    apply Hm in H. eapply Hmore; [reflexivity | exact H].
Qed.

Lemma m_yields (r : re) : yields (m U fl r).
Proof.
  induction r as [|d| |items|a IHa b IHb|a IHa b IHb|lo hi g a IHa| | |
                  |i a IHa];
    intros pre suf cs k res H; cbn [m] in H.
  - exists pre, suf, cs. split; [lia | exact H].
  - destruct suf as [|c suf]; [discriminate|].
    destruct (if ignoreCase fl then canon c =? canon d else c =? d);
      [|discriminate].
    exists (c :: pre), suf, cs. split; [simpl; lia | exact H].
  - destruct suf as [|c suf]; [discriminate|].
    destruct (is_line_terminator c); [discriminate|].
    exists (c :: pre), suf, cs. split; [simpl; lia | exact H].
  - destruct suf as [|c suf]; [discriminate|].
    destruct (existsb (in_cls U fl c) items); [|discriminate].
    exists (c :: pre), suf, cs. split; [simpl; lia | exact H].
  - destruct (IHa _ _ _ _ _ H) as (p & s & c & Hs & E).
    destruct (IHb _ _ _ _ _ E) as (p' & s' & c' & Hs' & E').
    exists p', s', c'. split; [lia | exact E'].
  - destruct (m U fl a pre suf cs k) eqn:E.
    + injection H as <-. now apply (IHa _ _ _ _ _ E).
    + now apply (IHb _ _ _ _ _ H).
  - now apply (@rep_loop_yields _ g IHa _ _ _ _ _ _ _ _ H).
  - destruct (at_bol fl pre); [|discriminate].
    exists pre, suf, cs. split; [lia | exact H].
  - destruct (at_eol fl suf); [|discriminate].
    exists pre, suf, cs. split; [lia | exact H].
  - destruct (xorb (word_before pre) (word_after suf)); [|discriminate].
    exists pre, suf, cs. split; [lia | exact H].
  - destruct (IHa _ _ _ _ _ H) as (p & s & c & Hs & E).
    exists p, s, ((i, firstn (length suf - length s) suf) :: c).
    split; [exact Hs | exact E].
Qed.

Lemma match_at_end (r : re) (pre suf epre esuf : list Z) (cs : captures) :
  match_at U fl r pre suf = Some (epre, esuf, cs) ->
  (length esuf <= length suf)%nat.
Proof.
  intros H. destruct (m_yields _ _ _ _ _ H) as (p & s & c & Hs & E).
  unfold accept in E. injection E as <- <- <-. exact Hs.
Qed.

Lemma search_end (r : re) :
  forall suf pre spre ssuf epre esuf cs,
    search U fl r pre suf = Some (spre, ssuf, (epre, esuf, cs)) ->
    (length ssuf <= length suf)%nat /\ (length esuf <= length ssuf)%nat.
Proof.
  induction suf as [|x suf IH]; intros pre spre ssuf epre esuf cs H;
    cbn [search] in H;
    destruct (match_at U fl r pre _) as [[[e1 e2] e3]|] eqn:E;
    try discriminate.
  - injection H as <- <- <- <- <-. split; [lia|].
    now apply (match_at_end _ _ _ E).
  - injection H as <- <- <- <- <-. split; [lia|].
    now apply (match_at_end _ _ _ E).
  - destruct (IH _ _ _ _ _ _ H) as [H1 H2]. split; [simpl; lia | exact H2].
Qed.

(** [replace] never runs out of fuel: any fuel above the length of the
    text gives the same result. *)
Lemma replace_loop_fuel (r : re) (by_ : list Z) :
  forall f1 f2 suf pre,
    (length suf < f1)%nat -> (length suf < f2)%nat ->
    replace_loop U fl f1 r by_ pre suf = replace_loop U fl f2 r by_ pre suf.
Proof.
  induction f1 as [|f1 IH]; intros f2 suf pre H1 H2; [lia|].
  destruct f2 as [|f2]; [lia|]. cbn [replace_loop].
  destruct (search U fl r pre suf) as [[[spre ssuf] [[epre esuf] cs]]|] eqn:E;
    [|reflexivity].
  destruct (search_end _ _ _ E) as [Hs He].
  destruct (global fl); [|reflexivity].
  destruct (Nat.eqb (length esuf) (length ssuf)) eqn:El.
  - destruct esuf as [|c rest]; [reflexivity|].
    rewrite (IH f2 rest (c :: epre)); [reflexivity| |]; simpl in *; lia.
  - apply Nat.eqb_neq in El.
    rewrite (IH f2 esuf epre); [reflexivity| |]; lia.
Qed.

End MatcherFuel.

(* ------------------------------------------------------------------ *)
(** ** Classifier: the claims                                          *)
(* ------------------------------------------------------------------ *)

Ltac zbool :=
  repeat match goal with
  | H : _ || _ = true |- _ => apply orb_true_iff in H; destruct H
  | H : _ && _ = true |- _ => apply andb_true_iff in H; destruct H
  | H : (_ <=? _) = true |- _ => apply Z.leb_le in H
  | H : (_ =? _) = true |- _ => apply Z.eqb_eq in H
  | H : _ && _ = false |- _ => apply andb_false_iff in H; destruct H
  | H : (_ <=? _) = false |- _ => apply Z.leb_gt in H
  | H : (_ =? _) = false |- _ => apply Z.eqb_neq in H
  end.

Section ClassifierClaims.

Import IntentClassifier Props.

Variable U : Unicode.

(** C6.  [classifyIntent] yields a result for every string, with a
    confidence in the closed interval [0,1] and a non-empty reason. *)
Theorem classifyIntent_result_invariant (message : jsstring) :
  exists r,
    classifyIntent U message = r
    /\ PrimFloat.leb 0 (confidence r) = true
    /\ PrimFloat.leb (confidence r) 1 = true
    /\ reason r <> [].
Proof.
  eexists. split; [reflexivity|].
  rewrite classifyIntent_by_stage.
  assert (Hf : in_unit (flagship_confidence
                 (count_matches U FLAGSHIP_PATTERNS (trim message))) = true)
    by (apply flagship_confidence_in_unit;
        apply (count_matches_le U FLAGSHIP_PATTERNS)).
  assert (Hc : in_unit (complex_confidence
                 (complexScore U (trim message))) = true)
    by (apply complex_confidence_in_unit;
        apply (count_matches_le U COMPLEX_PATTERNS)).
  apply andb_true_iff in Hf, Hc.
  destruct (decidingStage U message);
    cbn [stageResult confidence reason outcome];
    (split; [|split]);
    try apply Hf; try apply Hc;
    try reflexivity;
    intros H; apply (f_equal (@length Z)) in H; discriminate H.
Qed.

(** C7, as the code has it.  The trace is decided by the deciding
    stage: nothing for an empty message; the one matched entry of the
    stage for a decision by the explicit, trivial-pattern or very-short
    stage (the unmatched checks before it leave no entry); from the
    flagship stage on, one entry per flagship pattern, matched or not;
    from the complex stage on, also one entry per complex pattern,
    matched or not, and one entry per heuristic that fired; then the
    matched entry of the simple-pattern or short-message stage if it
    decides, and nothing more for the default.  No entry belongs to a
    stage after the deciding one. *)
Theorem classifyIntent_trace (message : jsstring) :
  let trimmed := trim message in
  let reached_complex :=
    flagship_entries U trimmed ++ complex_entries U trimmed
    ++ heuristics U trimmed in
  signals (classifyIntent U message)
  = match decidingStage U message with
    | SEmpty => []
    | SExplicit => [signal (str "explicit_model_request") 1.0 true]
    | STrivial => [signal (str "trivial_pattern") 1.0 true]
    | SVeryShort => [signal (str "very_short") 0.8 true]
    | SFlagship => flagship_entries U trimmed
    | SComplex => reached_complex
    | SSimplePattern =>
        reached_complex ++ [signal (str "simple_pattern") 0.7 true]
    | SShort =>
        reached_complex ++ [signal (str "short_no_complexity") 0.6 true]
    | SDefault => reached_complex
    end
  /\ map matched (flagship_entries U trimmed)
     = map (fun p => test U p trimmed) FLAGSHIP_PATTERNS
  /\ map matched (complex_entries U trimmed)
     = map (fun p => test U p trimmed) COMPLEX_PATTERNS
  /\ Forall (fun sg => matched sg = true) (heuristics U trimmed).
Proof.
  cbv zeta. split; [|split; [|split]].
  - rewrite classifyIntent_by_stage.
    destruct (decidingStage U message); reflexivity.
  - unfold flagship_entries, pattern_entries. rewrite map_map. reflexivity.
  - unfold complex_entries, pattern_entries. rewrite map_map. reflexivity.
  - unfold heuristics, heuristic_entries.
    destruct (isLong U (trim message)), (isMedium U (trim message)),
      (hasCodeBlock U (trim message)),
      (hasMultipleQuestions U (trim message)),
      (hasNumberedList U (trim message)); simpl;
      repeat constructor.
Qed.

(** *** Messages of digits and whitespace *)

Lemma digit_or_space_not (c d : Z) :
  digit_or_space c -> d = 47 \/ d = 117 \/ d = 115 ->
  (canon c =? canon d) = false.
Proof.
  unfold digit_or_space, is_digit, is_space, canon.
  intros H Hd. apply Z.eqb_neq.
  destruct ((97 <=? c) && (c <=? 122)) eqn:E; zbool;
    destruct Hd as [-> | [-> | ->]]; simpl; lia.
Qed.

Lemma digit_or_space_no_surrogate (c : Z) :
  digit_or_space c -> is_high c = false.
Proof.
  unfold digit_or_space, is_digit, is_space, is_high. intros H.
  apply andb_false_iff. zbool; try (left; apply Z.leb_gt; lia);
    right; apply Z.leb_gt; lia.
Qed.

(** A pattern without [u] that begins, after [^] or [\b], with one of
    the characters [/], [u], [s] finds nothing in digits and spaces. *)
Lemma test_assert_lit (p : RegExp) (a : re) (d : Z) (x y : re)
    (s : jsstring) :
  pattern p = Cat a (Cat (Cat (Lit d) x) y) ->
  rflags p = flag_i ->
  a = Bol \/ a = WordB ->
  d = 47 \/ d = 117 \/ d = 115 ->
  Forall digit_or_space s ->
  test U p s = false.
Proof.
  intros Hp Hfl Ha Hd Hs. unfold test, input_of.
  rewrite Hp, Hfl. cbn [unicode flag_i].
  rewrite (@search_none U flag_i _ digit_or_space); [reflexivity| |exact Hs].
  intros pre suf Hsuf. unfold match_at.
  apply m_assert_lit_fails; [exact Ha|].
  destruct suf as [|c suf]; simpl; [exact I|].
  inversion Hsuf; subst. now apply digit_or_space_not.
Qed.

Lemma explicit_not_in_digits (s : jsstring) :
  Forall digit_or_space s ->
  some_pattern_matches U EXPLICIT_MODEL_PATTERNS s = false.
Proof.
  intros Hs. unfold some_pattern_matches, EXPLICIT_MODEL_PATTERNS.
  cbn [existsb].
  erewrite (@test_assert_lit _ Bol 47);
    [ | cbv; reflexivity | reflexivity | auto | auto | exact Hs ].
  erewrite (@test_assert_lit _ WordB 117);
    [ | cbv; reflexivity | reflexivity | auto | auto | exact Hs ].
  erewrite (@test_assert_lit _ WordB 115);
    [ | cbv; reflexivity | reflexivity | auto | auto | exact Hs ].
  reflexivity.
Qed.

(** [/^[\p{Emoji}\s]+$/u] matches every non-empty string of digits and
    spaces, when the digits have the Emoji property. *)
Lemma emoji_only_matches_digits (s : jsstring) :
  (forall c, is_digit c = true -> Emoji U c = true) ->
  Forall digit_or_space s -> s <> [] ->
  test U (nth 1 TRIVIAL_PATTERNS (rx "" no_flags Eps)) s = true.
Proof.
  intros HE Hs Hne. unfold test, input_of. cbn [nth TRIVIAL_PATTERNS].
  cbn [rx rflags pattern unicode flag_u].
  rewrite codePoints_no_surrogate
    by (eapply Forall_impl; [|exact Hs];
        intros; now apply digit_or_space_no_surrogate).
  erewrite search_here; [reflexivity|].
  unfold match_at, seq, plus. cbn [fold_right].
  cbn [m at_bol].
  apply rep_loop_cls_all.
  - eapply Forall_impl; [|exact Hs]. intros c Hc. cbn [existsb in_cls].
    unfold digit_or_space in Hc. apply orb_true_iff in Hc.
    destruct Hc as [Hc|Hc]; [rewrite (HE c Hc) | rewrite Hc];
      now rewrite ?orb_true_r.
  - lia.
  - destruct s; [congruence | simpl; lia].
  - reflexivity.
Qed.

(** C10, as the code has it.  A message of ASCII digits and whitespace
    with at least one digit is classified trivial with confidence 0.95
    by the trivial-pattern stage, the digits having the Emoji
    property. *)
Theorem digits_classify_trivial (message : jsstring) :
  (forall c, is_digit c = true -> Emoji U c = true) ->
  Forall digit_or_space message ->
  Exists (fun c => is_digit c = true) message ->
  classifyIntent U message
  = outcome trivial 0.95 (str "trivial pattern match")
      [signal (str "trivial_pattern") 1.0 true].
Proof.
  intros HE Hs Hd.
  assert (Htrim : Forall digit_or_space (trim message)).
  { apply Forall_forall. intros c Hc. apply trim_incl in Hc.
    revert c Hc. now apply Forall_forall. }
  assert (Hne : trim message <> []).
  { apply Exists_exists in Hd. destruct Hd as (c & Hin & Hc).
    assert (Hsp : is_space c = false).
    { unfold is_digit in Hc. unfold is_space.
      zbool. repeat (apply orb_false_iff; split);
        try (apply andb_false_iff; left; apply Z.leb_gt; lia);
        try (apply Z.eqb_neq; lia).
      apply andb_false_iff; right; apply Z.leb_gt; lia. }
    pose proof (trim_keeps message c Hin Hsp) as H.
    intros E. rewrite E in H. exact H. }
  unfold classifyIntent. cbv zeta.
  replace (Nat.eqb (length (trim message)) 0) with false
    by (destruct (trim message); [congruence | reflexivity]).
  rewrite (explicit_not_in_digits Htrim).
  replace (some_pattern_matches U TRIVIAL_PATTERNS (trim message))
    with true; [reflexivity|].
  symmetry. apply existsb_exists.
  exists (nth 1 TRIVIAL_PATTERNS (rx "" no_flags Eps)). split.
  - right. left. reflexivity.
  - now apply emoji_only_matches_digits.
Qed.

End ClassifierClaims.

Section ClassifierExamples.

Import IntentClassifier Props.

(** The message [" 4 2 "] on the ASCII tables. *)
Lemma digits_classify_trivial_witness :
  classifyIntent ascii_unicode (str " 4 2 ")
  = outcome trivial 0.95 (str "trivial pattern match")
      [signal (str "trivial_pattern") 1.0 true].
Proof.
  apply digits_classify_trivial.
  - intros c Hc. simpl. unfold ascii_emoji. rewrite Hc.
    now rewrite !orb_true_r.
  - repeat constructor.
  - right. left. reflexivity.
Defined.

(** C10 as stated fails on a message of one space: it is not empty and
    holds only digits and whitespace, and the empty-message stage
    decides, with confidence 1.0. *)
Lemma digits_classify_counterexample :
  str " " <> []
  /\ Forall digit_or_space (str " ")
  /\ intent (classifyIntent ascii_unicode (str " ")) = trivial
  /\ confidence (classifyIntent ascii_unicode (str " ")) = 1.0%float
  /\ reason (classifyIntent ascii_unicode (str " ")) = str "empty message"
  /\ classifyIntent ascii_unicode (str " ")
     <> outcome trivial 0.95 (str "trivial pattern match")
          [signal (str "trivial_pattern") 1.0 true].
Proof.
  split; [discriminate|].
  split; [repeat constructor|].
  repeat split; try (vm_compute; reflexivity).
  intros H. apply (f_equal reason) in H. vm_compute in H. discriminate.
Qed.

(** C7 as stated fails on ["hi"]: the three explicit-model checks run
    and do not match, the first trivial pattern matches, and the trace
    holds the matched entry alone. *)
Lemma classifyIntent_trace_counterexample :
  testsRun ascii_unicode EXPLICIT_MODEL_PATTERNS (trim (str "hi"))
  = [false; false; false]
  /\ testsRun ascii_unicode TRIVIAL_PATTERNS (trim (str "hi")) = [true]
  /\ signals (classifyIntent ascii_unicode (str "hi"))
     = [signal (str "trivial_pattern") 1.0 true]
  /\ signals (classifyIntent ascii_unicode (str "")) = [].
Proof. repeat split; vm_compute; reflexivity. Qed.

End ClassifierExamples.

(* ------------------------------------------------------------------ *)
(** ** Prompt adapter: blank-line runs                                 *)
(* ------------------------------------------------------------------ *)

Section NewlineRuns.

Import Props.

Lemma newlines_ok_three (s : jsstring) (k : nat) :
  starts_with [NL; NL; NL] s = true -> newlines_ok k s = false.
Proof.
  destruct s as [|a [|b [|c s]]]; cbn [starts_with newlines_ok];
    rewrite ?(Z.eqb_sym NL);
    repeat match goal with
           | |- context [?x =? NL] => destruct (x =? NL)
           end;
    try (intros H; discriminate H).
  intros _. destruct k as [|[|k]]; reflexivity.
Qed.

Lemma newlines_ok_includes (s : jsstring) :
  forall k, newlines_ok k s = true -> includes s [NL; NL; NL] = false.
Proof.
  induction s as [|c s IH]; intros k H; [reflexivity|].
  cbn [includes].
  destruct (starts_with [NL; NL; NL] (c :: s)) eqn:E.
  - rewrite (newlines_ok_three _ k E) in H. discriminate.
  - simpl in H. destruct (c =? NL).
    + apply andb_true_iff in H. destruct H as [_ H]. now apply (IH _ H).
    + now apply (IH _ H).
Qed.

Lemma newlines_ok_app (a b : jsstring) :
  forall k,
    newlines_ok k (a ++ b)
    = newlines_ok k a && newlines_ok (trailing_newlines k a) b.
Proof.
  induction a as [|c a IH]; intros k; simpl; [reflexivity|].
  destruct (c =? NL).
  - rewrite IH. now rewrite andb_assoc.
  - apply IH.
Qed.


Lemma newlines_ok_after_text (s : jsstring) (k : nat) :
  nl_run s = 0%nat -> newlines_ok k s = newlines_ok 0 s.
Proof.
  destruct s as [|c s]; [reflexivity|]. simpl.
  destruct (c =? NL); [discriminate | reflexivity].
Qed.



Lemma nl_run_split (s : jsstring) :
  s = repeat NL (nl_run s) ++ skipn (nl_run s) s.
Proof.
  induction s as [|c s IH]; [reflexivity|]. simpl.
  destruct (c =? NL) eqn:E; [|reflexivity].
  apply Z.eqb_eq in E. subst c. simpl. now rewrite <- IH.
Qed.

Lemma nl_run_skipn (s : jsstring) : nl_run (skipn (nl_run s) s) = 0%nat.
Proof.
  induction s as [|c s IH]; [reflexivity|]. simpl.
  destruct (c =? NL) eqn:E; [exact IH|]. simpl. now rewrite E.
Qed.

Lemma nl_run_le (s : jsstring) : (nl_run s <= length s)%nat.
Proof.
  induction s as [|c s IH]; simpl; [lia|].
  destruct (c =? NL); lia.
Qed.

End NewlineRuns.

Section BlankRunReplace.

Import Props PromptAdapter.

Variable U : Unicode.

(** The greedy repetition of a newline takes the whole run. *)
Lemma rep_loop_newlines :
  forall suf fuel lo pre cs,
    (length suf < fuel)%nat ->
    rep_loop (m U flag_g (Lit NL)) true fuel lo None pre suf cs accept
    = if Nat.leb lo (nl_run suf)
      then Some (rev (firstn (nl_run suf) suf) ++ pre,
                 skipn (nl_run suf) suf, cs)
      else None.
Proof.
  set (ma := m U flag_g (Lit NL)).
  assert (Hnil : forall pre cs k, ma pre [] cs k = None) by reflexivity.
  assert (Hcons : forall pre c suf cs k,
             ma pre (c :: suf) cs k
             = if c =? NL then k (c :: pre) suf cs else None)
    by reflexivity.
  clearbody ma.
  induction suf as [|c suf IH]; intros fuel lo pre cs Hf;
    (destruct fuel as [|fuel]; [simpl in Hf; lia|]).
  - simpl. rewrite Hnil. destruct lo; reflexivity.
  - cbn [rep_loop nl_run]. rewrite Hcons.
    destruct (c =? NL) eqn:E.
    + replace (match lo with
               | O => Nat.eqb (length suf) (length (c :: suf))
               | S _ => false
               end) with false
        by (destruct lo; [symmetry; apply Nat.eqb_neq; simpl; lia
                         | reflexivity]).
      rewrite IH by (simpl in Hf; lia). cbn [option_map].
      destruct lo as [|lo]; cbn [Nat.pred Nat.leb].
      * cbn [firstn skipn rev]. now rewrite <- app_assoc.
      * destruct (Nat.leb lo (nl_run suf)); [|reflexivity].
        cbn [firstn skipn rev]. now rewrite <- app_assoc.
    + destruct lo; reflexivity.
Qed.

Lemma match_at_blank_run (pre suf : list Z) :
  match_at U flag_g (pattern BLANK_RUN) pre suf
  = if Nat.leb 3 (nl_run suf)
    then Some (rev (firstn (nl_run suf) suf) ++ pre,
               skipn (nl_run suf) suf, [])
    else None.
Proof.
  unfold match_at. cbn [BLANK_RUN rx IntentClassifier.rx pattern at_least m].
  apply rep_loop_newlines. lia.
Qed.

(** Where the leftmost run of three newlines stands: what lies before it
    has no such run and does not end the text with a newline. *)
Lemma search_blank_run_none :
  forall suf pre k,
    search U flag_g (pattern BLANK_RUN) pre suf = None ->
    (k = 0 \/ k + nl_run suf < 3)%nat ->
    newlines_ok k suf = true.
Proof.
  induction suf as [|c suf IH]; intros pre k Hs Hk; [reflexivity|].
  cbn [search] in Hs. rewrite match_at_blank_run in Hs.
  destruct (Nat.leb 3 (nl_run (c :: suf))) eqn:E3; [discriminate|].
  apply Nat.leb_gt in E3. simpl in *.
  destruct (c =? NL).
  - apply andb_true_iff. split; [apply Nat.ltb_lt; lia|].
    apply (IH (c :: pre)); [exact Hs | lia].
  - apply (IH (c :: pre)); [exact Hs | now left].
Qed.

Lemma search_blank_run_some :
  forall suf pre spre ssuf epre esuf cs,
    search U flag_g (pattern BLANK_RUN) pre suf
    = Some (spre, ssuf, (epre, esuf, cs)) ->
    exists skipped,
      suf = skipped ++ ssuf
      /\ (length esuf + 3 <= length ssuf)%nat
      /\ nl_run esuf = 0%nat
      /\ forall k, (k = 0 \/ k + nl_run suf < 3)%nat ->
           newlines_ok k skipped = true
           /\ trailing_newlines k skipped = 0%nat.
Proof.
  induction suf as [|c suf IH]; intros pre spre ssuf epre esuf cs Hs.
  - cbn [search] in Hs. rewrite match_at_blank_run in Hs.
    simpl in Hs. discriminate.
  - cbn [search] in Hs. rewrite match_at_blank_run in Hs.
    destruct (Nat.leb 3 (nl_run (c :: suf))) eqn:E3.
    + injection Hs as <- <- <- <- <-. exists []. apply Nat.leb_le in E3.
      split; [reflexivity|]. split; [|split].
      * rewrite length_skipn. pose proof (nl_run_le (c :: suf)).
        simpl in *. destruct (c =? NL); lia.
      * exact (nl_run_skipn (c :: suf)).
      * intros k [-> | Hk]; [split; reflexivity | lia].
    + apply Nat.leb_gt in E3.
      destruct (IH _ _ _ _ _ _ Hs) as (sk & Hsuf & Hlen & Hrun & Hok).
      exists (c :: sk). split; [simpl; now rewrite <- Hsuf|].
      split; [exact Hlen|]. split; [exact Hrun|].
      intros k Hk. simpl in *. destruct (c =? NL).
      * destruct (Hok (S k)) as [H1 H2]; [lia|].
        split; [|exact H2].
        apply andb_true_iff. split; [apply Nat.ltb_lt; lia | exact H1].
      * apply Hok. now left.
Qed.

Lemma replace_loop_blank_run :
  forall fuel suf pre k,
    (length suf < fuel)%nat ->
    (k = 0 \/ k + nl_run suf < 3)%nat ->
    newlines_ok k
      (replace_loop U flag_g fuel (pattern BLANK_RUN) [NL; NL] pre suf)
    = true.
Proof.
  induction fuel as [|fuel IH]; intros suf pre k Hf Hk; [lia|].
  cbn [replace_loop].
  destruct (search U flag_g (pattern BLANK_RUN) pre suf)
    as [[[spre ssuf] [[epre esuf] cs]]|] eqn:Es.
  - destruct (search_blank_run_some _ _ Es)
      as (sk & Hsuf & Hlen & Hrun & Hok).
    destruct (Hok k Hk) as [H1 H2].
    assert (Hsk : firstn (length suf - length ssuf) suf = sk).
    { rewrite Hsuf at 2. rewrite Hsuf at 1. rewrite length_app.
      replace (length sk + length ssuf - length ssuf)%nat
        with (length sk) by lia.
      rewrite firstn_app, Nat.sub_diag, firstn_all. simpl.
      apply app_nil_r. }
    rewrite Hsk. cbn [global flag_g].
    replace (Nat.eqb (length esuf) (length ssuf)) with false
      by (symmetry; apply Nat.eqb_neq; lia).
    rewrite newlines_ok_app, H1, H2. cbn [andb app newlines_ok].
    replace (NL =? NL) with true by reflexivity. cbn [Nat.ltb Nat.leb andb].
    apply IH.
    + rewrite Hsuf in Hf. rewrite length_app in Hf. lia.
    + right. lia.
  - apply (search_blank_run_none _ _ Es Hk).
Qed.

(** After [adapted.replace(/\n{3,}/g, "\n\n")] no run of three newlines
    is left. *)
Lemma replace_blank_run_ok (s : jsstring) :
  newlines_ok 0 (replace U BLANK_RUN [NL; NL] s) = true.
Proof.
  unfold replace, input_of, output_of.
  cbn [BLANK_RUN rx IntentClassifier.rx rflags unicode flag_g].
  apply replace_loop_blank_run; [lia | now left].
Qed.

End BlankRunReplace.

(* ------------------------------------------------------------------ *)
(** ** Prompt adapter: lines, core persona and the T1 suffix           *)
(* ------------------------------------------------------------------ *)

Section Lines.

Import Props.

Lemma split_nl_not_nil (s : jsstring) : split_nl s <> [].
Proof.
  destruct s as [|c s]; simpl; [discriminate|].
  destruct (c =? NL); [discriminate|].
  destruct (split_nl s); discriminate.
Qed.

Lemma split_nl_no_newline (s : jsstring) : Forall no_newline (split_nl s).
Proof.
  induction s as [|c s IH]; simpl.
  - constructor; [intros []|constructor].
  - destruct (c =? NL) eqn:E.
    + constructor; [intros []|exact IH].
    + destruct (split_nl s) as [|l ls].
      * constructor; [|constructor]. intros [H|[]].
        apply Z.eqb_neq in E. congruence.
      * inversion IH as [|? ? Hl Hls]; subst. constructor; [|exact Hls].
        intros [H|H]; [apply Z.eqb_neq in E; congruence | now apply Hl].
Qed.

Lemma join_split_nl (s : jsstring) : join_nl (split_nl s) = s.
Proof.
  induction s as [|c s IH]; [reflexivity|]. cbn [split_nl].
  pose proof (split_nl_not_nil s) as Hne.
  destruct (split_nl s) as [|l ls]; [congruence|].
  destruct (c =? NL) eqn:E.
  - apply Z.eqb_eq in E. subst c.
    change (join_nl ([] :: l :: ls)) with (NL :: join_nl (l :: ls)).
    now rewrite IH.
  - assert (H : join_nl ((c :: l) :: ls) = c :: join_nl (l :: ls))
      by (destruct ls; reflexivity).
    rewrite H. now rewrite IH.
Qed.

Lemma split_nl_line (l t : jsstring) :
  no_newline l -> split_nl (l ++ NL :: t) = l :: split_nl t.
Proof.
  induction l as [|c l IH]; intros Hl; [reflexivity|].
  cbn [app split_nl].
  replace (c =? NL) with false
    by (symmetry; apply Z.eqb_neq; intros ->; apply Hl; now left).
  rewrite IH by (intros H; apply Hl; now right). reflexivity.
Qed.

Lemma split_nl_single (l : jsstring) :
  no_newline l -> split_nl l = [l].
Proof.
  induction l as [|c l IH]; intros Hl; [reflexivity|].
  cbn [split_nl].
  replace (c =? NL) with false
    by (symmetry; apply Z.eqb_neq; intros ->; apply Hl; now left).
  rewrite IH by (intros H; apply Hl; now right). reflexivity.
Qed.

Lemma split_join_nl (ls : list jsstring) :
  ls <> [] -> Forall no_newline ls -> split_nl (join_nl ls) = ls.
Proof.
  induction ls as [|l ls IH]; intros Hne HP; [congruence|].
  inversion HP as [|? ? Hl Hls]; subst.
  destruct ls as [|l2 ls].
  - now apply split_nl_single.
  - change (join_nl (l :: l2 :: ls)) with (l ++ NL :: join_nl (l2 :: ls)).
    rewrite split_nl_line by exact Hl.
    rewrite IH by (auto; discriminate). reflexivity.
Qed.






End Lines.

Section CorePersona.

Import Props PromptAdapter.

Variable U : Unicode.

Lemma persona_fold (lines : list jsstring) :
  forall acc keep cnt,
    fst (fst (fold_left (persona_step U) lines (acc, keep, cnt)))
    = acc ++ persona_keep U keep cnt lines.
Proof.
  induction lines as [|l lines IH]; intros acc keep cnt.
  - simpl. now rewrite app_nil_r.
  - cbn [fold_left persona_keep]. unfold persona_step at 2. cbv zeta.
    destruct (test U SECTION_HEADER l);
      [destruct (Nat.leb (S cnt) 1 || isCoreTopic U l) | destruct keep];
      rewrite IH; try reflexivity;
      rewrite <- app_assoc; reflexivity.
Qed.

Lemma persona_keep_incl (lines : list jsstring) :
  forall keep cnt l, In l (persona_keep U keep cnt lines) -> In l lines.
Proof.
  induction lines as [|x lines IH]; intros keep cnt l; [auto|].
  cbn [persona_keep]. cbv zeta.
  match goal with
  | |- context [if ?c then x :: _ else _] => destruct c
  end; simpl; intros H.
  - destruct H as [H|H]; [now left | right; eapply IH; exact H].
  - right. eapply IH. exact H.
Qed.



End CorePersona.

Section TrimFacts.

Import Props.

Lemma trimStart_suffix (s : jsstring) : exists a, s = a ++ trimStart s.
Proof.
  induction s as [|c s [a IH]]; [now exists []|]. simpl.
  destruct (is_space c).
  - exists (c :: a). simpl. now rewrite <- IH.
  - now exists [].
Qed.

Lemma trimStart_head (s : jsstring) :
  match trimStart s with
  | [] => True
  | c :: _ => is_space c = false
  end.
Proof.
  induction s as [|c s IH]; simpl; [exact I|].
  destruct (is_space c) eqn:E; [exact IH | exact E].
Qed.

Lemma trimEnd_prefix (s : jsstring) : exists b, s = trimEnd s ++ b.
Proof.
  unfold trimEnd. destruct (trimStart_suffix (rev s)) as [a H].
  exists (rev a). rewrite <- rev_app_distr, <- H. now rewrite rev_involutive.
Qed.

Lemma trim_infix (s : jsstring) : exists a b, s = a ++ trim s ++ b.
Proof.
  unfold trim. destruct (trimStart_suffix s) as [a Ha].
  destruct (trimEnd_prefix (trimStart s)) as [b Hb].
  exists a, b. now rewrite <- Hb.
Qed.



End TrimFacts.

Section T1Output.

Import ModelTiers Props PromptAdapter.

Variable U : Unicode.



End T1Output.

(* ------------------------------------------------------------------ *)
(** ** Prompt adapter: exact-match header stripping                    *)
(* ------------------------------------------------------------------ *)

Section HeaderStripping.

Import ModelTiers Props PromptAdapter.

Variable U : Unicode.
Variable headers : list jsstring.

Lemma strip_fold (lines : list jsstring) :
  forall acc skipping,
    fst (fold_left (strip_step U headers) lines (acc, skipping))
    = acc ++ strip_keep U headers skipping lines.
Proof.
  induction lines as [|l lines IH]; intros acc skipping.
  - simpl. now rewrite app_nil_r.
  - cbn [fold_left strip_keep]. unfold strip_step at 2. cbn [fst snd].
    destruct (headerName U l) as [raw|];
      [destruct (has headers raw) | destruct skipping];
      rewrite IH; try reflexivity;
      rewrite <- app_assoc; reflexivity.
Qed.

Lemma strip_keep_incl (lines : list jsstring) :
  forall skipping l, In l (strip_keep U headers skipping lines) ->
                     In l lines.
Proof.
  induction lines as [|x lines IH]; intros skipping l; [auto|].
  cbn [strip_keep].
  destruct (headerName U x) as [raw|];
    [destruct (has headers raw) | destruct skipping];
    simpl; intros H;
    try (destruct H as [H|H]; [now left|]);
    right; eapply IH; exact H.
Qed.

Lemma strip_keep_app (a b : list jsstring) :
  forall skipping, exists skipping',
    strip_keep U headers skipping (a ++ b)
    = strip_keep U headers skipping a ++ strip_keep U headers skipping' b.
Proof.
  induction a as [|x a IH]; intros skipping.
  - exists skipping. reflexivity.
  - cbn [app strip_keep].
    destruct (headerName U x) as [raw|];
      [destruct (has headers raw) | destruct skipping];
      match goal with
      | |- context [strip_keep U headers ?sk (a ++ b)] =>
          destruct (IH sk) as [sk' E]; exists sk'; rewrite E; reflexivity
      end.
Qed.

(** No line that is kept is a header on the list. *)
Lemma strip_keep_kept (lines : list jsstring) :
  forall skipping l raw,
    In l (strip_keep U headers skipping lines) ->
    headerName U l = Some raw -> has headers raw = false.
Proof.
  induction lines as [|x lines IH]; intros skipping l raw; [intros []|].
  cbn [strip_keep].
  destruct (headerName U x) as [rx|] eqn:Ex;
    [destruct (has headers rx) eqn:Eh | destruct skipping];
    simpl; intros H Hl;
    try (destruct H as [<-|H]; [congruence|]);
    eapply IH; eassumption.
Qed.

(** Lines that are not headers are kept while nothing is skipped. *)
Lemma strip_keep_body (body rest : list jsstring) :
  Forall (fun l => headerName U l = None) body ->
  strip_keep U headers false (body ++ rest)
  = body ++ strip_keep U headers false rest.
Proof.
  induction 1 as [|l body Hl Hb IH]; [reflexivity|].
  cbn [app strip_keep]. rewrite Hl. now rewrite IH.
Qed.

(** With no header on the list nothing is dropped. *)
Lemma strip_keep_all (lines : list jsstring) :
  (forall l raw, In l lines -> headerName U l = Some raw ->
                 has headers raw = false) ->
  strip_keep U headers false lines = lines.
Proof.
  induction lines as [|l lines IH]; intros H; [reflexivity|].
  cbn [strip_keep].
  destruct (headerName U l) as [raw|] eqn:E.
  - rewrite (H l raw (or_introl eq_refl) E).
    rewrite IH; [reflexivity|].
    intros l0 raw0 Hin Hh. apply (H l0 raw0); [now right | exact Hh].
  - rewrite IH; [reflexivity|].
    intros l0 raw0 Hin Hh. apply (H l0 raw0); [now right | exact Hh].
Qed.

(** [stripSectionsByHeader] removes only sections whose normalized
    header is on the list: a section whose header line normalizes to a
    name that is not on it stays, header and body in one piece and in
    order, and a prompt none of whose headers is on the list comes back
    unchanged. *)
Lemma stripSectionsByHeader_exact (prompt : jsstring) :
  (forall pre h body rest raw,
      split_nl prompt = pre ++ h :: body ++ rest ->
      headerName U h = Some raw ->
      has headers raw = false ->
      Forall (fun l => headerName U l = None) body ->
      exists before after,
        split_nl (stripSectionsByHeader U prompt headers)
        = before ++ h :: body ++ after)
  /\ ((forall l raw, In l (split_nl prompt) -> headerName U l = Some raw ->
                     has headers raw = false) ->
      stripSectionsByHeader U prompt headers = prompt).
Proof.
  unfold stripSectionsByHeader. cbv zeta. split.
  - intros pre h body rest raw Hsplit Hh Hraw Hbody.
    rewrite strip_fold. cbn [app]. rewrite Hsplit.
    destruct (strip_keep_app pre (h :: body ++ rest) false) as [sk E].
    rewrite E. cbn [strip_keep]. rewrite Hh, Hraw.
    rewrite strip_keep_body by exact Hbody.
    exists (strip_keep U headers false pre),
           (strip_keep U headers false rest).
    apply split_join_nl.
    + destruct (strip_keep U headers false pre); discriminate.
    + rewrite <- strip_keep_body by exact Hbody.
      assert (Hk : strip_keep U headers false pre
                   ++ h :: strip_keep U headers false (body ++ rest)
                   = strip_keep U headers false (pre ++ h :: body ++ rest))
        by (rewrite E; cbn [strip_keep]; now rewrite Hh, Hraw).
      rewrite Hk. apply Forall_forall. intros l Hl.
      apply strip_keep_incl in Hl. rewrite <- Hsplit in Hl.
      revert l Hl. apply Forall_forall, split_nl_no_newline.
  - intros H. rewrite strip_fold. cbn [app].
    rewrite strip_keep_all by exact H. apply join_split_nl.
Qed.

Lemma headerName_blank : headerName U [] = None.
Proof. reflexivity. Qed.

(** After the stripping no line is a header on the list. *)
Lemma stripSectionsByHeader_none_listed (prompt l raw : jsstring) :
  In l (split_nl (stripSectionsByHeader U prompt headers)) ->
  headerName U l = Some raw -> has headers raw = false.
Proof.
  unfold stripSectionsByHeader. cbv zeta. rewrite strip_fold. cbn [app].
  destruct (strip_keep U headers false (split_nl prompt)) as [|x out] eqn:E.
  - simpl. intros [<-|[]]. rewrite headerName_blank. discriminate.
  - rewrite split_join_nl.
    + rewrite <- E. apply strip_keep_kept.
    + discriminate.
    + rewrite <- E. apply Forall_forall. intros y Hy.
      apply strip_keep_incl in Hy. revert y Hy.
      apply Forall_forall, split_nl_no_newline.
Qed.

End HeaderStripping.

Section T1Pipeline.

Import ModelTiers Props PromptAdapter.

Variable U : Unicode.

(** A replace whose pattern finds nothing gives the text back. *)
Lemma replace_no_match (p : RegExp) (by_ s : jsstring) :
  unicode (rflags p) = false ->
  test U p s = false ->
  replace U p by_ s = s.
Proof.
  unfold test, replace, input_of, output_of. intros -> H.
  cbn [replace_loop].
  destruct (search U (rflags p) (pattern p) [] s); [discriminate|reflexivity].
Qed.

Lemma stripBoilerplate_no_match (s : jsstring) :
  Forall (fun p => test U p s = false) BOILERPLATE_PHRASES ->
  stripBoilerplate U s = s.
Proof.
  unfold stripBoilerplate.
  assert (Hu : Forall (fun p => unicode (rflags p) = false)
                 BOILERPLATE_PHRASES) by (repeat constructor).
  revert Hu. generalize BOILERPLATE_PHRASES as ps.
  induction ps as [|p ps IH]; intros Hu H; [reflexivity|].
  inversion Hu; inversion H; subst. cbn [fold_left].
  rewrite replace_no_match by assumption. now apply IH.
Qed.




Lemma trimStart_app_text (a b : jsstring) (c : Z) :
  is_space c = false -> trimStart (a ++ c :: b) = trimStart a ++ c :: b.
Proof.
  intros Hc. induction a as [|x a IH]; simpl.
  - now rewrite Hc.
  - destruct (is_space x); [exact IH | reflexivity].
Qed.

Lemma trimEnd_app_text (x y : jsstring) (c : Z) :
  is_space c = false -> trimEnd (x ++ c :: y) = x ++ c :: trimEnd y.
Proof.
  intros Hc. unfold trimEnd.
  rewrite rev_app_distr. cbn [rev]. rewrite <- app_assoc. cbn [app].
  rewrite trimStart_app_text by exact Hc.
  rewrite rev_app_distr. cbn [rev].
  rewrite rev_involutive. now rewrite <- app_assoc.
Qed.




End T1Pipeline.

Section AdapterExamples.

Import ModelTiers Props PromptAdapter.




(** The four header lines named by the specification are headers with an
    allow-listed name, and so is a header with leading and trailing
    decoration. *)
Example listed_headers :
  map (fun l =>
         match headerName ascii_unicode (str l) with
         | Some raw => has STRIPPABLE_SECTION_HEADERS raw
         | None => false
         end)
      ["## Tools"; "## Heartbeats"; "## Group Chats";
       "## React Like a Human"; "### 42 Memory!!"; "# tool usage."]%string
  = [true; true; true; true; true; true].
Proof. vm_compute. reflexivity. Qed.

(** A header line that ends in a carriage return is no header for
    [stripSectionsByHeader]: [.] does not match a line terminator, and
    the section below it stays. *)
Example carriage_return_header :
  headerName ascii_unicode (str "## Tools" ++ [13]) = None
  /\ stripSectionsByHeader ascii_unicode
       (str "## Tools" ++ [13; NL] ++ str "use bash")
       STRIPPABLE_SECTION_HEADERS
     = str "## Tools" ++ [13; NL] ++ str "use bash".
Proof. split; vm_compute; reflexivity. Qed.

End AdapterExamples.

(* ------------------------------------------------------------------ *)
(** ** String equality                                                 *)
(* ------------------------------------------------------------------ *)

Section StringEquality.

Lemma Js_eqb_eq (a b : jsstring) : Js.eqb a b = true <-> a = b.
Proof.
  revert b. induction a as [|x a IH]; intros [|y b]; simpl;
    try (split; congruence).
  destruct (x =? y) eqn:E.
  - apply Z.eqb_eq in E. subst y. rewrite IH. split; congruence.
  - apply Z.eqb_neq in E. split; congruence.
Qed.

End StringEquality.

(* ------------------------------------------------------------------ *)
(** ** The tier table and the tier order                               *)
(* ------------------------------------------------------------------ *)

Section TierTable.

Import ModelTiers Config Router Props.

(** X1.  [TIER_ORDER] and [tierIndex] are inverse to each other: the
    array holds tier [t] at index [i] exactly when [tierIndex t] is
    [i]. *)
Theorem tierIndex_round_trip (t : ModelTierId) (i : Z) :
  at_index TIER_ORDER i = Some t <-> tierIndex t = i.
Proof.
  split.
  - unfold at_index. destruct (i <? 0) eqn:Hneg; [discriminate|].
    apply Z.ltb_ge in Hneg.
    rewrite <- (Z2Nat.id i Hneg) at 2.
    destruct (Z.to_nat i) as [|[|[|[|[|n]]]]]; simpl; intros H;
      try (injection H as <-; reflexivity).
    destruct n; discriminate.
  - intros <-. destruct t; reflexivity.
Qed.

Lemma tierIndex_inj (a b : ModelTierId) :
  tierIndex a = tierIndex b -> a = b.
Proof. destruct a, b; vm_compute; congruence. Qed.

Lemma tier_eqb_eq (a b : ModelTierId) : tier_eqb a b = true <-> a = b.
Proof. destruct a, b; simpl; split; congruence. Qed.

(** X2.  [clampTier] is the minimum in the tier order: its index is the
    smaller of the two indices, clamping twice is clamping once, and it
    returns the tier unchanged exactly when the tier is not above the
    maximum. *)
Theorem clampTier_min (t m : ModelTierId) :
  tierIndex (clampTier t m) = Z.min (tierIndex t) (tierIndex m)
  /\ clampTier (clampTier t m) m = clampTier t m
  /\ (clampTier t m = t <-> tierIndex t <= tierIndex m).
Proof.
  unfold clampTier.
  destruct (tierIndex t <=? tierIndex m) eqn:E.
  - rewrite E. apply Z.leb_le in E. repeat split; auto; lia.
  - rewrite Z.leb_refl. apply Z.leb_gt in E. repeat split; try lia.
    + intros ->. lia.
Qed.

(** X3.  [maxTier] is the maximum in the tier order and does not depend
    on the order of its arguments; [isHigherTier a b] holds exactly when
    the maximum is [a] and the tiers differ; and [maxTier] and
    [clampTier] absorb each other. *)
Theorem maxTier_max (a b : ModelTierId) :
  tierIndex (maxTier a b) = Z.max (tierIndex a) (tierIndex b)
  /\ maxTier a b = maxTier b a
  /\ (isHigherTier a b = true <-> maxTier a b = a /\ a <> b)
  /\ clampTier a (maxTier a b) = a
  /\ maxTier a (clampTier a b) = a.
Proof.
  destruct a, b; vm_compute; repeat split; try congruence;
    try (intros [H1 H2]; congruence); try (intros H; discriminate).
Qed.

(** X4.  Along the tier order no capability score and no price goes
    down: a tier that is not below another is at least as capable in
    each of the six dimensions and costs at least as much. *)
Theorem tier_capabilities_monotone (a b : ModelTierId)
    (Hab : tierIndex a <= tierIndex b) :
  caps_le (capabilities (getTierDefinition a))
          (capabilities (getTierDefinition b)) = true
  /\ PrimFloat.leb (costPer1kInput (getTierDefinition a))
                   (costPer1kInput (getTierDefinition b)) = true.
Proof.
  destruct a, b; vm_compute in Hab; try (exfalso; apply Hab; reflexivity);
    vm_compute; split; reflexivity.
Qed.

Lemma tier_capabilities_monotone_witness :
  tierIndex t1 <= tierIndex t3
  /\ caps_le (capabilities (getTierDefinition t1))
             (capabilities (getTierDefinition t3)) = true.
Proof.
  split.
  - vm_compute. discriminate.
  - apply (tier_capabilities_monotone t1 t3). vm_compute. discriminate.
Defined.

(** X5.  The tier table is consistent: the definitions listed by
    [getAllTierDefinitions] carry the tier ids in the tier order, the
    definition of a tier carries that tier's id, a tier has a price
    exactly when it needs the network, which is exactly when it is
    above T1, and T0 is the only tier without a default model. *)
Theorem tier_table_consistent :
  map id getAllTierDefinitions = TIER_ORDER
  /\ forall t,
       id (getTierDefinition t) = t
       /\ (requiresNetwork (getTierDefinition t) = true
           <-> 1 < tierIndex t)
       /\ (PrimFloat.ltb 0 (costPer1kInput (getTierDefinition t)) = true
           <-> 1 < tierIndex t)
       /\ (getDefaultTierModel t = None <-> t = t0).
Proof.
  split; [reflexivity|].
  intros t; destruct t; vm_compute; repeat split; congruence.
Qed.

End TierTable.

(* ------------------------------------------------------------------ *)
(** ** The router's pipeline, end to end                               *)
(* ------------------------------------------------------------------ *)

Section RouterPipeline.

Import IntentClassifier ModelTiers PromptAdapter Config Router Props.

Variable parseModelRef : jsstring -> jsstring -> option ModelRef.
Variable DEFAULT_PROVIDER : jsstring.
Variable U : Unicode.

Lemma applyBias_index (t r : ModelTierId) (b : RoutingBias) :
  applyBias t b = Some r ->
  tierIndex r
  = match b with
    | balanced => tierIndex t
    | cost => if tierIndex t <=? 1 then tierIndex t else tierIndex t - 1
    | quality => if 4 <=? tierIndex t then tierIndex t else tierIndex t + 1
    end.
Proof.
  destruct t, b; vm_compute; intros H; injection H as <-; reflexivity.
Qed.

Lemma applyBudgetConstraints_cases (t : ModelTierId)
    (rc : IntelligentRoutingConfig) :
  applyBudgetConstraints t rc = t
  \/ applyBudgetConstraints t rc = clampTier t t1.
Proof.
  unfold applyBudgetConstraints.
  destruct (budget rc) as [b|]; [|now left].
  destruct (match preferFree b with Some x => x | None => false end);
    [now right|].
  destruct (cap_reached (dailyCapUsd b) (spend_daily b)); [now right|].
  destruct (cap_reached (monthlyCapUsd b) (spend_monthly b));
    [now right | now left].
Qed.

Lemma applyBudgetConstraints_hit (t : ModelTierId)
    (rc : IntelligentRoutingConfig) :
  budgetHit rc -> applyBudgetConstraints t rc = clampTier t t1.
Proof.
  intros (b & Hb & H). unfold applyBudgetConstraints. rewrite Hb.
  pose proof (prefersFree_dec b) as HP.
  pose proof (cap_reached_daily b) as HD.
  pose proof (cap_reached_monthly b) as HM.
  destruct (match preferFree b with Some x => x | None => false end);
    [reflexivity|].
  destruct (cap_reached (dailyCapUsd b) (spend_daily b)); [reflexivity|].
  destruct (cap_reached (monthlyCapUsd b) (spend_monthly b));
    [reflexivity|].
  exfalso. destruct H as [H|[H|H]].
  - apply HP in H. discriminate.
  - apply HD in H. discriminate.
  - apply HM in H. discriminate.
Qed.

Lemma clampTier_t1 (t : ModelTierId) :
  tierIndex (clampTier t t1) <= 1 /\ tierIndex (clampTier t t1) <= tierIndex t
  /\ (tierIndex t <= 1 -> clampTier t t1 = t).
Proof. destruct t; vm_compute; repeat split; congruence. Qed.

(** The two ways through [routeMessage]: a bypass with T3, or the
    pipeline of minimum tier, bias, budget, model and prompt. *)
Lemma routeMessage_shape (now : jsstring) (params : RouterParams) :
  exists d,
    routeMessage parseModelRef DEFAULT_PROVIDER U now params
      = Some (d, recordAnalytics now params d)
    /\ classification d = classifyIntent U (message params)
    /\ ((bypassed d = true /\ tier d = t3 /\ originalTier d = t3
         /\ adaptedPrompt d = adaptPromptForTier U (systemPrompt params) t3
         /\ ((exists o, sessionModelOverride params = Some o /\ model d = o)
             \/ (sessionModelOverride params = None
                 /\ intent (classifyIntent U (message params)) = explicit
                 /\ model d
                    = resolveModelForTier parseModelRef DEFAULT_PROVIDER t3
                        (routingConfig params) (cfg params))))
        \/ (bypassed d = false
            /\ sessionModelOverride params = None
            /\ intent (classifyIntent U (message params)) <> explicit
            /\ originalTier d
               = resolveMinTierForIntent
                   (intent (classifyIntent U (message params)))
            /\ (exists biased,
                  applyBias (originalTier d) (biasOf (routingConfig params))
                    = Some biased
                  /\ tier d
                     = applyBudgetConstraints biased (routingConfig params))
            /\ model d
               = resolveModelForTier parseModelRef DEFAULT_PROVIDER (tier d)
                   (routingConfig params) (cfg params)
            /\ adaptedPrompt d
               = adaptPromptForTier U (systemPrompt params) (tier d))).
Proof.
  unfold routeMessage, biasOf.
  destruct (sessionModelOverride params) as [o|].
  - eexists. split; [reflexivity|].
    cbn [classification bypassed tier originalTier adaptedPrompt model].
    split; [reflexivity|]. left. repeat split. left. exists o. auto.
  - destruct (intent (classifyIntent U (message params))) eqn:Ei;
      try (destruct (applyBias_total (resolveMinTierForIntent
                       (intent (classifyIntent U (message params))))
                       (match bias (routingConfig params) with
                        | Some b => b
                        | None => balanced
                        end)) as [r Hr];
           rewrite Ei in Hr; rewrite Hr;
           eexists; split; [reflexivity|];
           cbn [classification bypassed tier originalTier adaptedPrompt
                model];
           split; [reflexivity|]; right; repeat split;
           [discriminate | exists r; split; [exact Hr | reflexivity]]).
    eexists. split; [reflexivity|].
    cbn [classification bypassed tier originalTier adaptedPrompt model].
    split; [reflexivity|]. left. repeat split. right. auto.
Qed.

(** X6.  [routeMessage] bypasses the pipeline exactly when a session
    override is present or the message is classified [explicit].  A
    bypass always selects T3 and hands the system prompt over
    unchanged, with [wasAdapted] false; a session override is returned
    as the model whatever the message and the configuration say; and
    the message is classified in every case. *)
Theorem routeMessage_bypass_iff (now : jsstring) (params : RouterParams) :
  exists d events,
    routeMessage parseModelRef DEFAULT_PROVIDER U now params
      = Some (d, events)
    /\ classification d = classifyIntent U (message params)
    /\ (bypassed d = true
        <-> sessionModelOverride params <> None
            \/ intent (classifyIntent U (message params)) = explicit)
    /\ (bypassed d = true ->
        tier d = t3
        /\ adaptedPrompt d
           = {| PromptAdapter.systemPrompt := Some (systemPrompt params);
                userPreamble := None; PromptAdapter.tier := t3;
                wasAdapted := false |})
    /\ (forall o, sessionModelOverride params = Some o -> model d = o).
Proof.
  destruct (routeMessage_shape now params) as (d & E & Hc & H).
  exists d, (recordAnalytics now params d).
  split; [exact E|]. split; [exact Hc|].
  destruct H as [(Hb & Ht & _ & Hp & Hm) | (Hb & Ho & Hi & _)].
  - split; [|split].
    + split; [|auto]. intros _.
      destruct Hm as [(o & Ho & _) | (_ & Hi & _)];
        [left; congruence | right; exact Hi].
    + intros _. split; [exact Ht|]. rewrite Hp. reflexivity.
    + intros o Ho. destruct Hm as [(o' & Ho' & Hm) | (Hn & _)]; congruence.
  - split; [|split].
    + rewrite Hb. split; [discriminate|].
      intros [H|H]; [congruence | contradiction].
    + rewrite Hb. discriminate.
    + intros o Ho'. congruence.
Qed.

(** X7.  Without a bypass the decision is the pipeline's: the original
    tier is the minimum tier of the classified intent; the selected
    tier is at most one step above it, not above it unless the bias is
    [quality], and not below it when the bias is not [cost] and no
    budget is configured; the model is the one resolved for the
    selected tier and the prompt is the one adapted for it. *)
Theorem routeMessage_pipeline (now : jsstring) (params : RouterParams)
    (d : RoutingDecision)
    (events : list RoutingAnalytics.RoutingAnalyticsEvent)
    (Hroute : routeMessage parseModelRef DEFAULT_PROVIDER U now params
              = Some (d, events))
    (Hnormal : bypassed d = false) :
  originalTier d = resolveMinTierForIntent (intent (classification d))
  /\ tierIndex (tier d) <= tierIndex (originalTier d) + 1
  /\ (biasOf (routingConfig params) <> quality ->
      tierIndex (tier d) <= tierIndex (originalTier d))
  /\ (biasOf (routingConfig params) <> cost ->
      budget (routingConfig params) = None ->
      tierIndex (originalTier d) <= tierIndex (tier d))
  /\ model d
     = resolveModelForTier parseModelRef DEFAULT_PROVIDER (tier d)
         (routingConfig params) (cfg params)
  /\ adaptedPrompt d = adaptPromptForTier U (systemPrompt params) (tier d).
Proof.
  destruct (routeMessage_shape now params) as (d' & E & Hc & H).
  rewrite E in Hroute. injection Hroute as -> _.
  destruct H as [(Hb & _) | (_ & _ & _ & Ho & (r & Hr & Ht) & Hm & Hp)];
    [congruence|].
  split; [rewrite Hc; exact Ho|].
  pose proof (applyBias_index _ _ Hr) as Hi.
  pose proof (tierIndex_range (originalTier d)) as Hrange.
  pose proof (clampTier_t1 r) as (Hc1 & Hc2 & _).
  assert (Hle : tierIndex (tier d) <= tierIndex r).
  { rewrite Ht. destruct (applyBudgetConstraints_cases r (routingConfig params))
      as [-> | ->]; lia. }
  repeat split; auto.
  - destruct (biasOf (routingConfig params));
      try destruct (tierIndex (originalTier d) <=? 1);
      try destruct (4 <=? tierIndex (originalTier d)); lia.
  - intros Hq. destruct (biasOf (routingConfig params));
      try congruence;
      try destruct (tierIndex (originalTier d) <=? 1); lia.
  - intros Hq Hn. rewrite Ht. unfold applyBudgetConstraints. rewrite Hn.
    destruct (biasOf (routingConfig params)); try congruence;
      try destruct (4 <=? tierIndex (originalTier d)); lia.
Qed.

(** X8.  The budget binds the pipeline but not a bypass: when
    [preferFree] is set or a cap is reached, a decision that is not a
    bypass selects T0 or T1, a tier that needs no network, whatever the
    intent and the bias; a bypass still selects T3. *)
Theorem routeMessage_budget_cap (now : jsstring) (params : RouterParams)
    (d : RoutingDecision)
    (events : list RoutingAnalytics.RoutingAnalyticsEvent)
    (Hroute : routeMessage parseModelRef DEFAULT_PROVIDER U now params
              = Some (d, events))
    (Hbudget : budgetHit (routingConfig params)) :
  (bypassed d = false ->
   tierIndex (tier d) <= 1
   /\ requiresNetwork (getTierDefinition (tier d)) = false)
  /\ (bypassed d = true -> tier d = t3).
Proof.
  destruct (routeMessage_shape now params) as (d' & E & Hc & H).
  rewrite E in Hroute. injection Hroute as -> _.
  destruct H as [(Hb & Ht & _) | (Hb & _ & _ & _ & (r & Hr & Ht) & _)].
  - split; [congruence | auto].
  - split; [|congruence]. intros _.
    rewrite (applyBudgetConstraints_hit r Hbudget) in Ht.
    pose proof (clampTier_t1 r) as (Hc1 & _). rewrite <- Ht in Hc1.
    split; [exact Hc1|].
    destruct (tier d); vm_compute in Hc1; try (exfalso; now apply Hc1);
      reflexivity.
Qed.

(** X9.  [applyBudgetConstraints] never raises a tier: the result is
    the tier itself or T1, it is not above the tier, T0 and T1 pass
    unchanged whatever the budget says, and applying the constraints
    twice is applying them once. *)
Theorem applyBudgetConstraints_lowers (t : ModelTierId)
    (rc : IntelligentRoutingConfig) :
  tierIndex (applyBudgetConstraints t rc) <= tierIndex t
  /\ (applyBudgetConstraints t rc = t \/ applyBudgetConstraints t rc = t1)
  /\ (tierIndex t <= 1 -> applyBudgetConstraints t rc = t)
  /\ applyBudgetConstraints (applyBudgetConstraints t rc) rc
     = applyBudgetConstraints t rc.
Proof.
  pose proof (clampTier_t1 t) as (H1 & H2 & H3).
  pose proof (applyBudgetConstraints_cases t rc) as Hc.
  assert (Hk : clampTier t t1 = t \/ clampTier t t1 = t1)
    by (destruct t; vm_compute; auto).
  repeat split.
  - destruct Hc as [-> | ->]; lia.
  - destruct Hc as [-> | ->]; auto.
  - intros Hle. destruct Hc as [-> | ->]; auto.
  - destruct Hc as [E | E]; rewrite E.
    + exact E.
    + destruct (applyBudgetConstraints_cases (clampTier t t1) rc)
        as [-> | ->]; [reflexivity|].
      destruct t; reflexivity.
Qed.

(** X10.  The analytics of a routing call: exactly one event when the
    logger is present and enabled and none otherwise; the event is an
    [override] exactly for a bypass, a [budget_downgrade] exactly when
    the pipeline's tier differs from the original tier, and a [route]
    otherwise, never a [complete] or a [fallback]; [originalTier] is
    recorded exactly when the tier differs from it. *)
Theorem routeMessage_events (now : jsstring) (params : RouterParams)
    (d : RoutingDecision)
    (events : list RoutingAnalytics.RoutingAnalyticsEvent)
    (Hroute : routeMessage parseModelRef DEFAULT_PROVIDER U now params
              = Some (d, events)) :
  length events = (if loggerOn (analytics params) then 1 else 0)%nat
  /\ forall e, In e events ->
       (RoutingAnalytics.event e = RoutingAnalytics.override
        <-> bypassed d = true)
       /\ (RoutingAnalytics.event e = RoutingAnalytics.budget_downgrade
           <-> bypassed d = false /\ tier d <> originalTier d)
       /\ (RoutingAnalytics.event e = RoutingAnalytics.route
           <-> bypassed d = false /\ tier d = originalTier d)
       /\ RoutingAnalytics.event e <> RoutingAnalytics.complete
       /\ RoutingAnalytics.event e <> RoutingAnalytics.fallback
       /\ RoutingAnalytics.originalTier e
          = (if tier_eqb (tier d) (originalTier d) then None
             else Some (originalTier d))
       /\ RoutingAnalytics.tier e = tier d
       /\ RoutingAnalytics.messageLength e = length (message params).
Proof.
  destruct (routeMessage_shape now params) as (d' & E & _).
  rewrite E in Hroute. injection Hroute as -> <-.
  unfold recordAnalytics, loggerOn.
  destruct (analytics params) as [[[|]]|]; split; try reflexivity;
    try (intros ? Hin; exact (False_ind _ Hin)).
  intros e [<- | []].
  cbn [RoutingAnalytics.event RoutingAnalytics.originalTier
       RoutingAnalytics.tier RoutingAnalytics.messageLength].
  destruct (bypassed d);
    destruct (tier_eqb (tier d) (originalTier d)) eqn:Et; cbn [negb];
    first [ assert (Ht : tier d = originalTier d)
              by (apply tier_eqb_eq; exact Et)
          | assert (Ht : tier d <> originalTier d)
              by (intros H; apply tier_eqb_eq in H; congruence) ];
    intuition (try congruence; try discriminate).
Qed.

(** X11.  The cost estimate of a routing event: it is null exactly when
    the selected tier is T0 or T1, and half of the tier's price per
    thousand input tokens otherwise. *)
Theorem routeMessage_event_cost (now : jsstring) (params : RouterParams)
    (d : RoutingDecision) (e : RoutingAnalytics.RoutingAnalyticsEvent)
    (events : list RoutingAnalytics.RoutingAnalyticsEvent)
    (Hroute : routeMessage parseModelRef DEFAULT_PROVIDER U now params
              = Some (d, events))
    (He : In e events) :
  (RoutingAnalytics.estimatedCostUsd e = None <-> tierIndex (tier d) <= 1)
  /\ (1 < tierIndex (tier d) ->
      RoutingAnalytics.estimatedCostUsd e
      = Some (costPer1kInput (getTierDefinition (tier d)) * 0.5)%float)
  /\ (bypassed d = true ->
      RoutingAnalytics.estimatedCostUsd e = Some 0.0075%float).
Proof.
  destruct (routeMessage_shape now params) as (d' & E & _ & Hs).
  rewrite E in Hroute. injection Hroute as -> <-.
  assert (Hb : bypassed d = true -> tier d = t3)
    by (destruct Hs as [(_ & Ht & _) | (Hb & _)]; [auto | congruence]).
  revert He. unfold recordAnalytics.
  destruct (analytics params) as [[[|]]|];
    try (intros Hin; exact (False_ind _ Hin)).
  intros [<- | []]. cbn [RoutingAnalytics.estimatedCostUsd].
  split; [|split].
  - destruct (tier d); vm_compute; split; congruence.
  - destruct (tier d); vm_compute; intros H; try discriminate; reflexivity.
  - intros H. rewrite (Hb H). reflexivity.
Qed.

(** X12.  An upgrade is logged as a downgrade: under the [quality] bias
    with no budget, a message that is neither a bypass nor [flagship]
    is routed one tier above its minimum tier, and the event recorded
    for it is a [budget_downgrade] that names the lower tier as
    [originalTier]. *)
Theorem quality_upgrade_logged_as_downgrade
    (now : jsstring) (params : RouterParams) (d : RoutingDecision)
    (e : RoutingAnalytics.RoutingAnalyticsEvent)
    (Hroute : routeMessage parseModelRef DEFAULT_PROVIDER U now params
              = Some (d, [e]))
    (Hnormal : bypassed d = false)
    (Hbias : bias (routingConfig params) = Some quality)
    (Hbudget : budget (routingConfig params) = None)
    (Hintent : intent (classification d) <> flagship) :
  tierIndex (tier d) = tierIndex (originalTier d) + 1
  /\ RoutingAnalytics.event e = RoutingAnalytics.budget_downgrade
  /\ RoutingAnalytics.originalTier e = Some (originalTier d).
Proof.
  destruct (routeMessage_shape now params) as (d' & E & Hc & Hs).
  rewrite E in Hroute. injection Hroute as -> He.
  destruct Hs as [(Hb & _) | (_ & _ & Hx & Ho & (r & Hr & Ht) & _)];
    [congruence|].
  unfold biasOf in Hr. rewrite Hbias in Hr.
  unfold applyBudgetConstraints in Ht. rewrite Hbudget in Ht. subst r.
  assert (Hidx : tierIndex (tier d) = tierIndex (originalTier d) + 1).
  { rewrite (applyBias_index _ _ Hr), Ho, <- Hc. rewrite <- Hc in Hx.
    destruct (intent (classification d)); try congruence; reflexivity. }
  split; [exact Hidx|].
  assert (Hne : tier_eqb (tier d) (originalTier d) = false).
  { destruct (tier_eqb (tier d) (originalTier d)) eqn:Eq; [|reflexivity].
    apply tier_eqb_eq in Eq. rewrite Eq in Hidx. lia. }
  revert He. unfold recordAnalytics.
  destruct (analytics params) as [[[|]]|]; try discriminate.
  intros He. injection He as <-.
  cbn [RoutingAnalytics.event RoutingAnalytics.originalTier].
  rewrite Hnormal, Hne. split; reflexivity.
Qed.

(** X13.  The completion event of a decision pairs with its routing
    event: [recordRoutingCompletion] with the same logger emits an
    event exactly when [routeMessage] did, a [complete] event that
    repeats the intent, confidence, tier, provider, model, endpoint and
    [promptAdapted] of the routing event and carries the latency; it
    has no session id, no channel, no classifier reason, no original
    tier and no cost estimate, and its message length is 0. *)
Theorem recordRoutingCompletion_pairs
    (now later : jsstring) (params : RouterParams) (d : RoutingDecision)
    (events : list RoutingAnalytics.RoutingAnalyticsEvent)
    (latencyMs : float) (responseSize : option float)
    (Hroute : routeMessage parseModelRef DEFAULT_PROVIDER U now params
              = Some (d, events)) :
  length (recordRoutingCompletion later (analytics params) d latencyMs
            responseSize (cfg params))
  = length events
  /\ forall e c,
       In e events ->
       In c (recordRoutingCompletion later (analytics params) d latencyMs
               responseSize (cfg params)) ->
       RoutingAnalytics.event c = RoutingAnalytics.complete
       /\ RoutingAnalytics.intent c = RoutingAnalytics.intent e
       /\ RoutingAnalytics.confidence c = RoutingAnalytics.confidence e
       /\ RoutingAnalytics.tier c = RoutingAnalytics.tier e
       /\ RoutingAnalytics.provider c = RoutingAnalytics.provider e
       /\ RoutingAnalytics.model c = RoutingAnalytics.model e
       /\ RoutingAnalytics.endpoint c = RoutingAnalytics.endpoint e
       /\ RoutingAnalytics.promptAdapted c = RoutingAnalytics.promptAdapted e
       /\ RoutingAnalytics.latencyMs c = Some latencyMs
       /\ RoutingAnalytics.responseSize c = responseSize
       /\ RoutingAnalytics.sessionId c = None
       /\ RoutingAnalytics.channel c = None
       /\ RoutingAnalytics.classifierReason c = None
       /\ RoutingAnalytics.originalTier c = None
       /\ RoutingAnalytics.estimatedCostUsd c = None
       /\ RoutingAnalytics.messageLength c = 0%nat.
Proof.
  destruct (routeMessage_shape now params) as (d' & E & _).
  rewrite E in Hroute. injection Hroute as -> <-.
  unfold recordRoutingCompletion, recordAnalytics.
  destruct (analytics params) as [[[|]]|]; split; try reflexivity;
    try (intros ? ? Hin; exact (False_ind _ Hin)).
  intros e c [<- | []] [<- | []]. repeat split.
Qed.

(** X14.  [resolveModelForTier] looks at nothing but the override of
    the tier asked for and, for T0 only, the host's global default:
    two configurations that agree on these resolve the tier to the same
    model. *)
Theorem resolveModelForTier_local (t : ModelTierId)
    (rc rc' : IntelligentRoutingConfig) (cfg cfg' : MoltbotConfig)
    (Htier : tierOverride t rc = tierOverride t rc')
    (Hhost : t = t0 -> agents_defaults_model cfg = agents_defaults_model cfg') :
  resolveModelForTier parseModelRef DEFAULT_PROVIDER t rc cfg
  = resolveModelForTier parseModelRef DEFAULT_PROVIDER t rc' cfg'.
Proof.
  unfold resolveModelForTier. rewrite Htier.
  destruct (match tierOverride t rc' with
            | Some s => parseModelRef s DEFAULT_PROVIDER
            | None => None
            end); [reflexivity|].
  destruct t; try reflexivity.
  rewrite (Hhost eq_refl). reflexivity.
Qed.

End RouterPipeline.

(* ------------------------------------------------------------------ *)
(** ** The router's pipeline on concrete messages                      *)
(* ------------------------------------------------------------------ *)

Section RouterPipelineWitness.

Import IntentClassifier ModelTiers PromptAdapter Config Router Props.

(** A simple question under the [cost] bias stays on its minimum
    tier. *)
Lemma routeMessage_pipeline_witness :
  exists d events,
    routeMessage parseModelRef_spec (str "anthropic") ascii_unicode
      sampleTime (paramsFor "what is recursion?" (biasOnly cost))
    = Some (d, events)
    /\ bypassed d = false
    /\ tierIndex (tier d) <= tierIndex (originalTier d) + 1.
Proof.
  remember (routeMessage parseModelRef_spec (str "anthropic") ascii_unicode
              sampleTime (paramsFor "what is recursion?" (biasOnly cost)))
    as r eqn:E.
  assert (Hb : option_map (fun p => bypassed (fst p)) r = Some false)
    by (rewrite E; vm_compute; reflexivity).
  destruct r as [[d events]|]; [|discriminate].
  injection Hb as Hb. cbn [fst] in Hb. symmetry in E.
  exists d, events. split; [reflexivity|]. split; [exact Hb|].
  apply (@routeMessage_pipeline _ _ _ _ _ _ _ E Hb).
Defined.

(** A code review request with [preferFree] set is answered by a local
    tier. *)
Lemma routeMessage_budget_cap_witness :
  exists d events,
    routeMessage parseModelRef_spec (str "anthropic") ascii_unicode
      sampleTime
      (paramsFor "please do a code review of my refactor" preferFreeConfig)
    = Some (d, events)
    /\ budgetHit preferFreeConfig
    /\ bypassed d = false
    /\ tierIndex (tier d) <= 1.
Proof.
  remember (routeMessage parseModelRef_spec (str "anthropic") ascii_unicode
              sampleTime
              (paramsFor "please do a code review of my refactor"
                 preferFreeConfig))
    as r eqn:E.
  assert (Hb : option_map (fun p => bypassed (fst p)) r = Some false)
    by (rewrite E; vm_compute; reflexivity).
  destruct r as [[d events]|]; [|discriminate].
  injection Hb as Hb. cbn [fst] in Hb. symmetry in E.
  assert (Hhit : budgetHit preferFreeConfig).
  { eexists. split; [reflexivity|]. left. reflexivity. }
  exists d, events. split; [reflexivity|]. split; [exact Hhit|].
  split; [exact Hb|].
  apply (proj1 (@routeMessage_budget_cap _ _ _ _ _ _ _ E Hhit) Hb).
Defined.

(** The same request without a budget: one event, for an enabled
    logger. *)
Lemma routeMessage_events_witness :
  exists d events,
    routeMessage parseModelRef_spec (str "anthropic") ascii_unicode
      sampleTime
      (paramsFor "please do a code review of my refactor"
         (biasOnly balanced))
    = Some (d, events)
    /\ length events = 1%nat.
Proof.
  remember (routeMessage parseModelRef_spec (str "anthropic") ascii_unicode
              sampleTime
              (paramsFor "please do a code review of my refactor"
                 (biasOnly balanced)))
    as r eqn:E.
  assert (Hb : option_map (fun p => bypassed (fst p)) r = Some false)
    by (rewrite E; vm_compute; reflexivity).
  destruct r as [[d events]|]; [|discriminate].
  symmetry in E.
  exists d, events. split; [reflexivity|].
  apply (proj1 (@routeMessage_events _ _ _ _ _ _ _ E)).
Defined.

(** A complex request on T3 is estimated at half of T3's price. *)
Lemma routeMessage_event_cost_witness :
  exists d e,
    routeMessage parseModelRef_spec (str "anthropic") ascii_unicode
      sampleTime
      (paramsFor "please do a code review of my refactor"
         (biasOnly balanced))
    = Some (d, [e])
    /\ (RoutingAnalytics.estimatedCostUsd e = None
        <-> tierIndex (tier d) <= 1).
Proof.
  remember (routeMessage parseModelRef_spec (str "anthropic") ascii_unicode
              sampleTime
              (paramsFor "please do a code review of my refactor"
                 (biasOnly balanced)))
    as r eqn:E.
  assert (Hn : option_map (fun p => length (snd p)) r = Some 1%nat)
    by (rewrite E; vm_compute; reflexivity).
  destruct r as [[d [|e [|e' events]]]|]; try discriminate.
  symmetry in E.
  exists d, e. split; [reflexivity|].
  apply (proj1 (@routeMessage_event_cost _ _ _ _ _ _ e _ E (or_introl eq_refl))).
Defined.

(** A simple question under the [quality] bias goes to T2 and is logged
    as a downgrade from T1. *)
Lemma quality_upgrade_logged_as_downgrade_witness :
  exists d e,
    routeMessage parseModelRef_spec (str "anthropic") ascii_unicode
      sampleTime (paramsFor "what is recursion?" (biasOnly quality))
    = Some (d, [e])
    /\ bypassed d = false
    /\ intent (classification d) <> flagship
    /\ tierIndex (tier d) = tierIndex (originalTier d) + 1
    /\ RoutingAnalytics.event e = RoutingAnalytics.budget_downgrade.
Proof.
  remember (routeMessage parseModelRef_spec (str "anthropic") ascii_unicode
              sampleTime (paramsFor "what is recursion?" (biasOnly quality)))
    as r eqn:E.
  assert (Hn : option_map (fun p => length (snd p)) r = Some 1%nat)
    by (rewrite E; vm_compute; reflexivity).
  assert (Hb : option_map (fun p => bypassed (fst p)) r = Some false)
    by (rewrite E; vm_compute; reflexivity).
  assert (Hi : option_map (fun p => intent (classification (fst p))) r
               = Some simple)
    by (rewrite E; vm_compute; reflexivity).
  destruct r as [[d [|e [|e' events]]]|]; try discriminate.
  injection Hb as Hb. injection Hi as Hi. cbn [fst] in Hb, Hi.
  symmetry in E.
  assert (Hf : intent (classification d) <> flagship)
    by (rewrite Hi; discriminate).
  exists d, e. split; [reflexivity|]. split; [exact Hb|].
  split; [exact Hf|].
  destruct (@quality_upgrade_logged_as_downgrade _ _ _ _ _ _ _ E Hb
              eq_refl eq_refl Hf)
    as (H1 & H2 & _).
  split; [exact H1 | exact H2].
Defined.

(** The completion event of a routed request. *)
Lemma recordRoutingCompletion_pairs_witness :
  exists d events,
    routeMessage parseModelRef_spec (str "anthropic") ascii_unicode
      sampleTime (paramsFor "what is recursion?" (biasOnly balanced))
    = Some (d, events)
    /\ length (recordRoutingCompletion sampleTime
                 (analytics (paramsFor "what is recursion?"
                               (biasOnly balanced)))
                 d 1200%float None baseCfg)
       = length events.
Proof.
  remember (routeMessage parseModelRef_spec (str "anthropic") ascii_unicode
              sampleTime (paramsFor "what is recursion?" (biasOnly balanced)))
    as r eqn:E.
  assert (Hb : option_map (fun p => bypassed (fst p)) r = Some false)
    by (rewrite E; vm_compute; reflexivity).
  destruct r as [[d events]|]; [|discriminate].
  symmetry in E.
  exists d, events. split; [reflexivity|].
  apply (proj1 (@recordRoutingCompletion_pairs _ _ _ _ sampleTime _ _ _
                  1200%float None E)).
Defined.

(** T2 resolves to the same model whatever the host's global default
    is. *)
Lemma resolveModelForTier_local_witness :
  resolveModelForTier parseModelRef_spec (str "anthropic") t2
    malformedT1Config baseCfg
  = resolveModelForTier parseModelRef_spec (str "anthropic") t2
      (biasOnly cost)
      {| agents_defaults_model := None; models_providers := [] |}.
Proof.
  apply (@resolveModelForTier_local parseModelRef_spec (str "anthropic") t2).
  - reflexivity.
  - discriminate.
Defined.

End RouterPipelineWitness.

(* ------------------------------------------------------------------ *)
(** ** The integration hook and the analytics logger                   *)
(* ------------------------------------------------------------------ *)

Section IntegrationHook.

Import ModelTiers PromptAdapter Config AnalyticsLog ModelIntelligent Props.

Variable Env : Type.
Variable process_env : Env.
Variable resolveStateDir : Env -> jsstring.
Variable path_join : list jsstring -> jsstring.
Variable parseModelRef : jsstring -> jsstring -> option ModelRef.
Variable DEFAULT_PROVIDER : jsstring.
Variable U : Unicode.

Lemma existsb_eqb (p : jsstring) (ws : list jsstring) :
  existsb (Js.eqb p) ws = true <-> In p ws.
Proof.
  rewrite existsb_exists. split.
  - intros (x & Hin & Hx). apply Js_eqb_eq in Hx. now subst.
  - intros Hin. exists p. split; [exact Hin|]. now apply Js_eqb_eq.
Qed.

Lemma getWriter_fst (p : jsstring) (ws : Writers) :
  fst (getWriter p ws) = p.
Proof. unfold getWriter. destruct (existsb (Js.eqb p) ws); reflexivity. Qed.

(** X15.  [getWriter] keeps one writer per path: it returns the writer
    of the path asked for and the path is registered afterwards; a
    registered path leaves the map as it is and a new one is added at
    its end; asking again changes nothing; and a map without duplicate
    paths stays without duplicates. *)
Theorem getWriter_registers (p : jsstring) (ws : Writers) :
  fst (getWriter p ws) = p
  /\ In p (snd (getWriter p ws))
  /\ (In p ws -> snd (getWriter p ws) = ws)
  /\ (~ In p ws -> snd (getWriter p ws) = ws ++ [p])
  /\ getWriter p (snd (getWriter p ws)) = getWriter p ws
  /\ (NoDup ws -> NoDup (snd (getWriter p ws))).
Proof.
  unfold getWriter. pose proof (existsb_eqb p ws) as He.
  destruct (existsb (Js.eqb p) ws) eqn:E; cbn [fst snd].
  - assert (Hin : In p ws) by (apply He; reflexivity).
    rewrite E. repeat split; auto. intros Hn. contradiction.
  - assert (Hn : ~ In p ws) by (intros H; apply He in H; discriminate).
    assert (Hin : In p (ws ++ [p])) by (apply in_or_app; right; now left).
    rewrite (proj2 (existsb_eqb p (ws ++ [p])) Hin).
    repeat split; auto.
    + intros H. contradiction.
    + intros Hd. apply NoDup_app; [exact Hd | repeat constructor; auto |].
      intros x Hx Hp. simpl in Hp. destruct Hp as [Hp | Hp]; [|exact Hp].
      subst x. contradiction.
Qed.

Lemma recordAnalytics_on (now : jsstring) (rp : Router.RouterParams)
    (d : Router.RoutingDecision) :
  Router.analytics rp = Some {| RoutingAnalytics.enabled := true |} ->
  exists e, Router.recordAnalytics now rp d = [e].
Proof.
  intros H. unfold Router.recordAnalytics. rewrite H. eexists. reflexivity.
Qed.

Lemma recordAnalytics_off (now : jsstring) (rp : Router.RouterParams)
    (d : Router.RoutingDecision) :
  Router.analytics rp = None -> Router.recordAnalytics now rp d = [].
Proof. intros H. unfold Router.recordAnalytics. now rewrite H. Qed.

(** A call with routing enabled: the router's decision with the logger
    of [getOrCreateAnalyticsLogger], and the events written to it. *)
Lemma hook_step (now : jsstring) (params : Params Env) (st : State)
    (rc : IntelligentRoutingConfig) :
  intelligentRouting (cfg params) = Some rc ->
  enabled rc = Some true ->
  exists d events,
    Router.routeMessage parseModelRef DEFAULT_PROVIDER U now
      (routerParams params rc
         (fst (getOrCreateAnalyticsLogger process_env resolveStateDir
                 path_join rc (env params) st)))
    = Some (d, events)
    /\ resolveModelIntelligent process_env resolveStateDir path_join
         parseModelRef DEFAULT_PROVIDER U now params st
       = Some
           (Some {| decision := d;
                    useAdaptedPrompt :=
                      wasAdapted (Router.adaptedPrompt d);
                    analytics :=
                      fst (getOrCreateAnalyticsLogger process_env
                             resolveStateDir path_join rc (env params) st) |},
            {| analyticsLogger :=
                 analyticsLogger
                   (snd (getOrCreateAnalyticsLogger process_env
                           resolveStateDir path_join rc (env params) st));
               writers :=
                 writers
                   (snd (getOrCreateAnalyticsLogger process_env
                           resolveStateDir path_join rc (env params) st));
               written :=
                 written
                   (snd (getOrCreateAnalyticsLogger process_env
                           resolveStateDir path_join rc (env params) st))
                 ++ match fst (getOrCreateAnalyticsLogger process_env
                                 resolveStateDir path_join rc (env params)
                                 st) with
                    | Some l => map (record l) events
                    | None => []
                    end |}).
Proof.
  intros Hrc Hen.
  unfold resolveModelIntelligent, resolveRoutingConfig.
  rewrite Hrc, Hen.
  destruct (getOrCreateAnalyticsLogger process_env resolveStateDir
              path_join rc (env params) st) as [a st1].
  cbn [fst snd].
  destruct (routeMessage_shape parseModelRef DEFAULT_PROVIDER U now
              (routerParams params rc a)) as (d & E & _).
  unfold routerParams in E |- *. rewrite E.
  eexists. eexists. split; reflexivity.
Qed.

(** X16.  The feature flag: the hook returns a result for every input,
    and the result is null exactly when [cfg.intelligentRouting] is
    missing or its [enabled] is not [true]; a call that returns null
    creates no logger, registers no writer and writes nothing. *)
Theorem resolveModelIntelligent_null_iff
    (now : jsstring) (params : Params Env) (st : State) :
  exists res st',
    resolveModelIntelligent process_env resolveStateDir path_join
      parseModelRef DEFAULT_PROVIDER U now params st = Some (res, st')
    /\ (res = None <-> ~ routingOn (cfg params))
    /\ (res = None -> st' = st).
Proof.
  destruct (intelligentRouting (cfg params)) as [rc|] eqn:Hrc.
  - destruct (enabled rc) as [[|]|] eqn:Hen.
    + destruct (hook_step now params st Hrc Hen) as (d & ev & _ & H).
      eexists. eexists. split; [exact H|]. split.
      * split; [discriminate|]. intros Hn. exfalso. apply Hn.
        exists rc. auto.
      * discriminate.
    + unfold resolveModelIntelligent, resolveRoutingConfig.
      rewrite Hrc, Hen. exists None, st. repeat split; auto.
      intros _ (rc' & H1 & H2). congruence.
    + unfold resolveModelIntelligent, resolveRoutingConfig.
      rewrite Hrc, Hen. exists None, st. repeat split; auto.
      intros _ (rc' & H1 & H2). congruence.
  - unfold resolveModelIntelligent, resolveRoutingConfig.
    rewrite Hrc. exists None, st. repeat split; auto.
    intros _ (rc' & H1 & H2). congruence.
Qed.

(** X17.  The logger is created once: when a logger exists, a call
    keeps it and the writers whatever its configuration says about
    [analytics] and [analyticsPath]; a call that routes returns that
    logger and adds exactly one write request, addressed to the
    logger's file. *)
Theorem analyticsLogger_sticky
    (now : jsstring) (params : Params Env) (st st' : State) (l : Logger)
    (res : option IntelligentRoutingResult)
    (Hlogger : analyticsLogger st = Some l)
    (Hcall : resolveModelIntelligent process_env resolveStateDir path_join
               parseModelRef DEFAULT_PROVIDER U now params st
             = Some (res, st')) :
  analyticsLogger st' = Some l
  /\ writers st' = writers st
  /\ (forall r, res = Some r ->
        analytics r = Some l
        /\ exists e, written st' = written st ++ [(filePath l, e)])
  /\ (res = None -> written st' = written st).
Proof.
  destruct (intelligentRouting (cfg params)) as [rc|] eqn:Hrc.
  - destruct (enabled rc) as [[|]|] eqn:Hen.
    + destruct (hook_step now params st Hrc Hen) as (d & ev & Hr & H).
      rewrite H in Hcall. clear H.
      unfold getOrCreateAnalyticsLogger in Hcall, Hr.
      rewrite Hlogger in Hcall, Hr. cbn [fst snd] in Hcall, Hr.
      destruct (routeMessage_shape parseModelRef DEFAULT_PROVIDER U now
                  (routerParams params rc (Some l))) as (d' & E & _).
      rewrite E in Hr. injection Hr as -> <-.
      destruct (@recordAnalytics_on now (routerParams params rc (Some l)) d
                  eq_refl) as [e He].
      rewrite He in Hcall. cbn [map] in Hcall.
      injection Hcall as <- <-. cbn [analyticsLogger writers written].
      split; [exact Hlogger|]. split; [reflexivity|]. split.
      * intros r Hres. injection Hres as <-. cbn [analytics].
        split; [reflexivity|]. exists e. reflexivity.
      * discriminate.
    + unfold resolveModelIntelligent, resolveRoutingConfig in Hcall.
      rewrite Hrc, Hen in Hcall. injection Hcall as <- <-.
      split; [exact Hlogger|]. split; [reflexivity|].
      split; [intros r Hres; discriminate | reflexivity].
    + unfold resolveModelIntelligent, resolveRoutingConfig in Hcall.
      rewrite Hrc, Hen in Hcall. injection Hcall as <- <-.
      split; [exact Hlogger|]. split; [reflexivity|].
      split; [intros r Hres; discriminate | reflexivity].
  - unfold resolveModelIntelligent, resolveRoutingConfig in Hcall.
    rewrite Hrc in Hcall. injection Hcall as <- <-.
    split; [exact Hlogger|]. split; [reflexivity|].
    split; [intros r Hres; discriminate | reflexivity].
Qed.

(** X18.  The first logger: without a logger, a routing call whose
    configuration has [analytics] set to [true] creates one for
    [analyticsPath], or for the log file under the state directory when
    no path is given, registers its writer and writes one event to it;
    a call whose [analytics] is missing or [false] leaves the state as
    it is and returns no logger, so a later call can still create
    one. *)
Theorem analyticsLogger_created
    (now : jsstring) (params : Params Env) (st st' : State)
    (rc : IntelligentRoutingConfig) (r : IntelligentRoutingResult)
    (Hnone : analyticsLogger st = None)
    (Hrc : intelligentRouting (cfg params) = Some rc)
    (Hcall : resolveModelIntelligent process_env resolveStateDir path_join
               parseModelRef DEFAULT_PROVIDER U now params st
             = Some (Some r, st')) :
  analytics r = analyticsLogger st'
  /\ (Config.analytics rc = Some true ->
      let path := match analyticsPath rc with
                  | Some p => p
                  | None => defaultLogPath process_env resolveStateDir
                              path_join (env params)
                  end in
      analyticsLogger st' = Some {| filePath := path |}
      /\ writers st' = snd (getWriter path (writers st))
      /\ exists e, written st' = written st ++ [(path, e)])
  /\ (Config.analytics rc <> Some true ->
      analyticsLogger st' = None /\ writers st' = writers st
      /\ written st' = written st).
Proof.
  destruct (enabled rc) as [[|]|] eqn:Hen;
    try (unfold resolveModelIntelligent, resolveRoutingConfig in Hcall;
         rewrite Hrc, Hen in Hcall; discriminate).
  destruct (hook_step now params st Hrc Hen) as (d & ev & Hr & H).
  rewrite H in Hcall. clear H.
  unfold getOrCreateAnalyticsLogger, createRoutingAnalyticsLogger
    in Hcall, Hr.
  rewrite Hnone in Hcall, Hr.
  destruct (Config.analytics rc) as [[|]|] eqn:Ha; cbn [negb] in Hcall, Hr.
  - fold (defaultLogPath process_env resolveStateDir path_join (env params))
      in Hcall, Hr.
    set (path := match analyticsPath rc with
                 | Some p => p
                 | None => defaultLogPath process_env resolveStateDir
                             path_join (env params)
                 end) in *.
    pose proof (getWriter_fst path (writers st)) as Hw.
    destruct (getWriter path (writers st)) as [w ws'] eqn:Eg.
    cbn [fst snd] in Hcall, Hr, Hw. subst w.
    destruct (routeMessage_shape parseModelRef DEFAULT_PROVIDER U now
                (routerParams params rc (Some {| filePath := path |})))
      as (d' & E & _).
    rewrite E in Hr. injection Hr as -> <-.
    destruct (@recordAnalytics_on now
                (routerParams params rc (Some {| filePath := path |})) d
                eq_refl) as [e He].
    rewrite He in Hcall. cbn [map] in Hcall.
    injection Hcall as <- <-. cbn [analytics analyticsLogger writers written].
    split; [reflexivity|]. split.
    + intros _. cbv zeta. fold path. rewrite Eg.
      split; [reflexivity|]. split; [reflexivity|]. exists e. reflexivity.
    + intros Hn. congruence.
  - cbn [fst snd] in Hcall, Hr.
    injection Hcall as <- <-. cbn [analytics analyticsLogger writers written].
    split; [reflexivity|]. split; [discriminate|].
    intros _. rewrite app_nil_r. auto.
  - cbn [fst snd] in Hcall, Hr.
    injection Hcall as <- <-. cbn [analytics analyticsLogger writers written].
    split; [reflexivity|]. split; [discriminate|].
    intros _. rewrite app_nil_r. auto.
Qed.

Lemma hook_total (now : jsstring) (params : Params Env) (st : State) :
  exists res st',
    resolveModelIntelligent process_env resolveStateDir path_join
      parseModelRef DEFAULT_PROVIDER U now params st = Some (res, st').
Proof.
  destruct (intelligentRouting (cfg params)) as [rc|] eqn:Hrc.
  - destruct (enabled rc) as [[|]|] eqn:Hen;
      try (unfold resolveModelIntelligent, resolveRoutingConfig;
           rewrite Hrc, Hen; eexists; eexists; reflexivity).
    destruct (hook_step now params st Hrc Hen) as (d & ev & _ & H).
    eexists. eexists. exact H.
  - unfold resolveModelIntelligent, resolveRoutingConfig.
    rewrite Hrc. eexists. eexists. reflexivity.
Qed.

Lemma record_path (l : Logger)
    (events : list RoutingAnalytics.RoutingAnalyticsEvent) :
  Forall (fun w => fst w = filePath l) (map (record l) events).
Proof. induction events; simpl; constructor; auto. Qed.

Lemma oneLogFile_step (now : jsstring) (params : Params Env)
    (st st' : State) (res : option IntelligentRoutingResult) :
  oneLogFile st ->
  resolveModelIntelligent process_env resolveStateDir path_join
    parseModelRef DEFAULT_PROVIDER U now params st = Some (res, st') ->
  oneLogFile st'.
Proof.
  intros Hinv Hcall.
  destruct (intelligentRouting (cfg params)) as [rc|] eqn:Hrc;
    [destruct (enabled rc) as [[|]|] eqn:Hen |];
    try (unfold resolveModelIntelligent, resolveRoutingConfig in Hcall;
         rewrite Hrc in Hcall; try rewrite Hen in Hcall;
         injection Hcall as <- <-; exact Hinv).
  destruct (hook_step now params st Hrc Hen) as (d & ev & _ & H).
  rewrite H in Hcall. clear H. injection Hcall as _ <-.
  unfold getOrCreateAnalyticsLogger, createRoutingAnalyticsLogger.
  unfold oneLogFile in Hinv |- *.
  destruct (analyticsLogger st) as [l|] eqn:Hl.
  - cbn [fst snd analyticsLogger writers written]. rewrite Hl.
    destruct Hinv as (Hw & Hall). split; [exact Hw|].
    apply Forall_app. split; [exact Hall | apply record_path].
  - destruct Hinv as (Hw & Hwr). rewrite Hw, Hwr.
    destruct (Config.analytics rc) as [[|]|]; cbn; auto.
    split; [reflexivity | exact (record_path {| filePath := _ |} ev)].
Qed.

(** X19.  One log file per process: after any sequence of calls of the
    hook from a fresh state, at most one writer is registered, it is
    the writer of the singleton logger, and every event written so far
    went to that logger's file; the sequence always runs to its end. *)
Theorem runCalls_one_log_file (calls : list (jsstring * Params Env)) :
  exists st,
    runCalls process_env resolveStateDir path_join parseModelRef
      DEFAULT_PROVIDER U calls initState = Some st
    /\ oneLogFile st.
Proof.
  assert (Hgen : forall st0, oneLogFile st0 ->
            exists st,
              runCalls process_env resolveStateDir path_join parseModelRef
                DEFAULT_PROVIDER U calls st0 = Some st
              /\ oneLogFile st).
  { induction calls as [|[now params] rest IH]; intros st0 H0.
    - exists st0. split; [reflexivity | exact H0].
    - destruct (hook_total now params st0) as (res & st1 & E).
      cbn [runCalls]. rewrite E.
      apply IH. exact (@oneLogFile_step now params st0 st1 res H0 E). }
  apply Hgen. unfold oneLogFile, initState. cbn. auto.
Qed.

End IntegrationHook.

Section IntegrationHookWitness.

Import ModelTiers PromptAdapter Config AnalyticsLog ModelIntelligent Props.

(** A call whose configuration switches analytics off, in a process
    that has a logger: the logger stays. *)
Lemma analyticsLogger_sticky_witness :
  exists res st',
    resolveModelIntelligent tt sampleStateDir samplePathJoin
      parseModelRef_spec (str "anthropic") ascii_unicode sampleTime
      (hookParams "hello" (Some (analyticsConfig false None))) loggedState
    = Some (res, st')
    /\ analyticsLogger st'
       = Some {| filePath := str "/var/log/routing.jsonl" |}
    /\ writers st' = writers loggedState.
Proof.
  destruct (hook_total tt sampleStateDir samplePathJoin parseModelRef_spec
              (str "anthropic") ascii_unicode sampleTime
              (hookParams "hello" (Some (analyticsConfig false None)))
              loggedState) as (res & st' & E).
  exists res, st'. split; [exact E|].
  destruct (@analyticsLogger_sticky unit tt sampleStateDir samplePathJoin
              parseModelRef_spec (str "anthropic") ascii_unicode sampleTime
              (hookParams "hello" (Some (analyticsConfig false None)))
              loggedState _ {| filePath := str "/var/log/routing.jsonl" |}
              _ eq_refl E) as (H1 & H2 & _).
  split; assumption.
Defined.

(** The first call with analytics on and no path: the logger writes to
    the log file under the state directory. *)
Lemma analyticsLogger_created_witness :
  exists r st',
    resolveModelIntelligent tt sampleStateDir samplePathJoin
      parseModelRef_spec (str "anthropic") ascii_unicode sampleTime
      (hookParams "hello" (Some (analyticsConfig true None))) initState
    = Some (Some r, st')
    /\ analyticsLogger st'
       = Some {| filePath :=
                   str "/home/user/.moltbot/logs/routing-analytics.jsonl" |}.
Proof.
  remember (resolveModelIntelligent tt sampleStateDir samplePathJoin
              parseModelRef_spec (str "anthropic") ascii_unicode sampleTime
              (hookParams "hello" (Some (analyticsConfig true None)))
              initState) as call eqn:E.
  assert (Hres : option_map (fun p => match fst p with
                                      | Some _ => true
                                      | None => false
                                      end) call = Some true)
    by (rewrite E; vm_compute; reflexivity).
  destruct call as [[[r|] st']|]; try discriminate.
  symmetry in E. exists r, st'. split; [reflexivity|].
  destruct (@analyticsLogger_created unit tt sampleStateDir samplePathJoin
              parseModelRef_spec (str "anthropic") ascii_unicode sampleTime
              (hookParams "hello" (Some (analyticsConfig true None)))
              initState _ (analyticsConfig true None) _
              eq_refl eq_refl E) as (_ & Hon & _).
  destruct (Hon eq_refl) as (H & _). exact H.
Defined.

End IntegrationHookWitness.

(* ------------------------------------------------------------------ *)
(** ** The prompt adapter: lengths, sections and the persona           *)
(* ------------------------------------------------------------------ *)

Section ReplaceLength.

Variable U : Unicode.
Variable fl : flags.

(** A replacement that is not longer than any match does not lengthen
    the text. *)
Lemma replace_loop_length (r : re) (by_ : list Z) :
  (forall pre suf spre ssuf epre esuf cs,
      search U fl r pre suf = Some (spre, ssuf, (epre, esuf, cs)) ->
      (length by_ + length esuf <= length ssuf)%nat) ->
  forall fuel pre suf,
    (length (replace_loop U fl fuel r by_ pre suf) <= length suf)%nat.
Proof.
  intros Hby. induction fuel as [|fuel IH]; intros pre suf; simpl.
  - lia.
  - destruct (search U fl r pre suf) as [[[spre ssuf] [[epre esuf] cs]]|]
      eqn:Es; [|lia].
    pose proof (Hby _ _ _ _ _ _ _ Es) as Hlen.
    pose proof (search_end U fl r suf pre Es) as (Hs & He).
    assert (Hskip : length (firstn (length suf - length ssuf) suf)
                    = (length suf - length ssuf)%nat)
      by (rewrite length_firstn; lia).
    destruct (global fl).
    + destruct (Nat.eqb (length esuf) (length ssuf)) eqn:Eq.
      * destruct esuf as [|c rest].
        -- rewrite length_app, Hskip. simpl in Hlen. lia.
        -- rewrite !length_app, Hskip. simpl.
           pose proof (IH (c :: epre) rest). simpl in Hlen. lia.
      * rewrite !length_app, Hskip. pose proof (IH epre esuf). lia.
    + rewrite !length_app, Hskip. lia.
Qed.

End ReplaceLength.

Section AdapterMore.

Import ModelTiers PromptAdapter Props.

Variable U : Unicode.

Lemma replace_empty_length (p : RegExp) (s : jsstring) :
  unicode (rflags p) = false ->
  (length (replace U p [] s) <= length s)%nat.
Proof.
  intros Hu. unfold replace, input_of, output_of. rewrite Hu.
  apply replace_loop_length.
  intros pre suf spre ssuf epre esuf cs Es.
  pose proof (search_end U (rflags p) (pattern p) suf pre Es) as (_ & He).
  simpl. exact He.
Qed.

Lemma stripBoilerplate_length (s : jsstring) :
  (length (stripBoilerplate U s) <= length s)%nat.
Proof.
  unfold stripBoilerplate.
  assert (Hu : Forall (fun p => unicode (rflags p) = false)
                 BOILERPLATE_PHRASES) by (repeat constructor).
  revert s. induction Hu as [|p ps Hp _ IH]; intros s; cbn [fold_left].
  - lia.
  - etransitivity; [apply IH|]. apply replace_empty_length. exact Hp.
Qed.

Lemma collapse_length (s : jsstring) :
  (length (replace U BLANK_RUN [NL; NL] s) <= length s)%nat.
Proof.
  unfold replace, input_of, output_of. cbn [rflags BLANK_RUN rx
    IntentClassifier.rx unicode flag_g].
  apply replace_loop_length.
  intros pre suf spre ssuf epre esuf cs Es.
  destruct (search_blank_run_some U suf pre Es) as (sk & _ & Hlen & _).
  simpl. lia.
Qed.

Lemma join_nl_cons (l : jsstring) (ls : list jsstring) :
  length (join_nl (l :: ls))
  = (length l + match ls with
                | [] => 0
                | _ :: _ => S (length (join_nl ls))
                end)%nat.
Proof.
  destruct ls as [|l' ls]; cbn [join_nl].
  - lia.
  - rewrite length_app. reflexivity.
Qed.

Lemma join_nl_kept (l : jsstring) (kept rest : list jsstring) :
  (length (join_nl kept) <= length (join_nl rest))%nat ->
  (rest = [] -> kept = []) ->
  (length (join_nl (l :: kept)) <= length (join_nl (l :: rest)))%nat.
Proof.
  intros Hle Hnil. rewrite !join_nl_cons.
  destruct kept, rest; try lia.
  discriminate (Hnil eq_refl).
Qed.

Lemma join_nl_dropped (l : jsstring) (kept rest : list jsstring) :
  (length (join_nl kept) <= length (join_nl rest))%nat ->
  (length (join_nl kept) <= length (join_nl (l :: rest)))%nat.
Proof. intros Hle. rewrite join_nl_cons. destruct rest; simpl in *; lia. Qed.

Lemma strip_keep_length (headers : list jsstring) (lines : list jsstring) :
  forall skipping,
    (length (join_nl (strip_keep U headers skipping lines))
     <= length (join_nl lines))%nat.
Proof.
  induction lines as [|l rest IH]; intros sk; [simpl; lia|].
  cbn [strip_keep].
  destruct (headerName U l) as [raw|].
  - destruct (has headers raw).
    + apply join_nl_dropped, IH.
    + apply join_nl_kept; [apply IH | intros ->; reflexivity].
  - destruct sk.
    + apply join_nl_dropped, IH.
    + apply join_nl_kept; [apply IH | intros ->; reflexivity].
Qed.

Lemma persona_keep_length (lines : list jsstring) :
  forall keep cnt,
    (length (join_nl (persona_keep U keep cnt lines))
     <= length (join_nl lines))%nat.
Proof.
  induction lines as [|l rest IH]; intros keep cnt; [simpl; lia|].
  cbn [persona_keep]. cbv zeta.
  match goal with
  | |- context [if ?b then l :: _ else _] => destruct b
  end.
  - apply join_nl_kept; [apply IH | intros ->; reflexivity].
  - apply join_nl_dropped, IH.
Qed.

Lemma stripSectionsByHeader_length (headers : list jsstring)
    (prompt : jsstring) :
  (length (stripSectionsByHeader U prompt headers) <= length prompt)%nat.
Proof.
  unfold stripSectionsByHeader.
  rewrite (strip_fold U headers (split_nl prompt) [] false). cbn [app].
  rewrite <- (join_split_nl prompt) at 2. apply strip_keep_length.
Qed.

Lemma trimEnd_length (s : jsstring) : (length (trimEnd s) <= length s)%nat.
Proof.
  destruct (trimEnd_prefix s) as [b Hb]. rewrite Hb at 2.
  rewrite length_app. lia.
Qed.

Lemma trim_length (s : jsstring) : (length (trim s) <= length s)%nat.
Proof.
  destruct (trim_infix s) as (a & b & Hs). rewrite Hs at 2.
  rewrite !length_app. lia.
Qed.

Lemma extractCorePersona_length (s : jsstring) :
  (length (extractCorePersona U s) <= length s)%nat.
Proof.
  unfold extractCorePersona.
  rewrite (persona_fold U (split_nl s) [] true 0). cbn [app].
  etransitivity; [apply trim_length|].
  rewrite <- (join_split_nl s) at 2. apply persona_keep_length.
Qed.

Lemma trimStart_idempotent (s : jsstring) :
  trimStart (trimStart s) = trimStart s.
Proof.
  pose proof (trimStart_head s) as H.
  destruct (trimStart s) as [|c t]; [reflexivity|].
  simpl. now rewrite H.
Qed.

Lemma trimEnd_idempotent (s : jsstring) : trimEnd (trimEnd s) = trimEnd s.
Proof.
  unfold trimEnd. rewrite rev_involutive, trimStart_idempotent. reflexivity.
Qed.

(** X20.  The T1 prompt is a body followed by the fixed format
    constraint: the body has no trailing whitespace and is never longer
    than the original prompt, so the adapted prompt exceeds the original
    by the length of the constraint at most; [wasAdapted] is [true] and
    there is no preamble. *)
Theorem adaptForT1_body_bound (prompt : jsstring) :
  exists body,
    adaptPromptForTier U prompt t1
    = {| systemPrompt := Some (body ++ formatConstraint);
         userPreamble := None; tier := t1; wasAdapted := true |}
    /\ trimEnd body = body
    /\ (length body <= length prompt)%nat.
Proof.
  cbn [adaptPromptForTier]. unfold adaptForT1. cbv zeta.
  eexists. split; [reflexivity|]. split; [apply trimEnd_idempotent|].
  etransitivity; [apply trimEnd_length|].
  pose proof (stripSectionsByHeader_length STRIPPABLE_SECTION_HEADERS prompt)
    as H1.
  pose proof (stripBoilerplate_length
                (stripSectionsByHeader U prompt STRIPPABLE_SECTION_HEADERS))
    as H2.
  pose proof (collapse_length
                (stripBoilerplate U
                   (stripSectionsByHeader U prompt
                      STRIPPABLE_SECTION_HEADERS))) as H3.
  match goal with
  | |- context [if ?b then _ else _] => destruct b
  end.
  - etransitivity; [apply extractCorePersona_length|]. lia.
  - lia.
Qed.

(** X21.  The T2 prompt is never longer than the original and has no
    run of three newlines; [wasAdapted] is [false] exactly when the
    prompt comes back unchanged, which is the case for every prompt
    without a boilerplate phrase and without such a run. *)
Theorem adaptForT2_light (prompt : jsstring) :
  exists out,
    adaptPromptForTier U prompt t2
    = {| systemPrompt := Some out; userPreamble := None; tier := t2;
         wasAdapted := negb (Js.eqb out prompt) |}
    /\ (length out <= length prompt)%nat
    /\ includes out [NL; NL; NL] = false
    /\ (wasAdapted (adaptPromptForTier U prompt t2) = false
        <-> out = prompt)
    /\ (Forall (fun p => test U p prompt = false)
          (BOILERPLATE_PHRASES ++ [BLANK_RUN]) ->
        out = prompt).
Proof.
  cbn [adaptPromptForTier]. unfold adaptForT2. cbv zeta.
  eexists. split; [reflexivity|]. cbn [wasAdapted].
  split; [|split; [|split]].
  - pose proof (stripBoilerplate_length prompt).
    pose proof (collapse_length (stripBoilerplate U prompt)). lia.
  - apply newlines_ok_includes with (k := 0%nat).
    apply replace_blank_run_ok.
  - rewrite negb_false_iff. apply Js_eqb_eq.
  - intros Hall. apply Forall_app in Hall. destruct Hall as (Hb & Hr).
    rewrite (stripBoilerplate_no_match U prompt Hb).
    apply replace_no_match; [reflexivity|].
    exact (Forall_inv Hr).
Qed.

(** X22.  [stripSectionsByHeader] is idempotent, never lengthens the
    prompt, and with an empty set of headers returns the prompt as it
    is. *)
Theorem stripSectionsByHeader_idempotent (headers : list jsstring)
    (prompt : jsstring) :
  stripSectionsByHeader U (stripSectionsByHeader U prompt headers) headers
  = stripSectionsByHeader U prompt headers
  /\ (length (stripSectionsByHeader U prompt headers) <= length prompt)%nat
  /\ stripSectionsByHeader U prompt [] = prompt.
Proof.
  split; [|split].
  - apply (proj2 (stripSectionsByHeader_exact U headers
                    (stripSectionsByHeader U prompt headers))).
    intros l raw Hin Hh.
    exact (stripSectionsByHeader_none_listed U headers prompt l Hin Hh).
  - apply stripSectionsByHeader_length.
  - apply (proj2 (stripSectionsByHeader_exact U [] prompt)).
    intros l raw _ _. reflexivity.
Qed.

Lemma strip_keep_at_header (headers : list jsstring) (h raw : jsstring)
    (rest : list jsstring) (sk sk' : bool) :
  headerName U h = Some raw ->
  strip_keep U headers sk (h :: rest) = strip_keep U headers sk' (h :: rest).
Proof. intros Hh. cbn [strip_keep]. rewrite Hh. reflexivity. Qed.

Lemma strip_keep_skipped (headers : list jsstring)
    (body rest : list jsstring) :
  Forall (fun l => headerName U l = None) body ->
  strip_keep U headers true (body ++ rest) = strip_keep U headers true rest.
Proof.
  induction 1 as [|l body Hl _ IH]; [reflexivity|].
  cbn [app strip_keep]. rewrite Hl. exact IH.
Qed.

(** X23.  A listed section is removed from its header up to the next
    header, and nothing else changes: stripping a prompt in which a
    listed header is followed by lines that are no headers, and then by
    the end of the prompt or by a header, gives what stripping the
    prompt without that header and those lines gives. *)
Theorem stripSectionsByHeader_drops_section
    (headers : list jsstring) (prompt h raw : jsstring)
    (pre body rest : list jsstring)
    (Hlines : split_nl prompt = pre ++ h :: body ++ rest)
    (Hheader : headerName U h = Some raw)
    (Hlisted : has headers raw = true)
    (Hbody : Forall (fun l => headerName U l = None) body)
    (Hnext : forall l rest', rest = l :: rest' -> headerName U l <> None) :
  stripSectionsByHeader U prompt headers
  = stripSectionsByHeader U (join_nl (pre ++ rest)) headers.
Proof.
  unfold stripSectionsByHeader.
  rewrite !strip_fold. cbn [app]. rewrite Hlines.
  assert (Hrest : forall sk sk',
            strip_keep U headers sk rest = strip_keep U headers sk' rest).
  { intros sk sk'. destruct rest as [|l rest']; [reflexivity|].
    destruct (headerName U l) as [raw'|] eqn:El.
    - exact (@strip_keep_at_header headers l raw' rest' sk sk' El).
    - exfalso. exact (Hnext l rest' eq_refl El). }
  destruct (strip_keep_app U headers pre (h :: body ++ rest) false)
    as [sk1 ->].
  assert (Hsec : strip_keep U headers sk1 (h :: body ++ rest)
                 = strip_keep U headers true rest).
  { cbn [strip_keep]. rewrite Hheader, Hlisted.
    apply strip_keep_skipped. exact Hbody. }
  rewrite Hsec.
  pose proof (split_nl_no_newline prompt) as Hnl. rewrite Hlines in Hnl.
  apply Forall_app in Hnl. destruct Hnl as (Hpre & Hnl).
  apply Forall_inv_tail in Hnl. apply Forall_app in Hnl.
  destruct Hnl as (_ & Hrst).
  destruct (pre ++ rest) as [|x xs] eqn:Epr.
  - apply app_eq_nil in Epr. destruct Epr as (-> & ->).
    cbn [join_nl split_nl strip_keep app].
    rewrite (headerName_blank U). reflexivity.
  - rewrite <- Epr.
    rewrite split_join_nl;
      [| rewrite Epr; discriminate | apply Forall_app; split; assumption].
    destruct (strip_keep_app U headers pre rest false) as [sk2 ->].
    rewrite (Hrest true sk2). reflexivity.
Qed.

Lemma persona_keep_no_header (lines : list jsstring) :
  Forall (fun l => test U SECTION_HEADER l = false) lines ->
  forall cnt rest,
    persona_keep U true cnt (lines ++ rest)
    = lines ++ persona_keep U true cnt rest.
Proof.
  induction 1 as [|l lines Hl _ IH]; intros cnt rest; [reflexivity|].
  cbn [app persona_keep]. rewrite Hl. cbv zeta. rewrite IH. reflexivity.
Qed.

(** X24.  [extractCorePersona] keeps the text before the first header
    and the whole first section, and after that only lines of the
    prompt: when the lines are some lines that are no headers, a header,
    lines that are no headers, and the rest, the result is the trimmed
    text of the first three followed by lines kept from the rest. *)
Theorem extractCorePersona_first_section
    (prompt h : jsstring) (pre body rest : list jsstring)
    (Hlines : split_nl prompt = pre ++ h :: body ++ rest)
    (Hpre : Forall (fun l => test U SECTION_HEADER l = false) pre)
    (Hheader : test U SECTION_HEADER h = true)
    (Hbody : Forall (fun l => test U SECTION_HEADER l = false) body) :
  exists kept,
    extractCorePersona U prompt
    = trim (join_nl (pre ++ h :: body ++ kept))
    /\ forall l, In l kept -> In l rest.
Proof.
  unfold extractCorePersona.
  rewrite (persona_fold U (split_nl prompt) [] true 0). cbn [app].
  rewrite Hlines, (persona_keep_no_header Hpre).
  cbn [persona_keep]. rewrite Hheader. cbv zeta. cbn [Nat.leb orb].
  rewrite (persona_keep_no_header Hbody).
  exists (persona_keep U true 1 rest). split; [reflexivity|].
  intros l. apply persona_keep_incl.
Qed.

(** X25.  A prompt without a header line is not shortened by
    [extractCorePersona]: the result is the trimmed prompt, however
    long it is. *)
Theorem extractCorePersona_no_header (prompt : jsstring)
    (Hnone : Forall (fun l => test U SECTION_HEADER l = false)
               (split_nl prompt)) :
  extractCorePersona U prompt = trim prompt.
Proof.
  unfold extractCorePersona.
  rewrite (persona_fold U (split_nl prompt) [] true 0). cbn [app].
  rewrite <- (app_nil_r (split_nl prompt)) at 1.
  rewrite (persona_keep_no_header Hnone). cbn [persona_keep].
  rewrite app_nil_r, join_split_nl. reflexivity.
Qed.

End AdapterMore.

Section AdapterMoreWitness.

Import ModelTiers PromptAdapter Props.

(** The "Tools" section of a prompt goes, the section after it
    stays. *)
Lemma stripSectionsByHeader_drops_section_witness :
  stripSectionsByHeader ascii_unicode twoSections STRIPPABLE_SECTION_HEADERS
  = stripSectionsByHeader ascii_unicode
      (join_nl ([str "Intro"] ++ [str "## Style"; str "be kind"]))
      STRIPPABLE_SECTION_HEADERS.
Proof.
  apply (@stripSectionsByHeader_drops_section ascii_unicode
           STRIPPABLE_SECTION_HEADERS twoSections (str "## Tools")
           (str "tools") [str "Intro"] [str "use bash"]
           [str "## Style"; str "be kind"]).
  - reflexivity.
  - vm_compute. reflexivity.
  - vm_compute. reflexivity.
  - repeat constructor.
  - intros l rest' H. injection H as <- _. vm_compute. discriminate.
Defined.

(** The introduction and the first section of a prompt are kept. *)
Lemma extractCorePersona_first_section_witness :
  exists kept,
    extractCorePersona ascii_unicode twoSections
    = trim (join_nl ([str "Intro"] ++ str "## Tools" :: [str "use bash"]
                     ++ kept)).
Proof.
  destruct (@extractCorePersona_first_section ascii_unicode twoSections
              (str "## Tools") [str "Intro"] [str "use bash"]
              [str "## Style"; str "be kind"])
    as (kept & H & _).
  - reflexivity.
  - repeat constructor.
  - vm_compute. reflexivity.
  - repeat constructor.
  - exists kept. exact H.
Defined.

(** A prompt of plain sentences comes back trimmed. *)
Lemma extractCorePersona_no_header_witness :
  extractCorePersona ascii_unicode plainPrompt = trim plainPrompt.
Proof.
  apply extractCorePersona_no_header.
  repeat constructor.
Defined.

End AdapterMoreWitness.

(* ------------------------------------------------------------------ *)
(** ** The classifier: whitespace, confidence and short messages       *)
(* ------------------------------------------------------------------ *)

Section TrimFacts.

Lemma trim_idempotent (s : jsstring) : trim (trim s) = trim s.
Proof.
  unfold trim.
  pose proof (trimStart_head s) as H.
  destruct (trimStart s) as [|c t]; [reflexivity|].
  assert (He : trimEnd (c :: t) = c :: trimEnd t)
    by exact (@trimEnd_app_text [] t c H).
  rewrite He. cbn [trimStart]. rewrite H. rewrite <- He.
  apply trimEnd_idempotent.
Qed.

Lemma trim_empty_iff (s : jsstring) :
  trim s = [] <-> Forall (fun c => is_space c = true) s.
Proof.
  split.
  - intros He. apply Forall_forall. intros c Hc.
    destruct (is_space c) eqn:Es; [reflexivity|].
    pose proof (trim_keeps s c Hc Es) as Hin. rewrite He in Hin.
    destruct Hin.
  - intros Hall. unfold trim.
    pose proof (trimStart_head s) as H.
    destruct (trimStart s) as [|c t] eqn:Et; [reflexivity|].
    assert (Hc : In c s) by (apply trimStart_incl; rewrite Et; now left).
    rewrite (proj1 (Forall_forall _ _) Hall c Hc) in H. discriminate.
Qed.

End TrimFacts.

Section ClassifierMore.

Import IntentClassifier Props.

Variable U : Unicode.

(** X26.  Whitespace around a message does not count: the trimmed
    message is classified as the message is, with the same intent,
    confidence, reason and trace. *)
Theorem classifyIntent_trim (message : jsstring) :
  classifyIntent U (trim message) = classifyIntent U message.
Proof.
  unfold classifyIntent. rewrite trim_idempotent. reflexivity.
Qed.

Lemma pattern_entries_length (prefix : string) (w : float)
    (ps : list RegExp) (s : jsstring) :
  length (pattern_entries U prefix w ps s) = length ps.
Proof. unfold pattern_entries. apply length_map. Qed.

(** X27.  The trace is empty exactly for a message of nothing but
    whitespace, the empty message included; such a message is
    [trivial] with confidence 1 and the reason "empty message". *)
Theorem classifyIntent_empty_trace (message : jsstring) :
  (signals (classifyIntent U message) = []
   <-> Forall (fun c => is_space c = true) message)
  /\ (Forall (fun c => is_space c = true) message ->
      classifyIntent U message
      = outcome trivial 1.0 (str "empty message") []).
Proof.
  rewrite <- trim_empty_iff.
  assert (Hstage : decidingStage U message = SEmpty <-> trim message = []).
  { unfold decidingStage. cbv zeta.
    destruct (trim message) as [|c t]; [split; reflexivity|].
    cbn [length Nat.eqb].
    split; [|discriminate].
    repeat match goal with
           | |- context [if ?b then _ else _] => destruct b
           end; discriminate. }
  rewrite classifyIntent_by_stage. split.
  - rewrite <- Hstage.
    destruct (decidingStage U message);
      cbn [stageResult signals outcome];
      split; try reflexivity; try discriminate;
      intros H; apply (f_equal (@length _)) in H;
      unfold flagship_entries, complex_entries in H;
      rewrite ?length_app, ?pattern_entries_length in H;
      cbn in H; try discriminate H; lia.
  - intros He. apply Hstage in He. rewrite He. reflexivity.
Qed.

Lemma flagship_confidence_capped (k : nat) :
  (1 <= k <= 10)%nat -> flagship_confidence k = 0.95%float.
Proof.
  intros Hk.
  do 11 (destruct k as [|k]; [try lia; vm_compute; reflexivity|]). lia.
Qed.

Lemma complex_band_checked :
  forallb (fun k =>
    forallb (fun a => forallb (fun b => forallb (fun c =>
      forallb (fun d => forallb (fun e =>
        implb (PrimFloat.leb 0.5 (complex_score k a b c d e))
          (PrimFloat.leb 0.7
             (complex_confidence (complex_score k a b c d e))
           && PrimFloat.leb
                (complex_confidence (complex_score k a b c d e)) 0.9))
      bools) bools) bools) bools) bools) (List.seq 0%nat 16%nat) = true.
Proof. vm_compute. reflexivity. Qed.

Lemma complex_band (k : nat) (a b c d e : bool) :
  (k <= 15)%nat ->
  PrimFloat.leb 0.5 (complex_score k a b c d e) = true ->
  PrimFloat.leb 0.7 (complex_confidence (complex_score k a b c d e)) = true
  /\ PrimFloat.leb (complex_confidence (complex_score k a b c d e)) 0.9
     = true.
Proof.
  intros Hk Hs.
  pose proof (proj1 (forallb_forall _ _) complex_band_checked k) as H.
  assert (Hin : In k (List.seq 0%nat 16%nat)) by (apply in_seq; lia).
  specialize (H Hin). cbv beta in H.
  pose proof (proj1 (forallb_forall _ _) H a (in_bools a)) as Ha.
  cbv beta in Ha.
  pose proof (proj1 (forallb_forall _ _) Ha b (in_bools b)) as Hb.
  cbv beta in Hb.
  pose proof (proj1 (forallb_forall _ _) Hb c (in_bools c)) as Hc.
  cbv beta in Hc.
  pose proof (proj1 (forallb_forall _ _) Hc d (in_bools d)) as Hd.
  cbv beta in Hd.
  pose proof (proj1 (forallb_forall _ _) Hd e (in_bools e)) as He.
  cbv beta in He. rewrite Hs in He. cbn [implb] in He.
  apply andb_true_iff in He. exact He.
Qed.

(** What holds of the message when a stage decides. *)
Lemma decidingStage_inv (message : jsstring) :
  match decidingStage U message with
  | SEmpty | SExplicit | STrivial | SVeryShort => True
  | st =>
      (Nat.ltb (length (trim message)) 10
       && negb (includes (trim message) (str "?"))) = false
      /\ match st with
         | SFlagship =>
             PrimFloat.leb 0.4
               (add_n (count_matches U FLAGSHIP_PATTERNS (trim message))
                  0.4 0)
             = true
         | SComplex =>
             PrimFloat.leb 0.5 (complexScore U (trim message)) = true
         | _ => True
         end
  end.
Proof.
  unfold decidingStage. cbv zeta.
  destruct (Nat.eqb (length (trim message)) 0); [exact I|].
  destruct (some_pattern_matches U EXPLICIT_MODEL_PATTERNS (trim message));
    [exact I|].
  destruct (some_pattern_matches U TRIVIAL_PATTERNS (trim message));
    [exact I|].
  destruct (Nat.ltb (length (trim message)) 10
            && negb (includes (trim message) (str "?"))); [exact I|].
  destruct (PrimFloat.leb 0.4
              (add_n (count_matches U FLAGSHIP_PATTERNS (trim message))
                 0.4 0)); [split; reflexivity|].
  destruct (PrimFloat.leb 0.5 (complexScore U (trim message)));
    [split; reflexivity|].
  destruct (some_pattern_matches U SIMPLE_PATTERNS (trim message));
    [split; [reflexivity | exact I]|].
  destruct (Nat.leb (wordCount U (trim message)) 15
            && PrimFloat.ltb (complexScore U (trim message)) 0.25);
    split; try reflexivity; exact I.
Qed.

(** X28.  The confidence of each intent: [explicit] has 1; [trivial]
    has 1, 0.95 or 0.8; [simple] has 0.8 or 0.7; [standard] has 0.6;
    [flagship] has 0.95 whatever the number of flagship patterns that
    matched; and [complex] lies between 0.7 and 0.9. *)
Theorem classifyIntent_confidence_by_intent (message : jsstring) :
  match intent (classifyIntent U message) with
  | explicit => confidence (classifyIntent U message) = 1.0%float
  | trivial =>
      confidence (classifyIntent U message) = 1.0%float
      \/ confidence (classifyIntent U message) = 0.95%float
      \/ confidence (classifyIntent U message) = 0.8%float
  | simple =>
      confidence (classifyIntent U message) = 0.8%float
      \/ confidence (classifyIntent U message) = 0.7%float
  | standard => confidence (classifyIntent U message) = 0.6%float
  | flagship => confidence (classifyIntent U message) = 0.95%float
  | complex =>
      PrimFloat.leb 0.7 (confidence (classifyIntent U message)) = true
      /\ PrimFloat.leb (confidence (classifyIntent U message)) 0.9 = true
  end.
Proof.
  rewrite classifyIntent_by_stage.
  pose proof (decidingStage_inv message) as Hinv.
  destruct (decidingStage U message);
    cbn [stageResult intent confidence outcome]; auto.
  - apply flagship_confidence_capped.
    pose proof (count_matches_le U FLAGSHIP_PATTERNS (trim message)) as Hle.
    change (length FLAGSHIP_PATTERNS) with 10%nat in Hle.
    split; [|exact Hle].
    destruct Hinv as (_ & Hinv).
    destruct (count_matches U FLAGSHIP_PATTERNS (trim message));
      [vm_compute in Hinv; discriminate | lia].
  - destruct Hinv as (_ & Hinv).
    unfold complexScore in *. apply complex_band; [|exact Hinv].
    apply (count_matches_le U COMPLEX_PATTERNS).
Qed.

(** X29.  A message of fewer than ten code units after trimming and
    without a question mark is never passed on to the scoring stages:
    it is [trivial] or [explicit], and its trace has at most one
    entry. *)
Theorem classifyIntent_very_short (message : jsstring)
    (Hshort : (length (trim message) < 10)%nat)
    (Hplain : includes (trim message) (str "?") = false) :
  (intent (classifyIntent U message) = trivial
   \/ intent (classifyIntent U message) = explicit)
  /\ (length (signals (classifyIntent U message)) <= 1)%nat.
Proof.
  rewrite classifyIntent_by_stage.
  pose proof (decidingStage_inv message) as Hinv.
  apply Nat.ltb_lt in Hshort. rewrite Hshort, Hplain in Hinv.
  destruct (decidingStage U message);
    cbn [stageResult intent signals outcome length];
    try (destruct Hinv as (Hinv & _); discriminate Hinv); split; auto.
Qed.

End ClassifierMore.

Section ShortMessages.

Import IntentClassifier ModelTiers PromptAdapter Config Router Props.

Variable parseModelRef : jsstring -> jsstring -> option ModelRef.
Variable DEFAULT_PROVIDER : jsstring.
Variable U : Unicode.

Lemma very_short_intent (message : jsstring) :
  (length (trim message) < 10)%nat ->
  includes (trim message) (str "?") = false ->
  intent (classifyIntent U message) = trivial
  \/ intent (classifyIntent U message) = explicit.
Proof.
  intros Hshort Hplain. rewrite classifyIntent_by_stage.
  pose proof (decidingStage_inv U message) as Hinv.
  apply Nat.ltb_lt in Hshort. rewrite Hshort, Hplain in Hinv.
  destruct (decidingStage U message);
    cbn [stageResult intent outcome];
    try (destruct Hinv as (Hinv & _); discriminate Hinv); auto.
Qed.

(** X30.  A short message needs no model unless the bias is [quality]:
    a message of fewer than ten code units after trimming and without a
    question mark, when it is not a bypass, has T0 as its minimum tier;
    under the [cost] and [balanced] bias it stays on T0 with no system
    prompt, and under the [quality] bias it is sent to T1, whatever the
    budget. *)
Theorem routeMessage_short_message
    (now : jsstring) (params : RouterParams) (d : RoutingDecision)
    (events : list RoutingAnalytics.RoutingAnalyticsEvent)
    (Hroute : routeMessage parseModelRef DEFAULT_PROVIDER U now params
              = Some (d, events))
    (Hnormal : bypassed d = false)
    (Hshort : (length (trim (message params)) < 10)%nat)
    (Hplain : includes (trim (message params)) (str "?") = false) :
  originalTier d = t0
  /\ (biasOf (routingConfig params) <> quality ->
      tier d = t0
      /\ PromptAdapter.systemPrompt (adaptedPrompt d) = None)
  /\ (biasOf (routingConfig params) = quality -> tier d = t1).
Proof.
  destruct (routeMessage_shape parseModelRef DEFAULT_PROVIDER U now params)
    as (d' & E & Hc & H).
  rewrite E in Hroute. injection Hroute as -> _.
  destruct H as [(Hb & _) | (_ & _ & Hx & Ho & (r & Hr & Ht) & _ & Hp)];
    [congruence|].
  destruct (very_short_intent (message params) Hshort Hplain) as [Hi | Hi];
    [|contradiction].
  rewrite Hi in Ho. change (resolveMinTierForIntent trivial) with t0 in Ho.
  split; [exact Ho|].
  rewrite Ho in Hr.
  pose proof (applyBudgetConstraints_cases r (routingConfig params)) as Hcase.
  destruct (biasOf (routingConfig params));
    vm_compute in Hr; injection Hr as <-.
  - split; [|discriminate]. intros _.
    assert (Hd : tier d = t0)
      by (rewrite Ht; destruct Hcase as [-> | ->]; reflexivity).
    split; [exact Hd|]. rewrite Hp, Hd. reflexivity.
  - split; [|discriminate]. intros _.
    assert (Hd : tier d = t0)
      by (rewrite Ht; destruct Hcase as [-> | ->]; reflexivity).
    split; [exact Hd|]. rewrite Hp, Hd. reflexivity.
  - split; [congruence|]. intros _.
    rewrite Ht. destruct Hcase as [-> | ->]; reflexivity.
Qed.

End ShortMessages.

Section ClassifierMoreWitness.

Import IntentClassifier ModelTiers PromptAdapter Config Router Props.

(** "see ya" is short and plain. *)
Lemma classifyIntent_very_short_witness :
  intent (classifyIntent ascii_unicode (str "  see ya ")) = trivial
  \/ intent (classifyIntent ascii_unicode (str "  see ya ")) = explicit.
Proof.
  apply (@classifyIntent_very_short ascii_unicode (str "  see ya ")).
  - vm_compute. lia.
  - vm_compute. reflexivity.
Defined.

(** Under the [quality] bias "see ya" goes to the local model. *)
Lemma routeMessage_short_message_witness :
  exists d events,
    routeMessage parseModelRef_spec (str "anthropic") ascii_unicode
      sampleTime (paramsFor "see ya" (biasOnly quality))
    = Some (d, events)
    /\ bypassed d = false
    /\ originalTier d = t0
    /\ tier d = t1.
Proof.
  remember (routeMessage parseModelRef_spec (str "anthropic") ascii_unicode
              sampleTime (paramsFor "see ya" (biasOnly quality)))
    as r eqn:E.
  assert (Hb : option_map (fun p => bypassed (fst p)) r = Some false)
    by (rewrite E; vm_compute; reflexivity).
  destruct r as [[d events]|]; [|discriminate].
  injection Hb as Hb. cbn [fst] in Hb. symmetry in E.
  exists d, events. split; [reflexivity|]. split; [exact Hb|].
  destruct (@routeMessage_short_message parseModelRef_spec (str "anthropic")
              ascii_unicode sampleTime
              (paramsFor "see ya" (biasOnly quality)) d events E Hb)
    as (Ho & _ & Hq).
  - vm_compute. lia.
  - vm_compute. reflexivity.
  - split; [exact Ho | exact (Hq eq_refl)].
Defined.

End ClassifierMoreWitness.
